(** * update-blocks.js: block-list synchronisation, diffing and action recording

    A shallow embedding of [src/update-blocks.js].  The Sequelize tables the
    file works on ([BlockBatch], [Block], [TwitterUser], [Action]) are lists
    and finite sets; the [AnnotatedBlock] table, which the file names
    without binding a model for it, is a finite map.  The promise chains
    of the source become the transitions of an event loop: one transition
    per call of [updateBlocks], per answer of the remote API and per timer;
    the database calls a transition makes are run to completion within it.
    Sealing a batch starts the diff and the pruning and waits for neither:
    the point of the diff at which the destroy of the pruning takes effect
    is up to the database, and the environment chooses it ([DestroyAt]).
    The lookups of removed uids stay pending until answered.  Uids are
    strings of digits, so no key of an object used as a map ([activeFetches],
    the indexed lookup response) is a property inherited from
    [Object.prototype]. *)

From stdpp Require Import gmap strings list sorting pretty.
From Equations Require Import Equations.
From Stdlib Require Import ZArith Lia.

Open Scope Z_scope.
Open Scope string_scope.
Open Scope list_scope.
Open Scope nat_scope.

(** ** The tables *)

(** Modelled from the spec: the [Action] model of [./setup] (its constants
    [BLOCK], [UNBLOCK], [EXTERNAL], [DONE] and its columns), which is not
    part of the source file.  A [type], [cause] or [status] other than the
    named constants carries its own name. *)
Module Action.
Inductive type_t := BLOCK | UNBLOCK | OTHER_TYPE (name : string).
Inductive cause_t := EXTERNAL | OTHER_CAUSE (name : string).
Inductive status_t := DONE | OTHER_STATUS (name : string).

Record row := mk {
  id : nat;
  source_uid : string;
  sink_uid : string;
  type : type_t;
  cause : cause_t;
  cause_uid : option string;
  status : status_t;
  updatedAt : Z
}.
End Action.

#[global] Instance action_type_eq_dec : EqDecision Action.type_t.
Proof. solve_decision. Defined.
#[global] Instance action_cause_eq_dec : EqDecision Action.cause_t.
Proof. solve_decision. Defined.
#[global] Instance action_status_eq_dec : EqDecision Action.status_t.
Proof. solve_decision. Defined.
#[global] Instance action_row_eq_dec : EqDecision Action.row.
Proof. solve_decision. Defined.

(** Modelled from the spec: the [AnnotatedBlock] table, at most one row per
    (source, sink), each row pointing at the Action that last touched it and
    carrying a [shared] flag.  The key of the map is the unique pair.  The
    table is part of the database; the source file binds no model for it
    (see [recordAction]). *)
Module AnnotatedBlock.
Record row := mk { ActionId : nat; shared : bool }.
End AnnotatedBlock.

#[global] Instance annotated_row_eq_dec : EqDecision AnnotatedBlock.row.
Proof. solve_decision. Defined.

(** Modelled from the spec: the [BlockBatch] table (a snapshot): an id that
    grows with every creation, the owning account, the entry count, the
    cursor of the last stored page and the [complete] flag. *)
Module BlockBatch.
Record row := mk {
  id : nat;
  source_uid : string;
  size : nat;
  currentCursor : option string;
  complete : bool
}.
End BlockBatch.

#[global] Instance blockbatch_row_eq_dec : EqDecision BlockBatch.row.
Proof. solve_decision. Defined.

(** Modelled from the spec: the [Block] table (an entry of a snapshot). *)
Module Block.
Record row := mk { sink_uid : string; BlockBatchId : nat }.
End Block.

#[global] Instance block_row_eq_dec : EqDecision Block.row.
Proof. solve_decision. Defined.

(** The persistent state.  [nextBlockBatchId] and [nextActionId] are the
    auto-increment counters of the two tables that hand out ids. *)
Record DB := mkDB {
  BlockBatches : list BlockBatch.row;
  Blocks : list Block.row;
  TwitterUsers : gset string;
  Actions : list Action.row;
  AnnotatedBlocks : gmap (string * string) AnnotatedBlock.row;
  nextBlockBatchId : nat;
  nextActionId : nat
}.

Definition set_BlockBatches (f : list BlockBatch.row → list BlockBatch.row) (db : DB) : DB :=
  mkDB (f (BlockBatches db)) (Blocks db) (TwitterUsers db) (Actions db)
       (AnnotatedBlocks db) (nextBlockBatchId db) (nextActionId db).

Definition set_Blocks (f : list Block.row → list Block.row) (db : DB) : DB :=
  mkDB (BlockBatches db) (f (Blocks db)) (TwitterUsers db) (Actions db)
       (AnnotatedBlocks db) (nextBlockBatchId db) (nextActionId db).

Definition set_TwitterUsers (f : gset string → gset string) (db : DB) : DB :=
  mkDB (BlockBatches db) (Blocks db) (f (TwitterUsers db)) (Actions db)
       (AnnotatedBlocks db) (nextBlockBatchId db) (nextActionId db).

Definition emptyDB : DB := mkDB [] [] ∅ [] ∅ 1 1.

(** ** lodash helpers *)

(** [_.pluck(rows, 'field')] *)
Definition pluck {A B} (field : A → B) (rows : list A) : list B := field <$> rows.

(** [_.difference(array, values)]: the elements of [array], in order and
    with their repetitions, that do not occur in [values]. *)
Definition difference (array values : list string) : list string :=
  filter (λ x, x ∉ values) array.

(** ** recordAction *)

(** The [where] clause of the [Action.find] in [recordAction]: same source,
    sink and type, a cause that is not [EXTERNAL], status [DONE], updated
    after [now - 60 * 1000]. *)
Definition prevActionQuery (source_uid sink_uid : string) (type : Action.type_t)
    (now : Z) (a : Action.row) : Prop :=
  Action.source_uid a = source_uid ∧ Action.sink_uid a = sink_uid ∧
  Action.type a = type ∧ Action.cause a ≠ Action.EXTERNAL ∧
  Action.status a = Action.DONE ∧ (now - 60 * 1000 < Action.updatedAt a)%Z.

#[global] Instance prevActionQuery_dec s k t now a :
  Decision (prevActionQuery s k t now a).
Proof. unfold prevActionQuery. apply _. Defined.

(** [Action.find({where: ...})]: the first row that satisfies the query. *)
Definition Action_find (source_uid sink_uid : string) (type : Action.type_t)
    (now : Z) (db : DB) : option Action.row :=
  head (filter (prevActionQuery source_uid sink_uid type now) (Actions db)).

(** [Action.create(...)] with cause [EXTERNAL] and [cause_uid: null]. *)
Definition Action_create (source_uid sink_uid : string) (type : Action.type_t)
    (now : Z) (db : DB) : DB * Action.row :=
  let a := Action.mk (nextActionId db) source_uid sink_uid type
                     Action.EXTERNAL None Action.DONE now in
  (mkDB (BlockBatches db) (Blocks db) (TwitterUsers db) (Actions db ++ [a])
        (AnnotatedBlocks db) (nextBlockBatchId db) (S (nextActionId db)), a).

(** What the promise chain of [recordAction] ends in: the associated action,
    or a rejection that the final [catch] hands to [logger.error]. *)
Inductive recorded :=
| Associated (a : Action.row)
| Logged (err : string).

(** The file binds [twitter], [logger], [BtUser], [TwitterUser], [Action],
    [BlockBatch] and [Block] (lines 12-18) and no [AnnotatedBlock]: in the
    [then] handler of [recordAction], evaluating [AnnotatedBlock.findOrCreate]
    or [AnnotatedBlock.destroy] throws this error before any call is made. *)
Definition AnnotatedBlock_unbound : string :=
  "ReferenceError: AnnotatedBlock is not defined".

(** [recordAction]: the search, the creation when the search finds nothing,
    and the handler of the associated action.  For a [BLOCK] and for an
    [UNBLOCK] the handler throws on the unbound name, for any other type it
    rejects; either way the chain ends in the final [catch], after the
    action row has been found or created. *)
Definition recordAction (source_uid sink_uid : string) (type : Action.type_t)
    (now : Z) (db : DB) : DB * recorded :=
  let '(db1, associatedAction) :=
    match Action_find source_uid sink_uid type now db with
    | None => Action_create source_uid sink_uid type now db
    | Some prevAction => (db, prevAction)
    end in
  match Action.type associatedAction with
  | Action.BLOCK => (db1, Logged AnnotatedBlock_unbound)
  | Action.UNBLOCK => (db1, Logged AnnotatedBlock_unbound)
  | Action.OTHER_TYPE _ =>
      (db1, Logged "Non-block/unblock passed to recordAction")
  end.

(** ** recordUnblocksUnlessDeactivated *)

(** JavaScript arrays are objects: the callee works on the caller's array.
    Arrays therefore live in a store and are passed by reference. *)
Abbreviation arrays := (gmap nat (list string)).

(** [array.splice(0, n)] on the array at reference [r]: the first [n]
    elements are removed from the array in place and returned. *)
Definition splice0 (n : nat) (r : nat) (h : arrays) : list string * arrays :=
  (take n (h !!! r), <[r := drop n (h !!! r)]> h).

(** A [/users/lookup] request that has been sent: the account whose
    unblocks are checked, and the uids of its [user_id] parameter, which
    are the value of [uidsToQuery] when the request is made. *)
Record pendingLookup := mkLookup {
  lookup_source_uid : string;
  uidsToQuery : list string
}.

#[global] Instance pendingLookup_eq_dec : EqDecision pendingLookup.
Proof. solve_decision. Defined.

(** The [while (sink_uids.length > 0)] loop: every round splices up to 100
    uids off the array at [sink_uids] and sends one lookup for them. *)
Equations? recordUnblocksUnlessDeactivated (source_uid : string) (sink_uids : nat)
    (h : arrays) (sent : list pendingLookup) : arrays * list pendingLookup
    by wf (length (h !!! sink_uids)) lt :=
  recordUnblocksUnlessDeactivated source_uid sink_uids h sent
    with decide (0 < length (h !!! sink_uids)) := {
    | left _ =>
        recordUnblocksUnlessDeactivated source_uid sink_uids
          (snd (splice0 100 sink_uids h))
          (sent ++ [mkLookup source_uid (fst (splice0 100 sink_uids h))])
    | right _ => (h, sent) }.
Proof.
  unfold splice0; simpl. rewrite lookup_total_insert_eq, length_drop. lia.
Qed.

(** The callback of a request that has been sent, which has not run yet.
    [var uidsToQuery] belongs to the function, not to the round of the
    loop: the callbacks of one call share the variable, and when the first
    of them runs the loop has ended and has left the uids of its last round
    in it. *)
Record pendingCallback := mkCallback {
  sentLookup : pendingLookup;
  sharedUidsToQuery : list string
}.

#[global] Instance pendingCallback_eq_dec : EqDecision pendingCallback.
Proof. solve_decision. Defined.

(** The callbacks of the requests [sent] by one call of
    [recordUnblocksUnlessDeactivated]. *)
Definition callbacksOf (sent : list pendingLookup) : list pendingCallback :=
  (λ l, mkCallback l (from_option uidsToQuery [] (last sent))) <$> sent.

(** A record of the [/users/lookup] response. *)
Record TwitterUserObject := mkUserObject { id_str : string; screen_name : string }.

(** [_.indexBy(response, 'id_str')]: later records win. *)
Definition indexBy (response : list TwitterUserObject) : gmap string TwitterUserObject :=
  foldl (λ m u, <[id_str u := u]> m) ∅ response.

(** What [twitter.users('lookup', ...)] hands to its callback. *)
Inductive lookupResult :=
| LookupOk (response : list TwitterUserObject)
| LookupErr (statusCode : Z).

(** [array.forEach(body)] for a body that works on the database: the
    elements are visited in order, and what the bodies ended in is
    collected in that order. *)
Fixpoint forEach (body : string → DB → DB * list recorded) (array : list string) (db : DB)
    : DB * list recorded :=
  match array with
  | [] => (db, [])
  | x :: rest =>
      let r1 := body x db in
      let r2 := forEach body rest (fst r1) in
      (fst r2, snd r1 ++ snd r2)
  end.

(** The body of the [forEach] in the callback: a uid that is in the indexed
    response is recorded as an unblock, any other uid is skipped. *)
Definition recordIfPresent (source_uid : string)
    (indexedResponses : gmap string TwitterUserObject) (now : Z)
    (sink_uid : string) (db : DB) : DB * list recorded :=
  match indexedResponses !! sink_uid with
  | Some _ =>
      let r := recordAction source_uid sink_uid Action.UNBLOCK now db in
      (fst r, [snd r])
  | None => (db, [])
  end.

(** The callback of the lookup.  A 404 and any other error only log; on
    success every uid of [uidsToQuery], as the variable is when the
    callback runs, that is in the response is recorded as an unblock.  The
    result lists what each [recordAction] ended in. *)
Definition lookupCallback (c : pendingCallback) (r : lookupResult) (now : Z) (db : DB)
    : DB * list recorded :=
  match r with
  | LookupErr statusCode =>
      if decide (statusCode = 404%Z) then (db, []) else (db, [])
  | LookupOk response =>
      forEach (recordIfPresent (lookup_source_uid (sentLookup c)) (indexBy response) now)
              (sharedUidsToQuery c) db
  end.

(** ** diffBatchWithPrevious and destroyOldBlocks *)

(** [order: 'id DESC'] *)
Definition idDesc (a b : BlockBatch.row) : Prop := BlockBatch.id b ≤ BlockBatch.id a.

#[global] Instance idDesc_dec a b : Decision (idDesc a b).
Proof. unfold idDesc. apply _. Defined.

(** [batch.getBlocks()] *)
Definition getBlocks (batch : BlockBatch.row) (db : DB) : list Block.row :=
  filter (λ b, Block.BlockBatchId b = BlockBatch.id batch) (Blocks db).

(** [_.pluck(blocks, 'sink_uid')] of the blocks of a batch. *)
Definition snapshotIds (batch : BlockBatch.row) (db : DB) : list string :=
  pluck Block.sink_uid (getBlocks batch db).

(** The two id lists that [diffBatchWithPrevious] computes. *)
Definition addedBlockIds (currentBlockIds oldBlockIds : list string) : list string :=
  difference currentBlockIds oldBlockIds.

Definition removedBlockIds (currentBlockIds oldBlockIds : list string) : list string :=
  difference oldBlockIds currentBlockIds.

(** [addedBlockIds.forEach(...)]: every added uid is recorded as a block. *)
Definition recordBlocks (source_uid : string) (added : list string) (now : Z) (db : DB)
    : DB * list recorded :=
  forEach (λ sink_uid db,
             let r := recordAction source_uid sink_uid Action.BLOCK now db in
             (fst r, [snd r]))
          added db.

(** The query of [diffBatchWithPrevious]: the complete batches of the user
    up to the current one, newest first, at most two. *)
Definition latestComplete (currentBatch : BlockBatch.row) (db : DB) : list BlockBatch.row :=
  take 2 (merge_sort idDesc
    (filter (λ b, BlockBatch.source_uid b = BlockBatch.source_uid currentBatch ∧
                  BlockBatch.id b ≤ BlockBatch.id currentBatch ∧
                  BlockBatch.complete b = true) (BlockBatches db))).

(** The points of [diffBatchWithPrevious] at which a database call of
    another promise chain can take effect: before its [findAll], before
    [currentBatch.getBlocks()], before [oldBatch.getBlocks()], and after
    that last read. *)
Inductive diffPoint :=
| BeforeFindAll
| BeforeCurrentBlocks
| BeforeOldBlocks
| AfterOldBlocks.

#[global] Instance diffPoint_eq_dec : EqDecision diffPoint.
Proof. solve_decision. Defined.

(** [diffBatchWithPrevious] among the database calls of other chains:
    [others point] is what they do to the database at [point]. *)
Definition diffBatchWithPrevious_among (others : diffPoint → DB → DB)
    (currentBatch : BlockBatch.row) (now : Z) (db : DB) : DB * list pendingLookup :=
  let source_uid := BlockBatch.source_uid currentBatch in
  let db0 := others BeforeFindAll db in
  match latestComplete currentBatch db0 with
  | [currentBatch; oldBatch] =>
      let db1 := others BeforeCurrentBlocks db0 in
      let currentBlockIds := snapshotIds currentBatch db1 in
      let db2 := others BeforeOldBlocks db1 in
      let oldBlockIds := snapshotIds oldBatch db2 in
      let db3 := others AfterOldBlocks db2 in
      let db4 := fst (recordBlocks source_uid (addedBlockIds currentBlockIds oldBlockIds) now db3) in
      let removed := removedBlockIds currentBlockIds oldBlockIds in
      (db4, snd (recordUnblocksUnlessDeactivated source_uid 0 {[0 := removed]} []))
  | _ =>
      (others AfterOldBlocks (others BeforeOldBlocks (others BeforeCurrentBlocks db0)), [])
  end.

(** [diffBatchWithPrevious] on its own, no other chain at work. *)
Definition diffBatchWithPrevious (currentBatch : BlockBatch.row) (now : Z) (db : DB)
    : DB * list pendingLookup :=
  diffBatchWithPrevious_among (λ _ db, db) currentBatch now db.

(** Modelled from the spec: [BlockBatch.destroy] removes the snapshots with
    the given ids together with their entries. *)
Definition BlockBatch_destroy (ids : list nat) (db : DB) : DB :=
  set_Blocks (filter (λ b, Block.BlockBatchId b ∉ ids))
    (set_BlockBatches (filter (λ b, BlockBatch.id b ∉ ids)) db).

(** The query of [destroyOldBlocks]: all batches of the user (no condition
    on [complete]), newest first, skipping the first four. *)
Definition oldBlockBatches (userId : string) (db : DB) : list BlockBatch.row :=
  drop 4 (merge_sort idDesc
    (filter (λ b, BlockBatch.source_uid b = userId) (BlockBatches db))).

Definition destroyOldBlocks (userId : string) (db : DB) : DB :=
  match oldBlockBatches userId db with
  | [] => db
  | blockBatches => BlockBatch_destroy (pluck BlockBatch.id blockBatches) db
  end.

(** ** The Snapshot Store operations used by the fetch *)

(** [BlockBatch.create({source_uid: ..., size: 0})] *)
Definition BlockBatch_create (source_uid : string) (db : DB) : DB * BlockBatch.row :=
  let b := BlockBatch.mk (nextBlockBatchId db) source_uid 0 None false in
  (mkDB (BlockBatches db ++ [b]) (Blocks db) (TwitterUsers db) (Actions db)
        (AnnotatedBlocks db) (S (nextBlockBatchId db)) (nextActionId db), b).

(** [blockBatch.save()]: the row with the id of the instance takes the
    values of the instance. *)
Definition BlockBatch_save (b : BlockBatch.row) (db : DB) : DB :=
  set_BlockBatches
    (fmap (λ r, if decide (BlockBatch.id r = BlockBatch.id b) then b else r)) db.

(** [results[0]] of a [/blocks/ids] answer. *)
Record IdsResult := mkIds { ids : list string; next_cursor_str : string }.

(** [handleIds]: store the cursor and the grown size with the batch, add the
    uids to [TwitterUser] (duplicates ignored), create the blocks, and
    resolve to the next cursor. *)
Definition handleIds (blockBatch : BlockBatch.row) (currentCursor : string)
    (results : IdsResult) (db : DB) : DB * BlockBatch.row * string :=
  let blockBatch' :=
    BlockBatch.mk (BlockBatch.id blockBatch) (BlockBatch.source_uid blockBatch)
      (BlockBatch.size blockBatch + length (ids results)) (Some currentCursor)
      (BlockBatch.complete blockBatch) in
  let db1 := BlockBatch_save blockBatch' db in
  let db2 := set_TwitterUsers (λ us, us ∪ list_to_set (ids results)) db1 in
  let blocksToCreate := (λ id, Block.mk id (BlockBatch.id blockBatch')) <$> ids results in
  let db3 := set_Blocks (λ bs, bs ++ blocksToCreate) db2 in
  (db3, blockBatch', next_cursor_str results).

(** ** The event loop *)

Record BtUser := mkUser {
  uid : string;
  access_token : string;
  access_token_secret : string
}.

(** What [twitter.blocks('ids', ...)] answers. *)
Inductive idsResponse :=
| IdsOk (results : IdsResult)
| IdsErr (statusCode : Z).

(** The promise returned by [updateBlocks]: waiting for the answer to the
    request for [currentCursor], waiting for the [Q.delay] to elapse, or
    resolved (to the sealed batch, or to [null]). *)
Inductive promise :=
| AwaitBlocksIds (user : BtUser) (blockBatch : option BlockBatch.row) (currentCursor : string)
| AwaitDelay (user : BtUser) (blockBatch : BlockBatch.row) (currentCursor : string) (wake : Z)
| Resolved (value : option BlockBatch.row).

(** The state of the process: the database, the module-level
    [activeFetches] object (uid to promise), the promises, the lookups
    whose callback has not run yet, the clock in milliseconds, the log of
    the [/blocks/ids] requests sent so far (promise and cursor), and the
    point of the diff at which the database lets the destroy of a pruning
    take effect. *)
Record state := mkState {
  db : DB;
  activeFetches : gmap string nat;
  promises : gmap nat promise;
  nextPromise : nat;
  lookups : list pendingCallback;
  now : Z;
  requests : list (nat * string);
  destroyAt : diffPoint
}.

Definition set_db (d : DB) (s : state) : state :=
  mkState d (activeFetches s) (promises s) (nextPromise s) (lookups s) (now s) (requests s)
          (destroyAt s).

Definition set_promise (p : nat) (v : promise) (s : state) : state :=
  mkState (db s) (activeFetches s) (<[p := v]> (promises s)) (nextPromise s)
          (lookups s) (now s) (requests s) (destroyAt s).

(** The process starts with a database that answers the calls in the
    order in which they are made: the [findAll] of the diff, the [findAll]
    of the pruning, [currentBatch.getBlocks()], the destroy,
    [oldBatch.getBlocks()]. *)
Definition initial (d : DB) (t : Z) : state := mkState d ∅ ∅ 0 [] t [] BeforeOldBlocks.

(** [cursor || '-1'] *)
Definition cursorOrStart (cursor : option string) : string :=
  match cursor with
  | Some c => if decide (c = "") then "-1" else c
  | None => "-1"
  end.

(** [fetchAndStoreBlocks(user, blockBatch, cursor)] up to the point where
    it has sent its request; [p] is the promise the whole fetch settles. *)
Definition fetchAndStoreBlocks (p : nat) (user : BtUser)
    (blockBatch : option BlockBatch.row) (cursor : option string) (s : state) : state :=
  let currentCursor := cursorOrStart cursor in
  mkState (db s) (activeFetches s)
          (<[p := AwaitBlocksIds user blockBatch currentCursor]> (promises s))
          (nextPromise s) (lookups s) (now s) (requests s ++ [(p, currentCursor)])
          (destroyAt s).

(** [updateBlocks(user)]: the promise it returns and the state it leaves. *)
Definition updateBlocks (user : BtUser) (s : state) : nat * state :=
  let p := nextPromise s in
  let s0 := mkState (db s) (activeFetches s) (promises s) (S p) (lookups s) (now s)
                    (requests s) (destroyAt s) in
  match activeFetches s !! uid user with
  | Some _ => (p, set_promise p (Resolved None) s0)
  | None =>
      let s1 := fetchAndStoreBlocks p user None None s0 in
      (p, mkState (db s1) (<[uid user := p]> (activeFetches s1)) (promises s1)
                  (nextPromise s1) (lookups s1) (now s1) (requests s1) (destroyAt s1))
  end.

(** [destroyOldBlocks] started next to a diff: its destroy takes effect at
    the point [destroyPoint] of the diff.  (Its [findAll] reads the batch
    table, which the diff does not write.) *)
Definition destroyOldBlocks_at (destroyPoint : diffPoint) (userId : string)
    (point : diffPoint) (db : DB) : DB :=
  if decide (point = destroyPoint) then destroyOldBlocks userId db else db.

(** [finalizeBlockBatch]: seal, start the diff and the pruning, delete the
    entry of [activeFetches], resolve to the batch.  The diff and the
    pruning are started one after the other and neither is waited for: the
    destroy of the pruning takes effect at the point [destroyAt] of the
    diff. *)
Definition finalizeBlockBatch (p : nat) (blockBatch : BlockBatch.row) (s : state) : state :=
  let blockBatch' :=
    BlockBatch.mk (BlockBatch.id blockBatch) (BlockBatch.source_uid blockBatch)
      (BlockBatch.size blockBatch) (BlockBatch.currentCursor blockBatch) true in
  let db1 := BlockBatch_save blockBatch' (db s) in
  let '(db2, sent) :=
    diffBatchWithPrevious_among
      (destroyOldBlocks_at (destroyAt s) (BlockBatch.source_uid blockBatch'))
      blockBatch' (now s) db1 in
  mkState db2 (delete (BlockBatch.source_uid blockBatch') (activeFetches s))
          (<[p := Resolved (Some blockBatch')]> (promises s))
          (nextPromise s) (lookups s ++ callbacksOf sent) (now s) (requests s)
          (destroyAt s).

(** The [then] and [catch] handlers of [fetchAndStoreBlocks], run when the
    answer [r] to the pending request of promise [p] arrives. *)
Definition onBlocksIds (p : nat) (r : idsResponse) (s : state) : state :=
  match promises s !! p with
  | Some (AwaitBlocksIds user blockBatch currentCursor) =>
      match r with
      | IdsOk results =>
          let '(db1, blockBatch1) :=
            match blockBatch with
            | None => BlockBatch_create (uid user) (db s)
            | Some b => (db s, b)
            end in
          let '(db2, blockBatch2, nextCursor) :=
            handleIds blockBatch1 currentCursor results db1 in
          if decide (nextCursor = "0")
          then finalizeBlockBatch p blockBatch2 (set_db db2 s)
          else fetchAndStoreBlocks p user (Some blockBatch2) (Some nextCursor) (set_db db2 s)
      | IdsErr statusCode =>
          if decide (statusCode = 429%Z) then
            match blockBatch with
            | None => set_promise p (Resolved None) s
            | Some b =>
                set_promise p (AwaitDelay user b currentCursor (now s + 15 * 60 * 1000)%Z) s
            end
          else set_promise p (Resolved None) s
      end
  | _ => s
  end.

(** The continuation of [Q.delay(15 * 60 * 1000)]: it runs once the clock
    has reached the wake-up time, and fetches the same cursor again. *)
Definition onDelayElapsed (p : nat) (s : state) : state :=
  match promises s !! p with
  | Some (AwaitDelay user blockBatch currentCursor wake) =>
      if decide (wake ≤ now s)%Z
      then fetchAndStoreBlocks p user (Some blockBatch) (Some currentCursor) s
      else s
  | _ => s
  end.

(** The [k]-th pending callback runs with answer [r]. *)
Definition onUsersLookup (k : nat) (r : lookupResult) (s : state) : state :=
  match lookups s !! k with
  | Some c =>
      mkState (fst (lookupCallback c r (now s) (db s))) (activeFetches s) (promises s)
              (nextPromise s) (delete k (lookups s)) (now s) (requests s) (destroyAt s)
  | None => s
  end.

(** What happens in the process: a call of [updateBlocks], an answer to a
    [/blocks/ids] request, the continuation of a delay, an answer to a
    [/users/lookup] request, time passing, and the database changing the
    point at which it lets the destroy of the prunings to come take
    effect. *)
Inductive event :=
| UpdateBlocks (user : BtUser)
| BlocksIds (p : nat) (r : idsResponse)
| DelayElapsed (p : nat)
| UsersLookup (k : nat) (r : lookupResult)
| Tick (ms : Z)
| DestroyAt (point : diffPoint).

Definition step (s : state) (e : event) : state :=
  match e with
  | UpdateBlocks user => snd (updateBlocks user s)
  | BlocksIds p r => onBlocksIds p r s
  | DelayElapsed p => onDelayElapsed p s
  | UsersLookup k r => onUsersLookup k r s
  | Tick ms =>
      mkState (db s) (activeFetches s) (promises s) (nextPromise s) (lookups s)
              (now s + Z.max 0 ms)%Z (requests s) (destroyAt s)
  | DestroyAt point =>
      mkState (db s) (activeFetches s) (promises s) (nextPromise s) (lookups s)
              (now s) (requests s) point
  end.

Definition run (s : state) (es : list event) : state := foldl step s es.

(** ** Derived notions used in the statements *)

(** How often [x] occurs in a list of uids. *)
Definition occurrences (x : string) (l : list string) : nat :=
  length (filter (λ y, y = x) l).

(** What the final [catch] of [recordAction] logs for a call of type [t]. *)
Definition loggedFor (t : Action.type_t) : string :=
  match t with
  | Action.BLOCK | Action.UNBLOCK => AnnotatedBlock_unbound
  | Action.OTHER_TYPE _ => "Non-block/unblock passed to recordAction"
  end.

(** The rows of an action table that record the transition [t] of the
    sink [x]. *)
Definition actionsFor (x : string) (t : Action.type_t) (table : list Action.row)
    : list Action.row :=
  filter (λ a, Action.sink_uid a = x ∧ Action.type a = t) table.

(** The uids of a batch that the indexed response holds. *)
Definition present (m : gmap string TwitterUserObject) (l : list string) : list string :=
  filter (λ x, is_Some (m !! x)) l.

(** ** Notions about the event loop used in the statements *)

(** The states the process can be in: started on some database at some
    time, then any events. *)
Definition reachable (s : state) : Prop := ∃ d t es, s = run (initial d t) es.

(** The user and the batch of a promise that has not settled. *)
Definition inFlight (v : promise) : option (BtUser * option BlockBatch.row) :=
  match v with
  | AwaitBlocksIds user blockBatch _ => Some (user, blockBatch)
  | AwaitDelay user blockBatch _ _ => Some (user, Some blockBatch)
  | Resolved _ => None
  end.

(** Every fetch in flight is the one registered for its user, and works on
    a batch of that user. *)
Definition registered (s : state) : Prop :=
  ∀ p v user blockBatch,
    promises s !! p = Some v → inFlight v = Some (user, blockBatch) →
    activeFetches s !! uid user = Some p ∧
    ∀ b, blockBatch = Some b → BlockBatch.source_uid b = uid user.

(** Promise numbers in use lie below the next one to be handed out. *)
Definition numbered (s : state) : Prop :=
  (∀ p, is_Some (promises s !! p) → p < nextPromise s) ∧
  (∀ u p, activeFetches s !! u = Some p → p < nextPromise s).

(** No promise waits on an empty cursor. *)
Definition cursorsSet (s : state) : Prop :=
  ∀ p v, promises s !! p = Some v →
    match v with
    | AwaitBlocksIds _ _ c => c ≠ ""
    | AwaitDelay _ _ c _ => c ≠ ""
    | Resolved _ => True
    end.

(** Promise [p] has stored a page (it carries a batch and waits for the
    next page), or it is not waiting for an answer at all. *)
Definition carriesBatch (p : nat) (s : state) : Prop :=
  match promises s !! p with
  | Some (AwaitBlocksIds _ blockBatch c) => is_Some blockBatch ∧ c ≠ ""
  | Some (AwaitDelay _ _ _ _) => False
  | _ => True
  end.

(** The cursor of the request promise [p] is waiting for, if any. *)
Definition pendingCursor (p : nat) (s : state) : option string :=
  match promises s !! p with
  | Some (AwaitBlocksIds _ _ currentCursor) => Some currentCursor
  | _ => None
  end.

(** One exchange with a remote list that serves the page [server c] for the
    cursor [c].  When [limited], the pending request of [p] is answered with
    429, a quarter of an hour passes and the delay elapses; otherwise the
    page for the requested cursor is served. *)
Definition exchange (server : string → IdsResult) (p : nat) (limited : bool)
    (s : state) : state :=
  match pendingCursor p s with
  | Some c =>
      if limited
      then run s [BlocksIds p (IdsErr 429); Tick (15 * 60 * 1000); DelayElapsed p]
      else step s (BlocksIds p (IdsOk (server c)))
  | None => s
  end.

(** A run of exchanges; [schedule] says which of them are rate limited. *)
Definition serve (server : string → IdsResult) (p : nat) (schedule : list bool)
    (s : state) : state :=
  foldl (λ s limited, exchange server p limited s) s schedule.

(** The part of the database the fetch writes: snapshots, entries and the
    identifier directory. *)
Definition snapshotStore (d : DB)
    : list BlockBatch.row * list Block.row * gset string * nat :=
  (BlockBatches d, Blocks d, TwitterUsers d, nextBlockBatchId d).

(** Two states with the same snapshots, entries and directory, the same
    promises and registrations and the same pending lookups. *)
Definition sameSnapshots (s1 s2 : state) : Prop :=
  snapshotStore (db s1) = snapshotStore (db s2) ∧
  activeFetches s1 = activeFetches s2 ∧ promises s1 = promises s2 ∧
  nextPromise s1 = nextPromise s2 ∧ lookups s1 = lookups s2.

(** ** Notions about the snapshot table used in the statements *)

(** The snapshots of a user, in table order. *)
Definition userBatches (u : string) (d : DB) : list BlockBatch.row :=
  filter (λ b, BlockBatch.source_uid b = u) (BlockBatches d).

(** How many snapshots of the user are newer (have a greater id) than [b]. *)
Definition newerBatches (u : string) (b : BlockBatch.row) (d : DB) : nat :=
  length (filter (λ b', BlockBatch.id b < BlockBatch.id b') (userBatches u d)).

(** Ascending ids. *)
Definition idAsc (a b : BlockBatch.row) : Prop := BlockBatch.id a < BlockBatch.id b.

(** The table invariants: rows are stored by ascending id, ids are below the
    counter, and every entry belongs to a snapshot of the table. *)
Definition wfDB (d : DB) : Prop :=
  StronglySorted idAsc (BlockBatches d) ∧
  Forall (λ b, BlockBatch.id b < nextBlockBatchId d) (BlockBatches d) ∧
  Forall (λ e, Block.BlockBatchId e ∈ BlockBatch.id <$> BlockBatches d) (Blocks d).

(** The last [n] elements of a list. *)
Definition lastN {A} (n : nat) (l : list A) : list A := drop (length l - n) l.

(** The database [d] of a fetch for user [u] that started on the database
    [d0] and has created its batch: the table is [d0]'s with the batch [b]
    of the fetch, not yet complete, as its newest row. *)
Definition carrying (d0 : DB) (u : string) (b : BlockBatch.row) (d : DB) : Prop :=
  wfDB d ∧ BlockBatches d = BlockBatches d0 ++ [b] ∧
  nextBlockBatchId d = S (nextBlockBatchId d0) ∧
  BlockBatch.id b = nextBlockBatchId d0 ∧ BlockBatch.source_uid b = u ∧
  BlockBatch.complete b = false.

(** The state of a fetch of [user], promise [p], that started on [d0]: it
    is registered and waits for a page, before or after creating its batch. *)
Definition fetching (d0 : DB) (user : BtUser) (p : nat) (s : state) : Prop :=
  activeFetches s !! uid user = Some p ∧
  ∃ blockBatch c,
    promises s !! p = Some (AwaitBlocksIds user blockBatch c) ∧
    match blockBatch with
    | None => db s = d0
    | Some b => carrying d0 (uid user) b (db s)
    end.

(** The pages of a fetch that seals: only the last carries the cursor "0". *)
Definition sealing (pages : list IdsResult) : Prop :=
  ∃ init last, pages = init ++ [last] ∧ next_cursor_str last = "0" ∧
               Forall (λ r, next_cursor_str r ≠ "0") init.

(** One whole sync of [user]: the call, then the pages answered in order. *)
Definition sync (user : BtUser) (s : state) (pages : list IdsResult) : state :=
  run s (UpdateBlocks user :: ((λ r, BlocksIds (nextPromise s) (IdsOk r)) <$> pages)).

(** ** Concrete data for the examples *)

(** A database whose only row is a block of "4" by "7" that the
    subscription feature performed (so not [EXTERNAL]) at time 5000. *)
Definition subscriptionBlockDB : DB :=
  mkDB [] [] ∅
       [Action.mk 1 "7" "4" Action.BLOCK (Action.OTHER_CAUSE "subscription")
                  (Some "9") Action.DONE 5000]
       ∅ 1 2.

(** The user with uid "7" of the examples. *)
Definition user7 : BtUser := mkUser "7" "token" "secret".

(** Two sealed syncs of [user7] on an empty database: the first snapshot
    holds "4" twice (the list served the same id on both of its pages) and
    "5", the second holds "5" only. *)
Definition duplicateThenGone : state :=
  run (initial emptyDB 0)
      [UpdateBlocks user7; BlocksIds 0 (IdsOk (mkIds ["4"; "5"] "1500"));
       BlocksIds 0 (IdsOk (mkIds ["4"] "0"));
       UpdateBlocks user7; BlocksIds 1 (IdsOk (mkIds ["5"] "0"))].

(** Two sealed syncs of [user7] on an empty database, then a third fetch
    that stores one page and is aborted by a request failure: snapshots 1
    and 2 are complete, snapshot 3 is never sealed. *)
Definition thirdFetchAborted : state :=
  run (initial emptyDB 0)
      [UpdateBlocks user7; BlocksIds 0 (IdsOk (mkIds ["11"] "0"));
       UpdateBlocks user7; BlocksIds 1 (IdsOk (mkIds ["11"] "0"));
       UpdateBlocks user7; BlocksIds 2 (IdsOk (mkIds ["11"] "1500"));
       BlocksIds 2 (IdsErr 500)].

(** The process is started again a day later on the database it left, and
    [user7] is synced twice (snapshots 4 and 5, both sealed). *)
Definition restartedTwoSyncs : state :=
  run (initial (db thirdFetchAborted) 86400000)
      [UpdateBlocks user7; BlocksIds 0 (IdsOk (mkIds ["11"] "0"));
       UpdateBlocks user7; BlocksIds 1 (IdsOk (mkIds ["11"] "0"))].

(** A remote list of three ids on two pages: the page at the start cursor
    holds "1" and "2" and points to cursor "100", whose page holds "3" and
    ends the list. *)
Definition twoPageServer (cursor : string) : IdsResult :=
  if decide (cursor = "-1") then mkIds ["1"; "2"] "100" else mkIds ["3"] "0".

(** [user7] has called [updateBlocks] and the first page has been stored. *)
Definition firstPageStored : state :=
  run (initial emptyDB 0)
      [UpdateBlocks user7; BlocksIds 0 (IdsOk (twoPageServer "-1"))].

(** Six syncs of one page each. *)
Definition sixSyncs : list (list IdsResult) :=
  [[mkIds ["11"] "0"]; [mkIds ["11"; "12"] "0"]; [mkIds ["12"] "0"];
   [mkIds ["12"; "13"] "0"]; [mkIds ["13"] "0"]; [mkIds ["13"; "14"] "0"]].

(** Two sealed syncs of [user7] on an empty database: the first snapshot
    holds "1", "2", "3"; in the second the list serves the new id "4" on
    both of its pages. *)
Definition newIdOnTwoPages : state :=
  run (initial emptyDB 0)
      [UpdateBlocks user7; BlocksIds 0 (IdsOk (mkIds ["1"; "2"; "3"] "0"));
       UpdateBlocks user7; BlocksIds 1 (IdsOk (mkIds ["2"; "3"; "4"] "1500"));
       BlocksIds 1 (IdsOk (mkIds ["4"] "0"))].

(** ** findAndUpdateBlocks *)

Definition ONE_DAY_IN_MILLIS : Z := 86400 * 1000.

(** The rows of the [BtUser] table of [./setup], which is not part of the
    source file: the user that [updateBlocks] is given, with the two columns
    the query of [findAndUpdateBlocks] names.  [None] is SQL's [NULL]. *)
Module BtUsers.
Record row := mk {
  user : BtUser;
  updatedAt : option Z;
  deactivatedAt : option Z
}.
End BtUsers.

#[global] Instance btuser_eq_dec : EqDecision BtUser.
Proof. solve_decision. Defined.
#[global] Instance btusers_row_eq_dec : EqDecision BtUsers.row.
Proof. solve_decision. Defined.

(** The [createdAt] and [updatedAt] columns that Sequelize keeps for the
    [BlockBatch] rows, by the id of the row.  [findAndUpdateBlocks] is the
    only function of the file that reads them. *)
Module BatchTimes.
Record t := mk { createdAt : nat → Z; updatedAt : nat → Z }.
End BatchTimes.

(** The [where] clause of the [BtUser.find]:
    [(updatedAt < DATE_SUB(NOW(), INTERVAL 1 DAY) OR updatedAt IS NULL)
     AND deactivatedAt IS NULL]. *)
Definition needsUpdate (now : Z) (r : BtUsers.row) : Prop :=
  match BtUsers.updatedAt r with
  | Some t => (t < now - 86400 * 1000)%Z
  | None => True
  end ∧ BtUsers.deactivatedAt r = None.

#[global] Instance needsUpdate_dec now r : Decision (needsUpdate now r).
Proof. unfold needsUpdate. destruct (BtUsers.updatedAt r); apply _. Defined.

(** [order: 'BtUsers.updatedAt ASC']; the database sorts [NULL] first. *)
Definition updatedAtAsc (a b : BtUsers.row) : Prop :=
  match BtUsers.updatedAt a, BtUsers.updatedAt b with
  | None, _ => True
  | Some _, None => False
  | Some x, Some y => (x ≤ y)%Z
  end.

#[global] Instance updatedAtAsc_dec a b : Decision (updatedAtAsc a b).
Proof.
  unfold updatedAtAsc.
  destruct (BtUsers.updatedAt a), (BtUsers.updatedAt b); apply _.
Defined.

(** [BtUser.find({where: ..., order: ...})]: the first row of the ordered
    answer, [None] for JavaScript's [null]. *)
Definition BtUser_find (now : Z) (table : list BtUsers.row) : option BtUsers.row :=
  head (merge_sort updatedAtAsc (filter (needsUpdate now) table)).

(** [order: 'updatedAt desc'] on the batches. *)
Definition batchUpdatedDesc (times : BatchTimes.t) (a b : BlockBatch.row) : Prop :=
  (BatchTimes.updatedAt times (BlockBatch.id b)
   ≤ BatchTimes.updatedAt times (BlockBatch.id a))%Z.

#[global] Instance batchUpdatedDesc_dec times a b : Decision (batchUpdatedDesc times a b).
Proof. unfold batchUpdatedDesc. apply _. Defined.

(** [user.getBlockBatches({limit: 1, order: 'updatedAt desc'})]: of the
    batches whose [source_uid] is the user's uid, the one updated last. *)
Definition getBlockBatches (times : BatchTimes.t) (user : BtUser) (d : DB)
    : list BlockBatch.row :=
  take 1 (merge_sort (batchUpdatedDesc times)
            (filter (λ b, BlockBatch.source_uid b = uid user) (BlockBatches d))).

(** [user.save()]: the row of the user (the uid is the key of the table)
    takes the values of the instance. *)
Definition BtUser_save (r : BtUsers.row) (table : list BtUsers.row) : list BtUsers.row :=
  (λ r', if decide (uid (BtUsers.user r') = uid (BtUsers.user r)) then r else r') <$> table.

(** The worker process: the [BtUser] table and the state of the event loop. *)
Record worker := mkWorker {
  BtUsersTable : list BtUsers.row;
  process : state
}.

(** What the promise chain of [findAndUpdateBlocks] ends in: the rejection
    that the final [catch] hands to [logger.error], [Q.resolve(null)], or
    the promise returned by [updateBlocks]. *)
Inductive found :=
| Rejected (err : string)
| ResolvedNull
| Updating (p : nat).

(** [findAndUpdateBlocks]: select a user, mark the row as updated now, and
    call [updateBlocks] unless the batch of the user that was updated last
    was created within the last day.  Like the transitions of the event
    loop, a call is one transition: its three database calls are run to
    completion in program order before the next event is handled. *)
Definition findAndUpdateBlocks (times : BatchTimes.t) (w : worker) : worker * found :=
  let s := process w in
  match BtUser_find (now s) (BtUsersTable w) with
  | None => (w, Rejected "No users need blocks updated at this time.")
  | Some user =>
      let batches := getBlockBatches times (BtUsers.user user) (db s) in
      let user' := BtUsers.mk (BtUsers.user user) (Some (now s)) (BtUsers.deactivatedAt user) in
      let table' := BtUser_save user' (BtUsersTable w) in
      match batches with
      | batch :: _ =>
          if decide (now s - BatchTimes.createdAt times (BlockBatch.id batch)
                     > ONE_DAY_IN_MILLIS)%Z
          then (mkWorker table' (updateBlocks (BtUsers.user user) s).2,
                Updating (updateBlocks (BtUsers.user user) s).1)
          else (mkWorker table' s, ResolvedNull)
      | [] =>
          (mkWorker table' (updateBlocks (BtUsers.user user) s).2,
           Updating (updateBlocks (BtUsers.user user) s).1)
      end
  end.

(** What happens in the worker: a firing of the [setInterval] timer, which
    calls [findAndUpdateBlocks], or an event of the event loop.  The
    timestamps of the batches are those the database holds at that moment. *)
Inductive workerEvent :=
| FindAndUpdateBlocks (times : BatchTimes.t)
| Process (e : event).

Definition workerStep (w : worker) (e : workerEvent) : worker :=
  match e with
  | FindAndUpdateBlocks times => (findAndUpdateBlocks times w).1
  | Process e => mkWorker (BtUsersTable w) (step (process w) e)
  end.

Definition workerRun (w : worker) (es : list workerEvent) : worker := foldl workerStep w es.

(** ** Further notions about the tables *)

(** The [size] column of every snapshot is the number of its entries. *)
Definition sizesAgree (d : DB) : Prop :=
  Forall (λ b, BlockBatch.size b = length (getBlocks b d)) (BlockBatches d).

(** The uid of every entry is in the identifier directory. *)
Definition entriesKnown (d : DB) : Prop :=
  Forall (λ e, Block.sink_uid e ∈ TwitterUsers d) (Blocks d).

(** The batch that a fetch in flight carries is a row of the table. *)
Definition batchesStored (s : state) : Prop :=
  ∀ p v user b, promises s !! p = Some v → inFlight v = Some (user, Some b) →
                b ∈ BlockBatches (db s).

(** What this file writes to the action log: done, [EXTERNAL] blocks and
    unblocks without a causing user. *)
Definition externalRecord (a : Action.row) : Prop :=
  Action.cause a = Action.EXTERNAL ∧ Action.cause_uid a = None ∧
  Action.status a = Action.DONE ∧
  (Action.type a = Action.BLOCK ∨ Action.type a = Action.UNBLOCK).

(** The requests of promise [p] in a request log. *)
Definition requestsOf (p : nat) (log : list (nat * string)) : list (nat * string) :=
  filter (λ r, r.1 = p) log.

(** The entries that storing the uids [l] in the batch with id [i] creates. *)
Definition entriesOf (i : nat) (l : list string) : list Block.row :=
  (λ id, Block.mk id i) <$> l.

(** The action log of [d'] is the log of [d] with new rows at its end:
    external records whose ids are the next ids of the table, in order. *)
Definition logExtended (d d' : DB) : Prop :=
  ∃ new, Actions d' = Actions d ++ new ∧ Forall externalRecord new ∧
         Action.id <$> new = seq (nextActionId d) (length new) ∧
         nextActionId d' = nextActionId d + length new.

(** The instance of a batch after [blockBatch.complete = true]. *)
Definition sealed (b : BlockBatch.row) : BlockBatch.row :=
  BlockBatch.mk (BlockBatch.id b) (BlockBatch.source_uid b) (BlockBatch.size b)
                (BlockBatch.currentCursor b) true.

(** What sealing the batch [b] starts in the state [s], on the database
    [d] that holds the stored pages: the diff, among the pruning. *)
Definition startedBySealing (s : state) (b : BlockBatch.row) (d : DB)
    : DB * list pendingLookup :=
  diffBatchWithPrevious_among
    (destroyOldBlocks_at (destroyAt s) (BlockBatch.source_uid b))
    (sealed b) (now s) (BlockBatch_save (sealed b) d).

(** What the diff of a sync of the user [u] reads as the entries of [old],
    the newest complete snapshot of [u] in the database [d] the sync
    started on, when the destroy of the pruning takes effect at [point]:
    the entries of [old], unless the pruning deletes [old] (the snapshot
    has three or more newer snapshots of [u], none of them sealed) and the
    destroy takes effect before the diff has read them.  [None] when the
    destroy takes effect before the [findAll] of the diff, which then does
    not find [old]. *)
Definition oldBlockIdsRead (point : diffPoint) (u : string) (old : BlockBatch.row)
    (d : DB) : option (list string) :=
  if decide (newerBatches u old d < 3) then Some (snapshotIds old d)
  else match point with
       | AfterOldBlocks => Some (snapshotIds old d)
       | BeforeOldBlocks | BeforeCurrentBlocks => Some []
       | BeforeFindAll => None
       end.

(** The batch a page is stored in, with the database it is stored in: the
    batch the fetch carries, or the one created on the first page. *)
Definition batchOfPage (user : BtUser) (blockBatch : option BlockBatch.row) (d : DB)
    : DB * BlockBatch.row :=
  match blockBatch with
  | None => BlockBatch_create (uid user) d
  | Some b => (d, b)
  end.

(** The snapshot table satisfies its invariants and holds the batch of
    every fetch in flight. *)
Definition tablesSound (s : state) : Prop := wfDB (db s) ∧ batchesStored s.

(** From [d] to [d'] the identifier directory has lost no uid, and it
    still holds the uid of every entry if it did. *)
Definition directoryKept (d d' : DB) : Prop :=
  TwitterUsers d ⊆ TwitterUsers d' ∧ (entriesKnown d → entriesKnown d').

(** The part of the database outside the snapshot store: the action log
    with its counter, and the annotated blocks. *)
Definition journal (d : DB)
    : list Action.row * gmap (string * string) AnnotatedBlock.row * nat :=
  (Actions d, AnnotatedBlocks d, nextActionId d).

(** The requests a fetch with promise [p] has sent when the pages [acc]
    have been answered: the start cursor, then the next cursor of every
    page. *)
Definition cursorsAsked (p : nat) (acc : list IdsResult) : list (nat * string) :=
  (p, "-1") :: ((λ r, (p, cursorOrStart (Some (next_cursor_str r)))) <$> acc).

(** The state of the fetch that [updateBlocks user] started in the state
    [s0], after the pages [acc] (none of them the last) have been stored:
    the fetch waits for the page at the cursor it asked for last, the
    entries of the pages are the newest entries of the table, and the batch
    it carries counts them. *)
Definition storing (s0 : state) (user : BtUser) (acc : list IdsResult) (s : state) : Prop :=
  let p := nextPromise s0 in
  activeFetches s !! uid user = Some p ∧
  requests s = requests s0 ++ cursorsAsked p acc ∧
  lookups s = lookups s0 ∧ now s = now s0 ∧
  journal (db s) = journal (db s0) ∧
  TwitterUsers (db s) = TwitterUsers (db s0) ∪ list_to_set (concat (ids <$> acc)) ∧
  ∃ blockBatch c,
    promises s !! p = Some (AwaitBlocksIds user blockBatch c) ∧
    last (requests s) = Some (p, c) ∧
    match blockBatch with
    | None => acc = [] ∧ db s = db s0
    | Some b =>
        carrying (db s0) (uid user) b (db s) ∧
        Blocks (db s) = Blocks (db s0) ++ entriesOf (BlockBatch.id b) (concat (ids <$> acc)) ∧
        BlockBatch.size b = length (concat (ids <$> acc))
    end.

(** The batch of every fetch in flight is not complete. *)
Definition carriedIncomplete (s : state) : Prop :=
  ∀ p v user b, promises s !! p = Some v → inFlight v = Some (user, Some b) →
                BlockBatch.complete b = false.

(** The row [b0] is out of reach: its id has been handed out, no fetch in
    flight carries a batch with that id, and a row of the table with that
    id is [b0] itself. *)
Definition frozen (b0 : BlockBatch.row) (s : state) : Prop :=
  BlockBatch.id b0 < nextBlockBatchId (db s) ∧
  (∀ p v user b, promises s !! p = Some v → inFlight v = Some (user, Some b) →
                 BlockBatch.id b ≠ BlockBatch.id b0) ∧
  (∀ r, r ∈ BlockBatches (db s) → BlockBatch.id r = BlockBatch.id b0 → r = b0).

(** ** Concrete data for the further examples *)

(** One sealed sync of [user7] on an empty database: the snapshot 1 holds
    "1", "2" and "3". *)
Definition oneSealedSync : state :=
  run (initial emptyDB 0)
      [UpdateBlocks user7; BlocksIds 0 (IdsOk (mkIds ["1"; "2"; "3"] "0"))].

(** The user with uid "8" of the examples. *)
Definition user8 : BtUser := mkUser "8" "token8" "secret8".

(** A worker at time 100000000 (a little more than a day after time 0)
    with three users and no snapshot: "7" was updated at time 0, "8" was
    never updated, and "9" was never updated and is deactivated. *)
Definition threeUsers : worker :=
  mkWorker [BtUsers.mk user7 (Some 0%Z) None; BtUsers.mk user8 None None;
            BtUsers.mk (mkUser "9" "token9" "secret9") None (Some 5%Z)]
           (initial emptyDB 100000000).

(** Batch timestamps for the examples: every batch was created and updated
    at time 0. *)
Definition atTimeZero : BatchTimes.t := BatchTimes.mk (λ _, 0%Z) (λ _, 0%Z).


(** The uids "1" to "n". *)
Definition uidsUpTo (n : nat) : list string := (λ i : nat, pretty i) <$> seq 1 n.

(** A lookup response that holds a record for every uid of [l]. *)
Definition activeUsers (l : list string) : list TwitterUserObject :=
  (λ u, mkUserObject u "name") <$> l.

(** A database that holds the block of "101" by "7" with its annotated
    block, and no snapshot. *)
Definition blocked101DB : DB :=
  mkDB [] [] ∅
       [Action.mk 1 "7" "101" Action.BLOCK Action.EXTERNAL None Action.DONE 0]
       {[("7", "101") := AnnotatedBlock.mk 1 true]} 1 2.

(** Two sealed syncs of [user7] on that database: the first snapshot holds
    the 101 uids "1" to "101", the second is empty. *)
Definition hundredAndOneGone : state :=
  run (initial blocked101DB 0)
      [UpdateBlocks user7; BlocksIds 0 (IdsOk (mkIds (uidsUpTo 101) "0"));
       UpdateBlocks user7; BlocksIds 1 (IdsOk (mkIds [] "0"))].

(** Then both lookups are answered, each with a record for every uid that
    was asked for. *)
Definition bothLookupsAnswered : state :=
  run hundredAndOneGone
      [UsersLookup 0 (LookupOk (activeUsers (uidsUpTo 100)));
       UsersLookup 0 (LookupOk (activeUsers ["101"]))].

(** A sealed sync of [user7] on an empty database (snapshot 1 holds "11"),
    then a fetch that stores one page and is aborted by a request failure:
    snapshot 2 is never sealed. *)
Definition sealedThenAborted : state :=
  run (initial emptyDB 0)
      [UpdateBlocks user7; BlocksIds 0 (IdsOk (mkIds ["11"] "0"));
       UpdateBlocks user7; BlocksIds 1 (IdsOk (mkIds ["11"] "1500"));
       BlocksIds 1 (IdsErr 500)].

(** The process is started again on the database [d] at time [t], and the
    fetch of [user7] stores one page and is aborted. *)
Definition abortedAgain (d : DB) (t : Z) : state :=
  run (initial d t)
      [UpdateBlocks user7; BlocksIds 0 (IdsOk (mkIds ["11"] "1500"));
       BlocksIds 0 (IdsErr 500)].

(** After two more days like that, snapshot 1 is complete and the
    snapshots 2, 3 and 4 were never sealed. *)
Definition threeNeverSealed : DB :=
  db (abortedAgain (db (abortedAgain (db sealedThenAborted) 86400000)) 172800000).

(** The process is started once more and [user7] is synced: the list holds
    "11" and "12".  Sealing snapshot 5 starts the pruning, which deletes
    snapshot 1; its destroy takes effect at [point]. *)
Definition fifthSync (point : diffPoint) : state :=
  run (initial threeNeverSealed 259200000)
      [DestroyAt point; UpdateBlocks user7;
       BlocksIds 0 (IdsOk (mkIds ["11"; "12"] "0"))].

(* ================================================================== *)
(** * The diff *)

Section Difference.
Implicit Types array values current old : list string.

Lemma elem_of_difference_list array values x :
  x ∈ difference array values ↔ x ∈ array ∧ x ∉ values.
Proof. unfold difference. rewrite list_elem_of_filter. tauto. Qed.

Lemma occurrences_difference array values x :
  occurrences x (difference array values) =
  if decide (x ∈ values) then 0 else occurrences x array.
Proof.
  unfold occurrences, difference.
  induction array as [|y array IH]; simpl.
  - by destruct (decide (x ∈ values)).
  - rewrite !filter_cons. destruct (decide (y ∉ values)) as [Hy|Hy].
    + rewrite filter_cons. destruct (decide (y = x)) as [->|Hne]; simpl.
      * rewrite IH. by destruct (decide (x ∈ values)).
      * exact IH.
    + destruct (decide (y = x)) as [->|Hne]; simpl; [|exact IH].
      rewrite IH. apply dec_stable in Hy. by destruct (decide (x ∈ values)).
Qed.

End Difference.

(** C8.  For any two snapshots [A] and [B] of the store, the ids added and
    the ids removed between them have no element in common, and what is
    added going from [B] to [A] is what is removed going from [A] to [B]. *)
Theorem added_removed_disjoint_and_symmetric (d : DB) (A B : BlockBatch.row) :
  (∀ x, ¬ (x ∈ addedBlockIds (snapshotIds A d) (snapshotIds B d) ∧
           x ∈ removedBlockIds (snapshotIds A d) (snapshotIds B d))) ∧
  addedBlockIds (snapshotIds A d) (snapshotIds B d) =
  removedBlockIds (snapshotIds B d) (snapshotIds A d).
Proof.
  split.
  - intros x [Hadded Hremoved]. unfold addedBlockIds, removedBlockIds in *.
    apply elem_of_difference_list in Hadded as [_ Hnot].
    apply elem_of_difference_list in Hremoved as [Hin _]. by apply Hnot.
  - unfold addedBlockIds, removedBlockIds. reflexivity.
Qed.
(* ================================================================== *)
(** * The Action Recorder *)

Section RecordAction.
Implicit Types (d : DB) (a : Action.row) (s k : string) (t : Action.type_t).

Lemma Action_find_Some s k t now d a :
  Action_find s k t now d = Some a →
  a ∈ Actions d ∧ prevActionQuery s k t now a.
Proof.
  unfold Action_find. intros H. apply head_Some_elem_of in H.
  by apply list_elem_of_filter in H as [? ?].
Qed.

Lemma prevActionQuery_later s k t now1 now2 a :
  (now1 ≤ now2)%Z → prevActionQuery s k t now2 a → prevActionQuery s k t now1 a.
Proof. unfold prevActionQuery. intros ? (?&?&?&?&?&?). repeat split; [done..|lia]. Qed.

Lemma Action_find_later s k t now1 now2 d a :
  (now1 ≤ now2)%Z →
  Action_find s k t now1 d = Some a →
  (now2 - 60 * 1000 < Action.updatedAt a)%Z →
  Action_find s k t now2 d = Some a.
Proof.
  unfold Action_find. intros Hle. induction (Actions d) as [|x l IH]; [done|].
  rewrite !filter_cons. intros Hfind Hfresh.
  destruct (decide (prevActionQuery s k t now1 x)) as [Hx|Hx].
  - simpl in Hfind. injection Hfind as ->.
    rewrite decide_True; [done|].
    destruct Hx as (?&?&?&?&?&?). repeat split; done.
  - rewrite decide_False; [by apply IH|].
    intros Hx2. apply Hx. by eapply prevActionQuery_later.
Qed.

Lemma Action_find_None_later s k t now1 now2 d :
  (now1 ≤ now2)%Z →
  Action_find s k t now1 d = None → Action_find s k t now2 d = None.
Proof.
  unfold Action_find. intros Hle. induction (Actions d) as [|x l IH]; [done|].
  rewrite !filter_cons.
  destruct (decide (prevActionQuery s k t now1 x)) as [Hx|Hx]; [done|].
  intros Hnone. rewrite decide_False; [by apply IH|].
  intros Hx2. apply Hx. by eapply prevActionQuery_later.
Qed.

(** An [EXTERNAL] row appended to the table never answers the query. *)
Lemma Action_find_external s k t now d a :
  Action.cause a = Action.EXTERNAL →
  Action_find s k t now
    (mkDB (BlockBatches d) (Blocks d) (TwitterUsers d) (Actions d ++ [a])
          (AnnotatedBlocks d) (nextBlockBatchId d) (S (nextActionId d)))
  = Action_find s k t now d.
Proof.
  intros Hext. unfold Action_find; simpl. rewrite filter_app, filter_cons.
  rewrite decide_False; [|intros (?&?&?&?&?); congruence].
  by rewrite filter_nil, app_nil_r.
Qed.

(** How [recordAction] ends when a previous action is found ... *)
Lemma recordAction_found s k t now d a :
  Action_find s k t now d = Some a →
  recordAction s k t now d = (d, Logged (loggedFor t)).
Proof.
  intros Hfind. unfold recordAction. rewrite Hfind.
  apply Action_find_Some in Hfind as [_ (Hs & Hk & Ht & Hc & _)].
  rewrite Ht. by destruct t.
Qed.

(** ... and when none is found: the row is created first. *)
Lemma recordAction_not_found s k t now d :
  Action_find s k t now d = None →
  recordAction s k t now d =
  (fst (Action_create s k t now d), Logged (loggedFor t)).
Proof.
  intros Hfind. unfold recordAction. rewrite Hfind. simpl. by destruct t.
Qed.

(** No call reaches the annotated blocks. *)
Lemma recordAction_annotated s k t now d :
  AnnotatedBlocks (fst (recordAction s k t now d)) = AnnotatedBlocks d.
Proof.
  destruct (Action_find s k t now d) as [a|] eqn:Hfind.
  - by rewrite (recordAction_found _ _ _ _ _ _ Hfind).
  - by rewrite (recordAction_not_found _ _ _ _ _ Hfind).
Qed.

End RecordAction.

(** C3 as stated fails: without a previous non-[EXTERNAL] action, two calls
    one second apart leave two Action rows for the same transition. *)
Lemma two_calls_two_action_rows :
  length (filter (λ a, Action.source_uid a = "7" ∧ Action.sink_uid a = "4" ∧
                       Action.type a = Action.BLOCK)
            (Actions (fst (recordAction "7" "4" Action.BLOCK 1000
                        (fst (recordAction "7" "4" Action.BLOCK 0 emptyDB)))))) = 2.
Proof. reflexivity. Qed.

(** C3, amended.  Two calls for the same block, the second not before the
    first.  When the search of the first call finds an action (status done,
    cause other than [EXTERNAL], updated within the last 60 seconds) that is
    still within the window at the second call, the search of the second
    call finds that same action and the two calls leave the Action table as
    it was.  When the search of the first call finds nothing, each call
    creates an [EXTERNAL] row of its own: the search skips [EXTERNAL] rows,
    so the second call does not see the row of the first. *)
Theorem recordAction_twice (s k : string) (now1 now2 : Z) (d : DB) :
  (now1 ≤ now2)%Z →
  match Action_find s k Action.BLOCK now1 d with
  | Some a =>
      (now2 - 60 * 1000 < Action.updatedAt a)%Z →
      Action_find s k Action.BLOCK now2 (fst (recordAction s k Action.BLOCK now1 d))
        = Some a ∧
      Actions (fst (recordAction s k Action.BLOCK now2
                 (fst (recordAction s k Action.BLOCK now1 d)))) = Actions d ∧
      nextActionId (fst (recordAction s k Action.BLOCK now2
                      (fst (recordAction s k Action.BLOCK now1 d)))) = nextActionId d
  | None =>
      let a1 := Action.mk (nextActionId d) s k Action.BLOCK Action.EXTERNAL None
                          Action.DONE now1 in
      let a2 := Action.mk (S (nextActionId d)) s k Action.BLOCK Action.EXTERNAL None
                          Action.DONE now2 in
      Action_find s k Action.BLOCK now2 (fst (recordAction s k Action.BLOCK now1 d))
        = None ∧
      Actions (fst (recordAction s k Action.BLOCK now2
                 (fst (recordAction s k Action.BLOCK now1 d)))) = Actions d ++ [a1; a2] ∧
      nextActionId (fst (recordAction s k Action.BLOCK now2
                      (fst (recordAction s k Action.BLOCK now1 d))))
        = S (S (nextActionId d))
  end.
Proof.
  intros Hle. destruct (Action_find s k Action.BLOCK now1 d) as [a|] eqn:Hfind.
  - intros Hfresh. rewrite (recordAction_found _ _ _ _ _ _ Hfind). cbn [fst].
    assert (Hfind2 : Action_find s k Action.BLOCK now2 d = Some a).
    { by apply (Action_find_later s k Action.BLOCK now1 now2 d a). }
    by rewrite (recordAction_found _ _ _ _ _ _ Hfind2).
  - rewrite (recordAction_not_found _ _ _ _ _ Hfind). cbv zeta; cbn [fst].
    assert (Hfind2 : Action_find s k Action.BLOCK now2
              (fst (Action_create s k Action.BLOCK now1 d)) = None).
    { unfold Action_create; cbn [fst]. rewrite Action_find_external by done.
      by apply (Action_find_None_later s k Action.BLOCK now1 now2 d). }
    rewrite (recordAction_not_found _ _ _ _ _ Hfind2). simpl.
    by rewrite <- app_assoc.
Qed.

Lemma recordAction_twice_witness :
  (Action_find "7" "4" Action.BLOCK 7000
     (fst (recordAction "7" "4" Action.BLOCK 6000 subscriptionBlockDB))
     = Some (Action.mk 1 "7" "4" Action.BLOCK (Action.OTHER_CAUSE "subscription")
                       (Some "9") Action.DONE 5000) ∧
   Actions (fst (recordAction "7" "4" Action.BLOCK 7000
             (fst (recordAction "7" "4" Action.BLOCK 6000 subscriptionBlockDB))))
     = Actions subscriptionBlockDB ∧
   nextActionId (fst (recordAction "7" "4" Action.BLOCK 7000
             (fst (recordAction "7" "4" Action.BLOCK 6000 subscriptionBlockDB))))
     = nextActionId subscriptionBlockDB) ∧
  Actions (fst (recordAction "7" "4" Action.BLOCK 1000
             (fst (recordAction "7" "4" Action.BLOCK 0 emptyDB))))
    = [Action.mk 1 "7" "4" Action.BLOCK Action.EXTERNAL None Action.DONE 0;
       Action.mk 2 "7" "4" Action.BLOCK Action.EXTERNAL None Action.DONE 1000].
Proof.
  split.
  - apply (recordAction_twice "7" "4" 6000 7000 subscriptionBlockDB); [lia | reflexivity].
  - apply (recordAction_twice "7" "4" 0 1000 emptyDB). lia.
Defined.

(* ================================================================== *)
(** * The Deactivation Filter *)

Section Drain.

Lemma recordUnblocks_unfold source r h sent :
  recordUnblocksUnlessDeactivated source r h sent =
  if decide (0 < length (h !!! r)) then
    recordUnblocksUnlessDeactivated source r (snd (splice0 100 r h))
      (sent ++ [mkLookup source (fst (splice0 100 r h))])
  else (h, sent).
Proof.
  rewrite recordUnblocksUnlessDeactivated_equation_1.
  destruct (decide (0 < length (h !!! r))); reflexivity.
Qed.

(** The loop on the array [l] stored at [r], by induction on its length. *)
Lemma recordUnblocks_drains_aux source r n :
  ∀ (l : list string) (h : arrays) sent,
  length l ≤ n →
  ∃ new,
    recordUnblocksUnlessDeactivated source r (<[r := l]> h) sent
      = (<[r := []]> h, sent ++ new) ∧
    concat (uidsToQuery <$> new) = l ∧
    Forall (λ p, lookup_source_uid p = source ∧
                 0 < length (uidsToQuery p) ≤ 100) new.
Proof.
  induction n as [|n IH]; intros l h sent Hlen.
  - destruct l; [|simpl in Hlen; lia].
    exists []. rewrite recordUnblocks_unfold, lookup_total_insert_eq. simpl.
    by rewrite app_nil_r.
  - rewrite recordUnblocks_unfold, lookup_total_insert_eq.
    destruct (decide (0 < length l)) as [Hpos|Hzero].
    + unfold splice0; cbn [fst snd]. rewrite lookup_total_insert_eq, insert_insert_eq.
      destruct (IH (drop 100 l) h (sent ++ [mkLookup source (take 100 l)]))
        as (new & Hrun & Hcat & Hall).
      { rewrite length_drop. lia. }
      exists (mkLookup source (take 100 l) :: new). split; [|split].
      * rewrite Hrun. by rewrite <- app_assoc.
      * rewrite fmap_cons. cbn [concat uidsToQuery]. rewrite Hcat. apply take_drop.
      * constructor; [|done]. simpl. split; [done|].
        rewrite length_take. lia.
    + destruct l; [|simpl in Hzero; lia].
      exists []. by rewrite app_nil_r.
Qed.

End Drain.

(** C10.  Whatever array [l] the caller holds at reference [sink_uids],
    after the call that array is empty (the other arrays are as before); the
    uids went, in order, into the lookups sent, each for at least one and at
    most 100 uids. *)
Theorem recordUnblocks_drains_array (source_uid : string) (sink_uids : nat)
    (l : list string) (h : arrays) (sent : list pendingLookup) :
  ∃ new,
    recordUnblocksUnlessDeactivated source_uid sink_uids (<[sink_uids := l]> h) sent
      = (<[sink_uids := []]> h, sent ++ new) ∧
    concat (uidsToQuery <$> new) = l ∧
    Forall (λ p, lookup_source_uid p = source_uid ∧
                 0 < length (uidsToQuery p) ≤ 100) new.
Proof. by apply (recordUnblocks_drains_aux source_uid sink_uids (length l)). Qed.

Section Filter.
Implicit Types (d : DB) (a : Action.row) (s k x : string) (l : list string).

Lemma recordAction_Actions s k t now d :
  Actions (fst (recordAction s k t now d)) =
  Actions d ++ match Action_find s k t now d with
               | Some _ => []
               | None => [Action.mk (nextActionId d) s k t Action.EXTERNAL None
                                    Action.DONE now]
               end.
Proof.
  destruct (Action_find s k t now d) as [a|] eqn:Hfind.
  - by rewrite (recordAction_found _ _ _ _ _ _ Hfind), app_nil_r.
  - by rewrite (recordAction_not_found _ _ _ _ _ Hfind).
Qed.

Lemma recordAction_logged s k t now d :
  snd (recordAction s k t now d) = Logged (loggedFor t).
Proof.
  destruct (Action_find s k t now d) as [a|] eqn:Hfind.
  - by rewrite (recordAction_found _ _ _ _ _ _ Hfind).
  - by rewrite (recordAction_not_found _ _ _ _ _ Hfind).
Qed.

(** What a call adds to the table is [EXTERNAL], so it changes the answer
    of no later search. *)
Lemma recordAction_find_stable s k t now d s' k' t' now' :
  Action_find s' k' t' now' (fst (recordAction s k t now d)) =
  Action_find s' k' t' now' d.
Proof.
  unfold Action_find at 1. rewrite recordAction_Actions, filter_app.
  destruct (Action_find s k t now d); [by rewrite filter_nil, app_nil_r|].
  rewrite filter_cons, decide_False; [|intros (?&?&?&?&?); simpl in *; congruence].
  by rewrite filter_nil, app_nil_r.
Qed.

(** The rows for the sink [X] and the type [T] that a call adds. *)
Lemma recordAction_actionsFor s k t now d X T :
  length (actionsFor X T (Actions (fst (recordAction s k t now d)))) =
  length (actionsFor X T (Actions d)) +
  match Action_find s k t now d with
  | Some _ => 0
  | None => if decide (k = X ∧ t = T) then 1 else 0
  end.
Proof.
  unfold actionsFor. rewrite recordAction_Actions, filter_app, length_app.
  destruct (Action_find s k t now d); [by rewrite filter_nil|].
  rewrite filter_cons. cbn [Action.sink_uid Action.type].
  by destruct (decide (k = X ∧ t = T)).
Qed.

Lemma elem_of_indexBy response x :
  is_Some (indexBy response !! x) ↔ x ∈ id_str <$> response.
Proof.
  unfold indexBy.
  assert (Hgen : ∀ m : gmap string TwitterUserObject,
            is_Some (foldl (λ m u, <[id_str u := u]> m) m response !! x)
            ↔ is_Some (m !! x) ∨ x ∈ id_str <$> response).
  { induction response as [|u response IH]; intros m.
    - simpl. rewrite elem_of_nil. tauto.
    - rewrite fmap_cons. cbn [foldl]. rewrite IH, elem_of_cons, lookup_insert_is_Some'.
      split; [intros [[->|?]|?]|intros [?|[->|?]]]; auto. }
  rewrite Hgen, lookup_empty, is_Some_alt. tauto.
Qed.

Lemma recordAction_Actions_mono s k t now d a :
  a ∈ Actions d → a ∈ Actions (fst (recordAction s k t now d)).
Proof. intros Hin. rewrite recordAction_Actions, elem_of_app. by left. Qed.

Section Callback.
Variables (source : string) (m : gmap string TwitterUserObject) (now : Z).

Lemma forEach_present_cons x l d :
  forEach (recordIfPresent source m now) (x :: l) d =
  match m !! x with
  | Some _ =>
      let r := recordAction source x Action.UNBLOCK now d in
      let r2 := forEach (recordIfPresent source m now) l (fst r) in
      (fst r2, snd r :: snd r2)
  | None => forEach (recordIfPresent source m now) l d
  end.
Proof.
  cbn [forEach].
  assert (Hx : recordIfPresent source m now x d =
               match m !! x with
               | Some _ => ((recordAction source x Action.UNBLOCK now d).1,
                            [(recordAction source x Action.UNBLOCK now d).2])
               | None => (d, [])
               end) by done.
  rewrite Hx. destruct (m !! x); cbn [fst snd app]; [done|].
  by destruct (forEach (recordIfPresent source m now) l d).
Qed.

Lemma present_cons x l :
  present m (x :: l) = match m !! x with Some _ => x :: present m l | None => present m l end.
Proof.
  unfold present. rewrite filter_cons.
  destruct (m !! x) eqn:Hx.
  - rewrite decide_True; [done|by eexists].
  - rewrite decide_False; [done|]. by intros [? ?].
Qed.

(** Every chain that the callback starts ends in the logged error. *)
Lemma forEach_present_logged l : ∀ d,
  snd (forEach (recordIfPresent source m now) l d)
  = (λ _, Logged AnnotatedBlock_unbound) <$> present m l.
Proof.
  induction l as [|x l IH]; intros d; [done|].
  rewrite forEach_present_cons, present_cons. destruct (m !! x); [|apply IH].
  cbv zeta; cbn [snd]. by rewrite fmap_cons, IH, recordAction_logged.
Qed.

Lemma forEach_present_find l : ∀ d s k t now',
  Action_find s k t now' (fst (forEach (recordIfPresent source m now) l d)) =
  Action_find s k t now' d.
Proof.
  induction l as [|x l IH]; intros d s k t now'; [done|].
  rewrite forEach_present_cons. destruct (m !! x); [|apply IH].
  cbv zeta; cbn [fst]. by rewrite IH, recordAction_find_stable.
Qed.

Lemma forEach_present_mono l : ∀ d a,
  a ∈ Actions d → a ∈ Actions (fst (forEach (recordIfPresent source m now) l d)).
Proof.
  induction l as [|x l IH]; intros d a Hin; [done|].
  rewrite forEach_present_cons. destruct (m !! x); [|by apply IH].
  cbv zeta; cbn [fst]. by apply IH, recordAction_Actions_mono.
Qed.

Lemma forEach_present_rows l X : ∀ d,
  length (actionsFor X Action.UNBLOCK
            (Actions (fst (forEach (recordIfPresent source m now) l d)))) =
  length (actionsFor X Action.UNBLOCK (Actions d)) +
  match Action_find source X Action.UNBLOCK now d with
  | Some _ => 0
  | None => occurrences X (present m l)
  end.
Proof.
  induction l as [|x l IH]; intros d.
  - simpl. destruct (Action_find _ _ _ _ _); unfold occurrences; simpl; lia.
  - rewrite forEach_present_cons, present_cons. destruct (m !! x); [|apply IH].
    cbv zeta; cbn [fst]. rewrite IH, recordAction_find_stable, recordAction_actionsFor.
    unfold occurrences. rewrite filter_cons.
    destruct (decide (x = X)) as [->|Hne].
    + rewrite decide_True by done.
      destruct (Action_find source X Action.UNBLOCK now d); simpl; lia.
    + rewrite decide_False by (intros [? _]; done).
      destruct (Action_find source x Action.UNBLOCK now d),
               (Action_find source X Action.UNBLOCK now d); simpl; lia.
Qed.

Lemma forEach_present_annotated l : ∀ d,
  AnnotatedBlocks (fst (forEach (recordIfPresent source m now) l d)) = AnnotatedBlocks d.
Proof.
  induction l as [|x l IH]; intros d; [done|].
  rewrite forEach_present_cons. destruct (m !! x); [|apply IH].
  cbv zeta; cbn [fst]. by rewrite IH, recordAction_annotated.
Qed.

End Callback.
End Filter.

Section Counting.
Context {A B : Type} (f : A → B) (P : B → Prop) `{∀ b, Decision (P b)}.

Lemma length_filter_fmap (l : list A) :
  length (filter (λ a, P (f a)) l) = length (filter P (f <$> l)).
Proof.
  induction l as [|a l IH]; [done|].
  rewrite fmap_cons, !filter_cons.
  destruct (decide (P (f a))); simpl; by rewrite IH.
Qed.

End Counting.

Lemma occurrences_filter (Q : string → Prop) `{∀ x, Decision (Q x)} (X : string)
    (l : list string) :
  occurrences X (filter Q l) = if decide (Q X) then occurrences X l else 0.
Proof.
  unfold occurrences. induction l as [|y l IH].
  - by destruct (decide (Q X)).
  - rewrite (filter_cons Q). destruct (decide (Q y)) as [Hy|Hy].
    + rewrite !filter_cons. destruct (decide (y = X)) as [->|Hne]; [|done].
      simpl. rewrite IH. by destruct (decide (Q X)).
    + rewrite IH, (filter_cons (λ y, y = X)).
      destruct (decide (y = X)) as [->|Hne]; [|done].
      by destruct (decide (Q X)).
Qed.

(** What the callback [c] does on the answer [r], for any uid [X]. *)
Lemma lookupCallback_effect_aux (c : pendingCallback) (r : lookupResult) (now : Z)
    (d : DB) (X : string) :
  match r with
  | LookupErr _ => lookupCallback c r now d = (d, [])
  | LookupOk response =>
      let d' := fst (lookupCallback c r now d) in
      length (actionsFor X Action.UNBLOCK (Actions d')) =
        length (actionsFor X Action.UNBLOCK (Actions d)) +
        match Action_find (lookup_source_uid (sentLookup c)) X Action.UNBLOCK now d with
        | Some _ => 0
        | None => if decide (X ∈ id_str <$> response)
                  then occurrences X (sharedUidsToQuery c) else 0
        end ∧
      AnnotatedBlocks d' = AnnotatedBlocks d ∧
      Forall (λ rec, rec = Logged AnnotatedBlock_unbound) (snd (lookupCallback c r now d))
  end.
Proof.
  destruct r as [response|statusCode]; [|by unfold lookupCallback; case_decide].
  cbv zeta. unfold lookupCallback.
  set (m := indexBy response). set (src := lookup_source_uid (sentLookup c)).
  rewrite forEach_present_rows, forEach_present_annotated, forEach_present_logged.
  unfold present. rewrite occurrences_filter.
  split; [|split; [done|]].
  - destruct (Action_find src X Action.UNBLOCK now d); [done|].
    f_equal. subst m.
    destruct (decide (X ∈ id_str <$> response)) as [Hin|Hout].
    + rewrite decide_True; [done|]. by apply elem_of_indexBy.
    + rewrite decide_False; [done|]. by rewrite elem_of_indexBy.
  - apply Forall_fmap, Forall_true. done.
Qed.

(* ================================================================== *)
(** * Duplicates in a snapshot *)

Lemma occurrences_NoDup (x : string) (l : list string) :
  NoDup l → occurrences x l ≤ 1.
Proof.
  unfold occurrences. induction 1 as [|y l Hy _ IH]; [simpl; lia|].
  rewrite filter_cons. destruct (decide (y = x)) as [->|]; [|done].
  simpl. assert (Hnil : filter (λ y, y = x) l = []); [|by rewrite Hnil].
  apply elem_of_nil_inv. intros z Hz. apply list_elem_of_filter in Hz as [-> Hz]. done.
Qed.

Lemma recordBlocks_cons s now k added d :
  recordBlocks s (k :: added) now d =
  ((recordBlocks s added now (recordAction s k Action.BLOCK now d).1).1,
   (recordAction s k Action.BLOCK now d).2
     :: (recordBlocks s added now (recordAction s k Action.BLOCK now d).1).2).
Proof. done. Qed.

Lemma recordBlocks_find s now added : ∀ d s' k' t' now',
  Action_find s' k' t' now' (recordBlocks s added now d).1 = Action_find s' k' t' now' d.
Proof.
  induction added as [|k added IH]; intros d s' k' t' now'; [done|].
  rewrite recordBlocks_cons. cbn [fst]. by rewrite IH, recordAction_find_stable.
Qed.

(** The [BLOCK] rows for the sink [X] that recording the added ids creates:
    one per occurrence of [X], unless a previous action answers the search. *)
Lemma recordBlocks_rows s now X added : ∀ d,
  length (actionsFor X Action.BLOCK (Actions (recordBlocks s added now d).1)) =
  length (actionsFor X Action.BLOCK (Actions d)) +
  match Action_find s X Action.BLOCK now d with
  | Some _ => 0
  | None => occurrences X added
  end.
Proof.
  induction added as [|k added IH]; intros d.
  - cbn [recordBlocks forEach fst]. unfold occurrences.
    destruct (Action_find _ _ _ _ _); simpl; lia.
  - rewrite recordBlocks_cons. cbn [fst].
    rewrite IH, recordAction_find_stable, recordAction_actionsFor.
    unfold occurrences. rewrite filter_cons.
    destruct (decide (k = X)) as [->|Hne].
    + rewrite decide_True by done.
      destruct (Action_find s X Action.BLOCK now d); simpl; lia.
    + rewrite decide_False by (intros [? _]; done).
      destruct (Action_find s k Action.BLOCK now d),
               (Action_find s X Action.BLOCK now d); simpl; lia.
Qed.

(** C6 as stated fails: a current snapshot that holds the new id "4" twice
    gives an added list with "4" twice, and the sync that stored it records
    two [BLOCK] actions for "4". *)
Lemma duplicate_entry_two_block_events :
  addedBlockIds ["2"; "3"; "4"; "4"] ["1"; "2"; "3"] = ["4"; "4"] ∧
  Block.sink_uid <$> filter (λ e, Block.BlockBatchId e = 2) (Blocks (db newIdOnTwoPages))
    = ["2"; "3"; "4"; "4"] ∧
  length (filter (λ a, Action.sink_uid a = "4" ∧ Action.type a = Action.BLOCK)
            (Actions (db newIdOnTwoPages))) = 2.
Proof. repeat split; vm_compute; reflexivity. Qed.

(** C6, amended.  The added ids are the ids of the current snapshot that
    are not in the previous one, and the removed ids the other way round; an
    id keeps, in either result, the number of times it occurs in the
    snapshot it is taken from (repetitions in the other snapshot do not
    count).  Recording the added list creates one [BLOCK] row per element,
    unless a previous action answers the search of [recordAction] (then
    none), and every element of the removed list is forwarded in a lookup
    once.  So for snapshots without repeated entries each id yields at most
    one [BLOCK] row and at most one forwarded removal. *)
Theorem diff_keeps_repetitions (current old : list string) (x source : string)
    (now : Z) (d : DB) :
  (x ∈ addedBlockIds current old ↔ x ∈ current ∧ x ∉ old) ∧
  (x ∈ removedBlockIds current old ↔ x ∈ old ∧ x ∉ current) ∧
  occurrences x (addedBlockIds current old)
    = (if decide (x ∈ old) then 0 else occurrences x current) ∧
  occurrences x (removedBlockIds current old)
    = (if decide (x ∈ current) then 0 else occurrences x old) ∧
  length (actionsFor x Action.BLOCK
            (Actions (fst (recordBlocks source (addedBlockIds current old) now d))))
    = length (actionsFor x Action.BLOCK (Actions d)) +
      match Action_find source x Action.BLOCK now d with
      | Some _ => 0
      | None => occurrences x (addedBlockIds current old)
      end ∧
  occurrences x (concat (uidsToQuery <$>
      snd (recordUnblocksUnlessDeactivated source 0
             {[0 := removedBlockIds current old]} [])))
    = occurrences x (removedBlockIds current old) ∧
  (NoDup current → occurrences x (addedBlockIds current old) ≤ 1) ∧
  (NoDup old → occurrences x (removedBlockIds current old) ≤ 1).
Proof.
  unfold addedBlockIds, removedBlockIds.
  split; [apply elem_of_difference_list|].
  split; [apply elem_of_difference_list|].
  split; [apply occurrences_difference|].
  split; [apply occurrences_difference|].
  split; [apply recordBlocks_rows|].
  split.
  - destruct (recordUnblocks_drains_aux source 0 (length (difference old current))
                (difference old current) ∅ []) as (new & Hrun & Hcat & _); [done|].
    rewrite insert_empty in Hrun. rewrite Hrun. simpl. by rewrite Hcat.
  - split; intros Hnodup; apply occurrences_NoDup; by apply NoDup_filter.
Qed.

(* ================================================================== *)
(** * The fetch: registration of the fetches in flight *)

Section Registration.
Implicit Types (s : state) (e : event) (p q : nat) (user : BtUser).

Lemma finalizeBlockBatch_fields p b s :
  activeFetches (finalizeBlockBatch p b s)
    = delete (BlockBatch.source_uid b) (activeFetches s) ∧
  promises (finalizeBlockBatch p b s)
    = <[p := Resolved (Some (BlockBatch.mk (BlockBatch.id b) (BlockBatch.source_uid b)
              (BlockBatch.size b) (BlockBatch.currentCursor b) true))]> (promises s) ∧
  nextPromise (finalizeBlockBatch p b s) = nextPromise s ∧
  now (finalizeBlockBatch p b s) = now s ∧
  requests (finalizeBlockBatch p b s) = requests s.
Proof.
  unfold finalizeBlockBatch. cbv zeta.
  by destruct (diffBatchWithPrevious_among _ _ _ _).
Qed.

Lemma handleIds_fields b c results d :
  (handleIds b c results d).2 = next_cursor_str results ∧
  BlockBatch.id (handleIds b c results d).1.2 = BlockBatch.id b ∧
  BlockBatch.source_uid (handleIds b c results d).1.2 = BlockBatch.source_uid b ∧
  BlockBatch.complete (handleIds b c results d).1.2 = BlockBatch.complete b.
Proof. done. Qed.

(** The batch a page is stored in: the one the fetch carries, or a new one. *)
Lemma batch_of_page_source user (blockBatch : option BlockBatch.row) d :
  BlockBatch.source_uid
    (match blockBatch with
     | None => BlockBatch_create (uid user) d
     | Some b => (d, b)
     end).2
  = match blockBatch with
    | Some b0 => BlockBatch.source_uid b0
    | None => uid user
    end.
Proof. by destruct blockBatch. Qed.

(** What answering the request of [p] does to the promises and the
    registrations, case by case. *)
Lemma onBlocksIds_cases p r s :
  match promises s !! p with
  | Some (AwaitBlocksIds user blockBatch c) =>
      nextPromise (onBlocksIds p r s) = nextPromise s ∧
      match r with
      | IdsOk results =>
          ∃ b, BlockBatch.source_uid b =
                 match blockBatch with
                 | Some b0 => BlockBatch.source_uid b0
                 | None => uid user
                 end ∧
            if decide (next_cursor_str results = "0") then
              activeFetches (onBlocksIds p r s)
                = delete (BlockBatch.source_uid b) (activeFetches s) ∧
              promises (onBlocksIds p r s) = <[p := Resolved (Some b)]> (promises s)
            else
              activeFetches (onBlocksIds p r s) = activeFetches s ∧
              promises (onBlocksIds p r s)
                = <[p := AwaitBlocksIds user (Some b)
                           (cursorOrStart (Some (next_cursor_str results)))]> (promises s)
      | IdsErr statusCode =>
          activeFetches (onBlocksIds p r s) = activeFetches s ∧
          promises (onBlocksIds p r s) =
            <[p := match blockBatch with
                   | Some b0 =>
                       if decide (statusCode = 429%Z)
                       then AwaitDelay user b0 c (now s + 15 * 60 * 1000)%Z
                       else Resolved None
                   | None => Resolved None
                   end]> (promises s)
      end
  | _ => onBlocksIds p r s = s
  end.
Proof.
  unfold onBlocksIds.
  destruct (promises s !! p) as [[user blockBatch c| |]|]; [|done..].
  destruct r as [results|statusCode].
  - pose proof (batch_of_page_source user blockBatch (db s)) as Hsrc.
    destruct (match blockBatch with
              | None => BlockBatch_create (uid user) (db s)
              | Some b => (db s, b)
              end) as [db1 b1].
    destruct (handleIds_fields b1 c results db1) as (Hnc & _ & Hsrc2 & _).
    destruct (handleIds b1 c results db1) as [[db2 b2] nextCursor].
    cbn [fst snd] in *. subst nextCursor.
    destruct (decide (next_cursor_str results = "0")).
    + destruct (finalizeBlockBatch_fields p b2 (set_db db2 s)) as (Ha & Hp & Hn & _).
      split; [exact Hn|].
      exists (BlockBatch.mk (BlockBatch.id b2) (BlockBatch.source_uid b2)
                (BlockBatch.size b2) (BlockBatch.currentCursor b2) true).
      split; [simpl; congruence|]. split; [exact Ha|exact Hp].
    + split; [done|]. exists b2. split; [congruence|]. split; reflexivity.
  - destruct blockBatch as [b0|]; destruct (decide (statusCode = 429%Z)); done.
Qed.


Lemma updateBlocks_fields user s :
  (updateBlocks user s).1 = nextPromise s ∧
  nextPromise (updateBlocks user s).2 = S (nextPromise s) ∧
  db (updateBlocks user s).2 = db s ∧
  lookups (updateBlocks user s).2 = lookups s ∧
  now (updateBlocks user s).2 = now s ∧
  match activeFetches s !! uid user with
  | Some _ =>
      activeFetches (updateBlocks user s).2 = activeFetches s ∧
      promises (updateBlocks user s).2 = <[nextPromise s := Resolved None]> (promises s) ∧
      requests (updateBlocks user s).2 = requests s
  | None =>
      activeFetches (updateBlocks user s).2
        = <[uid user := nextPromise s]> (activeFetches s) ∧
      promises (updateBlocks user s).2
        = <[nextPromise s := AwaitBlocksIds user None "-1"]> (promises s) ∧
      requests (updateBlocks user s).2 = requests s ++ [(nextPromise s, "-1")]
  end.
Proof. unfold updateBlocks. by destruct (activeFetches s !! uid user). Qed.

Lemma onDelayElapsed_cases p s :
  match promises s !! p with
  | Some (AwaitDelay user b c wake) =>
      if decide (wake ≤ now s)%Z then
        onDelayElapsed p s =
        mkState (db s) (activeFetches s)
                (<[p := AwaitBlocksIds user (Some b) (cursorOrStart (Some c))]> (promises s))
                (nextPromise s) (lookups s) (now s)
                (requests s ++ [(p, cursorOrStart (Some c))]) (destroyAt s)
      else onDelayElapsed p s = s
  | _ => onDelayElapsed p s = s
  end.
Proof.
  unfold onDelayElapsed.
  destruct (promises s !! p) as [[| user b c wake |]|]; [done| |done..].
  by destruct (decide (wake ≤ now s)%Z).
Qed.

Lemma registered_initial d t : registered (initial d t).
Proof. intros p v user bb Hp. simpl in Hp. by rewrite lookup_empty in Hp. Qed.

Lemma numbered_initial d t : numbered (initial d t).
Proof.
  split.
  - intros p [v Hp]. simpl in Hp. by rewrite lookup_empty in Hp.
  - intros u p Hp. simpl in Hp. by rewrite lookup_empty in Hp.
Qed.

Lemma step_registered s e : registered s → registered (step s e).
Proof.
  intros Hreg. destruct e as [user|p r|p|k r|ms|point]; cbn [step].
  - (* updateBlocks *)
    destruct (updateBlocks_fields user s) as (_ & _ & _ & _ & _ & Hcase).
    intros q v usr bb Hq Hv.
    destruct (activeFetches s !! uid user) as [p0|] eqn:Hactive;
      destruct Hcase as (Ha & Hp & _); rewrite Ha; rewrite Hp in Hq.
    + destruct (decide (nextPromise s = q)) as [<-|Hne].
      * rewrite lookup_insert_eq in Hq. by injection Hq as <-.
      * rewrite lookup_insert_ne in Hq by done. by eapply Hreg.
    + destruct (decide (nextPromise s = q)) as [<-|Hne].
      * rewrite lookup_insert_eq in Hq. injection Hq as <-. injection Hv as <- <-.
        by rewrite lookup_insert_eq.
      * rewrite lookup_insert_ne in Hq by done.
        destruct (Hreg q v usr bb Hq Hv) as [Hin Hsrc]. split; [|done].
        rewrite lookup_insert_ne; [done|]. intros Heq. congruence.
  - (* the answer to a request *)
    pose proof (onBlocksIds_cases p r s) as Hcase.
    destruct (promises s !! p) as [[user blockBatch c| |]|] eqn:Hp;
      [|by rewrite Hcase..].
    destruct (Hreg p _ user blockBatch Hp eq_refl) as [Hactive Hsource].
    destruct Hcase as [_ Hcase]. intros q v usr bb Hq Hv.
    destruct r as [results|statusCode].
    + destruct Hcase as (b & Hb & Hcase).
      assert (Hbu : BlockBatch.source_uid b = uid user).
      { rewrite Hb. destruct blockBatch; [by apply Hsource|done]. }
      destruct (decide (next_cursor_str results = "0"));
        destruct Hcase as [Ha Hpr]; rewrite Ha; rewrite Hpr in Hq.
      * destruct (decide (p = q)) as [->|Hne].
        { rewrite lookup_insert_eq in Hq. by injection Hq as <-. }
        rewrite lookup_insert_ne in Hq by done.
        destruct (Hreg q v usr bb Hq Hv) as [Hin Hsrc]. split; [|done].
        rewrite lookup_delete_ne; [done|]. rewrite Hbu. intros Heq.
        rewrite Heq in Hactive. congruence.
      * destruct (decide (p = q)) as [->|Hne].
        { rewrite lookup_insert_eq in Hq. injection Hq as <-. injection Hv as <- <-.
          split; [done|]. by intros ? [= <-]. }
        rewrite lookup_insert_ne in Hq by done. by eapply Hreg.
    + destruct Hcase as [Ha Hpr]. rewrite Ha. rewrite Hpr in Hq.
      destruct (decide (p = q)) as [->|Hne].
      * rewrite lookup_insert_eq in Hq. injection Hq as <-.
        destruct blockBatch as [b0|]; [|done].
        destruct (decide (statusCode = 429%Z)); [|done].
        injection Hv as <- <-. split; [done|]. intros ? [= <-]. by apply Hsource.
      * rewrite lookup_insert_ne in Hq by done. by eapply Hreg.
  - (* the delay has elapsed *)
    pose proof (onDelayElapsed_cases p s) as Hcase.
    destruct (promises s !! p) as [[| user b c wake |]|] eqn:Hp;
      [by rewrite Hcase| |by rewrite Hcase..].
    destruct (decide (wake ≤ now s)%Z); rewrite Hcase; [|done].
    destruct (Hreg p _ user (Some b) Hp eq_refl) as [Hactive Hsource].
    intros q v usr bb Hq Hv. cbn [promises activeFetches] in *.
    destruct (decide (p = q)) as [->|Hne].
    + rewrite lookup_insert_eq in Hq. injection Hq as <-. by injection Hv as <- <-.
    + rewrite lookup_insert_ne in Hq by done. by eapply Hreg.
  - (* the callback of a lookup *)
    unfold onUsersLookup. by destruct (lookups s !! k).
  - done.
  - done.
Qed.

Lemma step_numbered s e : numbered s → numbered (step s e).
Proof.
  intros [Hprom Hact]. destruct e as [user|p r|p|k r|ms|point]; cbn [step].
  - destruct (updateBlocks_fields user s) as (_ & Hn & _ & _ & _ & Hcase).
    unfold numbered. rewrite Hn.
    destruct (activeFetches s !! uid user) as [p0|] eqn:Hactive;
      destruct Hcase as (Ha & Hp & _); rewrite Ha, Hp; split.
    + intros q. rewrite lookup_insert_is_Some. intros [<-|[_ Hq]]; [lia|].
      specialize (Hprom q Hq). lia.
    + intros u q Hq. specialize (Hact u q Hq). lia.
    + intros q. rewrite lookup_insert_is_Some. intros [<-|[_ Hq]]; [lia|].
      specialize (Hprom q Hq). lia.
    + intros u q. rewrite lookup_insert_Some. intros [[_ <-]|[_ Hq]]; [lia|].
      specialize (Hact u q Hq). lia.
  - pose proof (onBlocksIds_cases p r s) as Hcase.
    destruct (promises s !! p) as [[user blockBatch c| |]|] eqn:Hp;
      [|by rewrite Hcase..].
    assert (Hlt : p < nextPromise s) by (apply Hprom; by rewrite Hp).
    destruct Hcase as [Hn Hcase]. unfold numbered. rewrite Hn.
    assert (Hgoal : ∀ v (m : gmap string nat),
              (∀ u q, m !! u = Some q → activeFetches s !! u = Some q) →
              (∀ q, is_Some (<[p := v]> (promises s) !! q) → q < nextPromise s) ∧
              (∀ u q, m !! u = Some q → q < nextPromise s)).
    { intros v m Hm. split.
      - intros q. rewrite lookup_insert_is_Some. intros [<-|[_ Hq]]; [done|by apply Hprom].
      - intros u q Hq. eapply Hact, Hm, Hq. }
    destruct r as [results|statusCode].
    + destruct Hcase as (b & _ & Hcase).
      destruct (decide (next_cursor_str results = "0"));
        destruct Hcase as [-> ->]; apply Hgoal; [|done].
      intros u q. rewrite lookup_delete_Some. by intros [_ ?].
    + destruct Hcase as [-> ->]. by apply Hgoal.
  - pose proof (onDelayElapsed_cases p s) as Hcase.
    destruct (promises s !! p) as [[| user b c wake |]|] eqn:Hp;
      [by rewrite Hcase| |by rewrite Hcase..].
    destruct (decide (wake ≤ now s)%Z); rewrite Hcase; [|done].
    split; [|done]. cbn [promises nextPromise].
    intros q. rewrite lookup_insert_is_Some. intros [<-|[_ Hq]]; [|by apply Hprom].
    apply Hprom. by rewrite Hp.
  - unfold onUsersLookup. by destruct (lookups s !! k).
  - done.
  - done.
Qed.

Lemma reachable_invariants s : reachable s → registered s ∧ numbered s.
Proof.
  intros (d & t & es & ->). unfold run.
  induction es as [|e es IH] using rev_ind.
  - split; [apply registered_initial|apply numbered_initial].
  - rewrite foldl_app. cbn [foldl]. destruct IH as [Hreg Hnum].
    split; [by apply step_registered|by apply step_numbered].
Qed.

Lemma reachable_run s es : reachable s → reachable (run s es).
Proof.
  intros (d & t & es0 & ->). exists d, t, (es0 ++ es). unfold run. by rewrite foldl_app.
Qed.

End Registration.

Section Stuck.
Implicit Types (s : state) (e : event) (p q : nat) (user : BtUser).

(** A registration whose promise has settled with [null] is never removed
    and its promise never changes. *)
Lemma step_stuck s e u p :
  registered s → numbered s →
  activeFetches s !! u = Some p → promises s !! p = Some (Resolved None) →
  activeFetches (step s e) !! u = Some p ∧
  promises (step s e) !! p = Some (Resolved None).
Proof.
  intros Hreg [Hprom Hact] Hu Hp.
  assert (Hlt : p < nextPromise s) by (apply Hprom; by rewrite Hp).
  destruct e as [user|q r|q|k r|ms|point]; cbn [step].
  - destruct (updateBlocks_fields user s) as (_ & _ & _ & _ & _ & Hcase).
    destruct (activeFetches s !! uid user) as [p0|] eqn:Hactive;
      destruct Hcase as (-> & -> & _).
    + split; [done|]. rewrite lookup_insert_ne; [done|lia].
    + split.
      * rewrite lookup_insert_ne; [done|]. intros Heq. congruence.
      * rewrite lookup_insert_ne; [done|lia].
  - pose proof (onBlocksIds_cases q r s) as Hcase.
    destruct (promises s !! q) as [[user blockBatch c| |]|] eqn:Hq;
      [|by rewrite Hcase..].
    assert (Hne : q ≠ p) by congruence.
    destruct (Hreg q _ user blockBatch Hq eq_refl) as [Hactive Hsource].
    destruct Hcase as [_ Hcase]. destruct r as [results|statusCode].
    + destruct Hcase as (b & Hb & Hcase).
      assert (Hbu : BlockBatch.source_uid b = uid user).
      { rewrite Hb. destruct blockBatch; [by apply Hsource|done]. }
      destruct (decide (next_cursor_str results = "0")); destruct Hcase as [-> ->];
        (split; [|by rewrite lookup_insert_ne]); [|done].
      rewrite lookup_delete_ne; [done|]. rewrite Hbu. intros Heq. congruence.
    + destruct Hcase as [-> ->]. split; [done|]. by rewrite lookup_insert_ne.
  - pose proof (onDelayElapsed_cases q s) as Hcase.
    destruct (promises s !! q) as [[| user b c wake |]|] eqn:Hq;
      [by rewrite Hcase| |by rewrite Hcase..].
    destruct (decide (wake ≤ now s)%Z); rewrite Hcase; [|done].
    split; [done|]. cbn [promises]. rewrite lookup_insert_ne; [done|congruence].
  - unfold onUsersLookup. by destruct (lookups s !! k).
  - done.
  - done.
Qed.

Lemma run_stuck es : ∀ s u p,
  registered s → numbered s →
  activeFetches s !! u = Some p → promises s !! p = Some (Resolved None) →
  activeFetches (run s es) !! u = Some p ∧
  promises (run s es) !! p = Some (Resolved None).
Proof.
  induction es as [|e es IH]; intros s u p Hreg Hnum Hu Hp; [done|].
  destruct (step_stuck s e u p Hreg Hnum Hu Hp) as [Hu' Hp'].
  apply (IH (step s e)); [by apply step_registered|by apply step_numbered|done..].
Qed.

End Stuck.

(** C1 (the code does otherwise).  When the request of a fetch fails with
    anything but a rate limit, or with a rate limit before a batch exists,
    the promise settles with [null] and the entry of [activeFetches] stays,
    whatever happens afterwards: every later [updateBlocks] for the user
    finds the entry, sends no request and returns a promise that is already
    resolved with [null]. *)
Theorem aborted_fetch_stays_registered (s : state) (p : nat) (user : BtUser)
    (blockBatch : option BlockBatch.row) (c : string) (statusCode : Z)
    (es : list event) :
  reachable s →
  promises s !! p = Some (AwaitBlocksIds user blockBatch c) →
  statusCode ≠ 429%Z ∨ blockBatch = None →
  promises (run s (BlocksIds p (IdsErr statusCode) :: es)) !! p = Some (Resolved None) ∧
  activeFetches (run s (BlocksIds p (IdsErr statusCode) :: es)) !! uid user = Some p ∧
  promises (updateBlocks user (run s (BlocksIds p (IdsErr statusCode) :: es))).2
    !! (updateBlocks user (run s (BlocksIds p (IdsErr statusCode) :: es))).1
    = Some (Resolved None) ∧
  requests (updateBlocks user (run s (BlocksIds p (IdsErr statusCode) :: es))).2
    = requests (run s (BlocksIds p (IdsErr statusCode) :: es)).
Proof.
  intros Hreach Hp Habort.
  destruct (reachable_invariants s Hreach) as [Hreg Hnum].
  destruct (Hreg p _ user blockBatch Hp eq_refl) as [Hactive _].
  set (s1 := step s (BlocksIds p (IdsErr statusCode))).
  assert (Hs1 : activeFetches s1 !! uid user = Some p ∧
                promises s1 !! p = Some (Resolved None)).
  { subst s1. cbn [step]. pose proof (onBlocksIds_cases p (IdsErr statusCode) s) as Hcase.
    rewrite Hp in Hcase. destruct Hcase as (_ & -> & ->). split; [done|].
    rewrite lookup_insert_eq. destruct blockBatch as [b0|]; [|done].
    destruct Habort as [Hcode|?]; [|done]. by rewrite decide_False. }
  destruct Hs1 as [Hu1 Hp1].
  change (run s (BlocksIds p (IdsErr statusCode) :: es)) with (run s1 es).
  destruct (run_stuck es s1 (uid user) p) as [Hu2 Hp2];
    [by apply step_registered|by apply step_numbered|done..|].
  split; [done|]. split; [done|].
  destruct (updateBlocks_fields user (run s1 es)) as (-> & _ & _ & _ & _ & Hcase).
  rewrite Hu2 in Hcase. destruct Hcase as (_ & -> & ->).
  by rewrite lookup_insert_eq.
Qed.

Lemma aborted_fetch_stays_registered_witness :
  promises (run (run (initial emptyDB 0) [UpdateBlocks user7])
              (BlocksIds 0 (IdsErr 429) :: [Tick 86400000; UpdateBlocks user7]))
    !! 0 = Some (Resolved None) ∧
  activeFetches (run (run (initial emptyDB 0) [UpdateBlocks user7])
              (BlocksIds 0 (IdsErr 429) :: [Tick 86400000; UpdateBlocks user7]))
    !! uid user7 = Some 0 ∧
  promises (updateBlocks user7 (run (run (initial emptyDB 0) [UpdateBlocks user7])
              (BlocksIds 0 (IdsErr 429) :: [Tick 86400000; UpdateBlocks user7]))).2
    !! (updateBlocks user7 (run (run (initial emptyDB 0) [UpdateBlocks user7])
              (BlocksIds 0 (IdsErr 429) :: [Tick 86400000; UpdateBlocks user7]))).1
    = Some (Resolved None) ∧
  requests (updateBlocks user7 (run (run (initial emptyDB 0) [UpdateBlocks user7])
              (BlocksIds 0 (IdsErr 429) :: [Tick 86400000; UpdateBlocks user7]))).2
    = requests (run (run (initial emptyDB 0) [UpdateBlocks user7])
              (BlocksIds 0 (IdsErr 429) :: [Tick 86400000; UpdateBlocks user7])).
Proof.
  apply (aborted_fetch_stays_registered
           (run (initial emptyDB 0) [UpdateBlocks user7]) 0 user7 None "-1" 429
           [Tick 86400000; UpdateBlocks user7]).
  - exists emptyDB, 0%Z, [UpdateBlocks user7]. reflexivity.
  - vm_compute. reflexivity.
  - right. reflexivity.
Defined.

(* ================================================================== *)
(** * What the fetch writes does not depend on the recorded actions *)

Section SnapshotStore.
Implicit Types (d : DB) (s : state).

Lemma recordAction_store (src k : string) t now d :
  snapshotStore (recordAction src k t now d).1 = snapshotStore d.
Proof.
  destruct (Action_find src k t now d) as [a|] eqn:Hfind.
  - by rewrite (recordAction_found _ _ _ _ _ _ Hfind).
  - by rewrite (recordAction_not_found _ _ _ _ _ Hfind).
Qed.

Lemma forEach_store body l :
  (∀ x d, snapshotStore (body x d).1 = snapshotStore d) →
  ∀ d, snapshotStore (forEach body l d).1 = snapshotStore d.
Proof.
  intros Hbody. induction l as [|x l IH]; intros d; [done|].
  cbn [forEach fst]. by rewrite IH, Hbody.
Qed.

Lemma recordBlocks_store source added now d :
  snapshotStore (recordBlocks source added now d).1 = snapshotStore d.
Proof.
  unfold recordBlocks. apply forEach_store. intros x d'. apply recordAction_store.
Qed.

Lemma lookupCallback_store p r now d :
  snapshotStore (lookupCallback p r now d).1 = snapshotStore d.
Proof.
  destruct r as [response|statusCode]; [|by unfold lookupCallback; case_decide].
  unfold lookupCallback. apply forEach_store. intros x d'. unfold recordIfPresent.
  destruct (indexBy response !! x); [apply recordAction_store|done].
Qed.

(** The queries of the diff and of the pruning read the snapshot store only. *)
Lemma latestComplete_store b d1 d2 :
  snapshotStore d1 = snapshotStore d2 → latestComplete b d1 = latestComplete b d2.
Proof. unfold snapshotStore, latestComplete. by intros [= -> _ _ _]. Qed.

Lemma snapshotIds_store b d1 d2 :
  snapshotStore d1 = snapshotStore d2 → snapshotIds b d1 = snapshotIds b d2.
Proof. unfold snapshotStore, snapshotIds, getBlocks. by intros [= _ -> _ _]. Qed.

Lemma diffBatchWithPrevious_eq b now d :
  diffBatchWithPrevious b now d =
  match latestComplete b d with
  | [currentBatch; oldBatch] =>
      ((recordBlocks (BlockBatch.source_uid b)
          (addedBlockIds (snapshotIds currentBatch d) (snapshotIds oldBatch d)) now d).1,
       (recordUnblocksUnlessDeactivated (BlockBatch.source_uid b) 0
          {[0 := removedBlockIds (snapshotIds currentBatch d) (snapshotIds oldBatch d)]}
          []).2)
  | _ => (d, [])
  end.
Proof.
  unfold diffBatchWithPrevious, diffBatchWithPrevious_among. cbv zeta.
  by destruct (latestComplete b d) as [|b1 [|b2 [|b3 l]]].
Qed.

Lemma diffBatchWithPrevious_store b now d :
  snapshotStore (diffBatchWithPrevious b now d).1 = snapshotStore d.
Proof.
  rewrite diffBatchWithPrevious_eq.
  destruct (latestComplete b d) as [|b1 [|b2 [|b3 l]]]; [done..| |done].
  cbn [fst]. apply recordBlocks_store.
Qed.

Lemma diffBatchWithPrevious_sent b now1 now2 d1 d2 :
  snapshotStore d1 = snapshotStore d2 →
  (diffBatchWithPrevious b now1 d1).2 = (diffBatchWithPrevious b now2 d2).2.
Proof.
  intros Hstore. rewrite !diffBatchWithPrevious_eq.
  rewrite (latestComplete_store b d1 d2 Hstore).
  destruct (latestComplete b d2) as [|b1 [|b2 [|b3 l]]]; [done..| |done].
  cbn [snd]. by rewrite (snapshotIds_store b1 d1 d2), (snapshotIds_store b2 d1 d2).
Qed.

Lemma destroyOldBlocks_store u d1 d2 :
  snapshotStore d1 = snapshotStore d2 →
  snapshotStore (destroyOldBlocks u d1) = snapshotStore (destroyOldBlocks u d2).
Proof.
  unfold snapshotStore. intros [= Hb Hk Ht Hn].
  unfold destroyOldBlocks, oldBlockBatches. rewrite Hb.
  destruct (drop 4 _); simpl; congruence.
Qed.

Lemma destroyOldBlocks_counter u d :
  nextBlockBatchId (destroyOldBlocks u d) = nextBlockBatchId d.
Proof. unfold destroyOldBlocks. by destruct (oldBlockBatches u d). Qed.

Lemma BlockBatch_save_store b d1 d2 :
  snapshotStore d1 = snapshotStore d2 →
  snapshotStore (BlockBatch_save b d1) = snapshotStore (BlockBatch_save b d2).
Proof. unfold snapshotStore. intros [= Hb Hk Ht Hn]. simpl. congruence. Qed.

Lemma handleIds_store b c results d1 d2 :
  snapshotStore d1 = snapshotStore d2 →
  snapshotStore (handleIds b c results d1).1.1 = snapshotStore (handleIds b c results d2).1.1 ∧
  (handleIds b c results d1).1.2 = (handleIds b c results d2).1.2 ∧
  (handleIds b c results d1).2 = (handleIds b c results d2).2.
Proof. unfold snapshotStore. intros [= Hb Hk Ht Hn]. simpl. rewrite Hb, Hk, Ht, Hn. done. Qed.

Lemma BlockBatch_create_store u d1 d2 :
  snapshotStore d1 = snapshotStore d2 →
  snapshotStore (BlockBatch_create u d1).1 = snapshotStore (BlockBatch_create u d2).1 ∧
  (BlockBatch_create u d1).2 = (BlockBatch_create u d2).2.
Proof. unfold snapshotStore. intros [= Hb Hk Ht Hn]. simpl. rewrite Hb, Hk, Ht, Hn. done. Qed.

(** The diff among a pruning: whenever the destroy takes effect, the
    snapshot store is left as the pruning leaves it ... *)
Lemma diffAmongPruning_store pt u b now d :
  snapshotStore (diffBatchWithPrevious_among (destroyOldBlocks_at pt u) b now d).1
  = snapshotStore (destroyOldBlocks u d).
Proof.
  unfold diffBatchWithPrevious_among, destroyOldBlocks_at. cbv zeta.
  destruct pt; simpl;
    match goal with
    | |- context [latestComplete b ?x] =>
        destruct (latestComplete b x) as [|b1 [|b2 [|b3 l]]]
    end; cbn [fst]; rewrite ?recordBlocks_store; done.
Qed.

(** ... and the lookups it sends depend on the snapshot store only. *)
Lemma diffAmongPruning_sent pt u b now1 now2 d1 d2 :
  snapshotStore d1 = snapshotStore d2 →
  (diffBatchWithPrevious_among (destroyOldBlocks_at pt u) b now1 d1).2
  = (diffBatchWithPrevious_among (destroyOldBlocks_at pt u) b now2 d2).2.
Proof.
  intros Hstore.
  pose proof (destroyOldBlocks_store u d1 d2 Hstore) as Hpruned.
  unfold diffBatchWithPrevious_among, destroyOldBlocks_at. cbv zeta.
  destruct pt; simpl.
  - rewrite (latestComplete_store b _ _ Hpruned).
    destruct (latestComplete b _) as [|b1 [|b2 [|b3 l]]]; [done..| |done].
    cbn [snd]. by rewrite (snapshotIds_store b1 _ _ Hpruned), (snapshotIds_store b2 _ _ Hpruned).
  - rewrite (latestComplete_store b _ _ Hstore).
    destruct (latestComplete b _) as [|b1 [|b2 [|b3 l]]]; [done..| |done].
    cbn [snd]. by rewrite (snapshotIds_store b1 _ _ Hpruned), (snapshotIds_store b2 _ _ Hpruned).
  - rewrite (latestComplete_store b _ _ Hstore).
    destruct (latestComplete b _) as [|b1 [|b2 [|b3 l]]]; [done..| |done].
    cbn [snd]. by rewrite (snapshotIds_store b1 _ _ Hstore), (snapshotIds_store b2 _ _ Hpruned).
  - rewrite (latestComplete_store b _ _ Hstore).
    destruct (latestComplete b _) as [|b1 [|b2 [|b3 l]]]; [done..| |done].
    cbn [snd]. by rewrite (snapshotIds_store b1 _ _ Hstore), (snapshotIds_store b2 _ _ Hstore).
Qed.

(** The snapshot store and the lookups after sealing, from those before. *)
Lemma finalizeBlockBatch_store p b s1 s2 :
  sameSnapshots s1 s2 → destroyAt s1 = destroyAt s2 →
  sameSnapshots (finalizeBlockBatch p b s1) (finalizeBlockBatch p b s2) ∧
  destroyAt (finalizeBlockBatch p b s1) = destroyAt (finalizeBlockBatch p b s2).
Proof.
  intros (Hstore & Ha & Hp & Hn & Hl) Hat. unfold finalizeBlockBatch. cbv zeta.
  set (b' := BlockBatch.mk _ _ _ _ true).
  pose proof (BlockBatch_save_store b' _ _ Hstore) as Hsave.
  rewrite <- Hat.
  pose proof (diffAmongPruning_sent (destroyAt s1) (BlockBatch.source_uid b') b'
                (now s1) (now s2) _ _ Hsave) as Hsent.
  pose proof (diffAmongPruning_store (destroyAt s1) (BlockBatch.source_uid b') b'
                (now s1) (BlockBatch_save b' (db s1))) as H1.
  pose proof (diffAmongPruning_store (destroyAt s1) (BlockBatch.source_uid b') b'
                (now s2) (BlockBatch_save b' (db s2))) as H2.
  destruct (diffBatchWithPrevious_among _ b' (now s1) _) as [d1 sent1].
  destruct (diffBatchWithPrevious_among _ b' (now s2) _) as [d2 sent2].
  cbn [fst snd] in *. subst sent2.
  unfold sameSnapshots; cbn [db activeFetches promises nextPromise lookups destroyAt].
  rewrite Ha, Hp, Hn, Hl. split; [|done]. split; [|done].
  rewrite H1, H2. by apply destroyOldBlocks_store.
Qed.

Lemma onBlocksIds_store p results s1 s2 :
  sameSnapshots s1 s2 → destroyAt s1 = destroyAt s2 →
  sameSnapshots (onBlocksIds p (IdsOk results) s1) (onBlocksIds p (IdsOk results) s2) ∧
  destroyAt (onBlocksIds p (IdsOk results) s1) = destroyAt (onBlocksIds p (IdsOk results) s2).
Proof.
  intros Hsame Hat. pose proof Hsame as (Hstore & Ha & Hp & Hn & Hl).
  unfold onBlocksIds. rewrite <- Hp.
  destruct (promises s1 !! p) as [[user blockBatch c| |]|]; [|done..].
  assert (Hbatch :
    snapshotStore (match blockBatch with
                   | None => BlockBatch_create (uid user) (db s1)
                   | Some b => (db s1, b)
                   end).1 =
    snapshotStore (match blockBatch with
                   | None => BlockBatch_create (uid user) (db s2)
                   | Some b => (db s2, b)
                   end).1 ∧
    (match blockBatch with
     | None => BlockBatch_create (uid user) (db s1)
     | Some b => (db s1, b)
     end).2 =
    (match blockBatch with
     | None => BlockBatch_create (uid user) (db s2)
     | Some b => (db s2, b)
     end).2).
  { destruct blockBatch; [done|]. by apply BlockBatch_create_store. }
  destruct (match blockBatch with
            | None => BlockBatch_create (uid user) (db s1)
            | Some b => (db s1, b)
            end) as [db1 b1].
  destruct (match blockBatch with
            | None => BlockBatch_create (uid user) (db s2)
            | Some b => (db s2, b)
            end) as [db1' b1'].
  cbn [fst snd] in Hbatch. destruct Hbatch as [Hdb1 <-].
  destruct (handleIds_store b1 c results db1 db1' Hdb1) as (Hdb2 & Hb2 & Hnc).
  destruct (handleIds b1 c results db1) as [[db2 b2] nc].
  destruct (handleIds b1 c results db1') as [[db2' b2'] nc'].
  cbn [fst snd] in Hdb2, Hb2, Hnc. subst b2' nc'.
  assert (Hsame2 : sameSnapshots (set_db db2 s1) (set_db db2' s2)).
  { by repeat split. }
  destruct (decide (nc = "0")); [by apply finalizeBlockBatch_store|].
  destruct Hsame2 as (? & ? & ? & ? & ?).
  unfold fetchAndStoreBlocks, sameSnapshots, set_db in *;
    cbn [db activeFetches promises nextPromise lookups destroyAt] in *.
  repeat split; congruence.
Qed.

End SnapshotStore.

(* ================================================================== *)
(** * Rate limits *)

Section RateLimit.
Implicit Types (s : state) (p : nat).

Lemma cursorOrStart_nonempty cursor : cursorOrStart cursor ≠ "".
Proof. destruct cursor as [c|]; [|done]. simpl. by destruct (decide (c = "")). Qed.

Lemma cursorOrStart_set c : c ≠ "" → cursorOrStart (Some c) = c.
Proof. intros Hc. simpl. by rewrite decide_False. Qed.

Lemma cursorsSet_initial d t : cursorsSet (initial d t).
Proof. intros p v Hp. simpl in Hp. by rewrite lookup_empty in Hp. Qed.

Lemma cursorsSet_insert s p v (m : gmap nat promise) :
  cursorsSet s → m = <[p := v]> (promises s) →
  match v with
  | AwaitBlocksIds _ _ c => c ≠ ""
  | AwaitDelay _ _ c _ => c ≠ ""
  | Resolved _ => True
  end →
  ∀ q w, m !! q = Some w →
    match w with
    | AwaitBlocksIds _ _ c => c ≠ ""
    | AwaitDelay _ _ c _ => c ≠ ""
    | Resolved _ => True
    end.
Proof.
  intros Hset -> Hv q w. rewrite lookup_insert_Some. intros [[_ <-]|[_ Hq]]; [done|].
  by apply (Hset q).
Qed.

Ltac by_insert Hset Hp :=
  let q := fresh "q" in let w := fresh "w" in let Hq := fresh "Hq" in
  intros q w Hq; refine (cursorsSet_insert _ _ _ _ Hset Hp _ q w Hq).

Lemma step_cursorsSet s e : cursorsSet s → cursorsSet (step s e).
Proof.
  intros Hset. destruct e as [user|p r|p|k r|ms|point]; cbn [step].
  - destruct (updateBlocks_fields user s) as (_ & _ & _ & _ & _ & Hcase).
    destruct (activeFetches s !! uid user); destruct Hcase as (_ & Hp & _);
      by_insert Hset Hp; done.
  - pose proof (onBlocksIds_cases p r s) as Hcase.
    destruct (promises s !! p) as [[user blockBatch c| |]|] eqn:Hp;
      [|by rewrite Hcase..].
    pose proof (Hset p _ Hp) as Hc. simpl in Hc.
    destruct Hcase as [_ Hcase]. destruct r as [results|statusCode].
    + destruct Hcase as (b & _ & Hcase).
      destruct (decide (next_cursor_str results = "0")); destruct Hcase as [_ Hpr];
        by_insert Hset Hpr; [done|].
      apply cursorOrStart_nonempty.
    + destruct Hcase as [_ Hpr]. by_insert Hset Hpr.
      destruct blockBatch; [|done]. by destruct (decide (statusCode = 429%Z)).
  - pose proof (onDelayElapsed_cases p s) as Hcase.
    destruct (promises s !! p) as [[| user b c wake |]|] eqn:Hp;
      [by rewrite Hcase| |by rewrite Hcase..].
    destruct (decide (wake ≤ now s)%Z); rewrite Hcase; [|done].
    intros q w Hq.
    refine (cursorsSet_insert s p _ _ Hset eq_refl _ q w Hq). apply cursorOrStart_nonempty.
  - unfold onUsersLookup. by destruct (lookups s !! k).
  - done.
  - done.
Qed.

Lemma reachable_cursorsSet s : reachable s → cursorsSet s.
Proof.
  intros (d & t & es & ->). unfold run.
  induction es as [|e es IH] using rev_ind; [apply cursorsSet_initial|].
  rewrite foldl_app. cbn [foldl]. by apply step_cursorsSet.
Qed.

(** A rate-limited exchange of a fetch that carries a batch: the promise
    waits for the same cursor as before, one more request for that cursor
    has been sent, a quarter of an hour has passed, nothing else changed. *)
Lemma exchange_limited server s p user b c :
  promises s !! p = Some (AwaitBlocksIds user (Some b) c) → c ≠ "" →
  exchange server p true s =
  mkState (db s) (activeFetches s) (promises s) (nextPromise s) (lookups s)
          (now s + 15 * 60 * 1000)%Z (requests s ++ [(p, c)]) (destroyAt s).
Proof.
  intros Hp Hc. unfold exchange, pendingCursor. rewrite Hp.
  assert (Hlimit : onBlocksIds p (IdsErr 429) s
            = set_promise p (AwaitDelay user b c (now s + 15 * 60 * 1000)%Z) s).
  { unfold onBlocksIds. rewrite Hp. by rewrite decide_True. }
  cbn [run foldl step]. rewrite Hlimit.
  unfold onDelayElapsed. cbn [promises set_promise now]. rewrite lookup_insert_eq.
  rewrite decide_True by lia.
  unfold fetchAndStoreBlocks.
  cbn [db activeFetches promises nextPromise lookups now requests destroyAt].
  rewrite (cursorOrStart_set c Hc), insert_insert_eq, (insert_id _ _ _ Hp).
  reflexivity.
Qed.

Lemma sameSnapshots_trans s1 s2 s3 :
  sameSnapshots s1 s2 → sameSnapshots s2 s3 → sameSnapshots s1 s3.
Proof.
  intros (?&?&?&?&?) (?&?&?&?&?). unfold sameSnapshots. repeat split; congruence.
Qed.

Lemma exchange_limited_same server s p :
  carriesBatch p s →
  sameSnapshots (exchange server p true s) s ∧ destroyAt (exchange server p true s) = destroyAt s.
Proof.
  unfold carriesBatch. intros Hgood.
  destruct (promises s !! p) as [[user [b|] c| |]|] eqn:Hp.
  - destruct Hgood as [_ Hc]. by rewrite (exchange_limited server s p user b c Hp Hc).
  - by destruct Hgood as [[? ?] _].
  - done.
  - unfold exchange, pendingCursor. by rewrite Hp.
  - unfold exchange, pendingCursor. by rewrite Hp.
Qed.

Lemma exchange_served_same server s1 s2 p :
  sameSnapshots s1 s2 → destroyAt s1 = destroyAt s2 →
  sameSnapshots (exchange server p false s1) (exchange server p false s2) ∧
  destroyAt (exchange server p false s1) = destroyAt (exchange server p false s2).
Proof.
  intros Hsame Hat. pose proof Hsame as (_ & _ & Hp & _).
  unfold exchange, pendingCursor. rewrite <- Hp.
  destruct (promises s1 !! p) as [[user blockBatch c| |]|]; [|done..].
  cbn [step]. by apply onBlocksIds_store.
Qed.

Lemma exchange_carriesBatch server s p limited :
  carriesBatch p s → carriesBatch p (exchange server p limited s).
Proof.
  intros Hgood. destruct limited.
  - destruct (exchange_limited_same server s p Hgood) as ((_ & _ & Hp & _) & _).
    unfold carriesBatch. by rewrite Hp.
  - unfold exchange, pendingCursor. pose proof Hgood as Hgood'.
    unfold carriesBatch in Hgood.
    destruct (promises s !! p) as [[user blockBatch c| |]|] eqn:Hp; [|done..].
    cbn [step]. pose proof (onBlocksIds_cases p (IdsOk (server c)) s) as Hcase.
    rewrite Hp in Hcase. destruct Hcase as (_ & b & _ & Hcase).
    unfold carriesBatch.
    destruct (decide (next_cursor_str (server c) = "0")); destruct Hcase as [_ ->];
      rewrite lookup_insert_eq; [done|].
    split; [by eexists|apply cursorOrStart_nonempty].
Qed.

Lemma serve_same server p schedule : ∀ s1 s2,
  carriesBatch p s1 → sameSnapshots s1 s2 → destroyAt s1 = destroyAt s2 →
  sameSnapshots (serve server p schedule s1)
                (serve server p (filter (λ limited, limited = false) schedule) s2).
Proof.
  unfold serve.
  induction schedule as [|limited schedule IH]; intros s1 s2 Hgood Hsame Hat; [done|].
  rewrite filter_cons. cbn [foldl]. destruct limited.
  - rewrite decide_False by done.
    destruct (exchange_limited_same server s1 p Hgood) as [Hsame1 Hat1].
    apply IH.
    + by apply exchange_carriesBatch.
    + by eapply sameSnapshots_trans.
    + congruence.
  - rewrite decide_True by done. cbn [foldl].
    destruct (exchange_served_same server s1 s2 p Hsame Hat) as [Hsame1 Hat1].
    apply IH; [by apply exchange_carriesBatch|done..].
Qed.

End RateLimit.

(** C7.  For a fetch that carries a batch (a page has been stored) and waits
    for the page at cursor [c]: a 429 answer sends no request and leaves the
    promise waiting for the delay, due a quarter of an hour later, with the
    same batch and cursor; while less than that has passed the elapsing of
    the delay does nothing; once it has passed, exactly one request is sent,
    for the same cursor [c].  Hence against a list that serves a fixed page
    per cursor, a run with any rate-limited exchanges in it ends with the
    same snapshots and entries, the same promise states and registrations
    as the run without them. *)
Theorem rate_limit_keeps_cursor (server : string → IdsResult) (s : state) (p : nat)
    (user : BtUser) (b : BlockBatch.row) (c : string) (schedule : list bool) :
  reachable s →
  promises s !! p = Some (AwaitBlocksIds user (Some b) c) →
  step s (BlocksIds p (IdsErr 429))
    = set_promise p (AwaitDelay user b c (now s + 15 * 60 * 1000)%Z) s ∧
  (∀ ms, (ms < 15 * 60 * 1000)%Z →
     run s [BlocksIds p (IdsErr 429); Tick ms; DelayElapsed p]
       = run s [BlocksIds p (IdsErr 429); Tick ms]) ∧
  (∀ ms, (15 * 60 * 1000 ≤ ms)%Z →
     requests (run s [BlocksIds p (IdsErr 429); Tick ms; DelayElapsed p])
       = requests s ++ [(p, c)] ∧
     promises (run s [BlocksIds p (IdsErr 429); Tick ms; DelayElapsed p]) !! p
       = Some (AwaitBlocksIds user (Some b) c) ∧
     db (run s [BlocksIds p (IdsErr 429); Tick ms; DelayElapsed p]) = db s) ∧
  sameSnapshots (serve server p schedule s)
                (serve server p (filter (λ limited, limited = false) schedule) s).
Proof.
  intros Hreach Hp.
  pose proof (reachable_cursorsSet s Hreach p _ Hp) as Hc. simpl in Hc.
  assert (Hlimit : step s (BlocksIds p (IdsErr 429))
            = set_promise p (AwaitDelay user b c (now s + 15 * 60 * 1000)%Z) s).
  { cbn [step]. unfold onBlocksIds. rewrite Hp. by rewrite decide_True. }
  split; [exact Hlimit|]. split; [|split].
  - intros ms Hms. cbn [run foldl]. rewrite Hlimit. cbn [step].
    unfold onDelayElapsed. cbn [promises set_promise now]. rewrite lookup_insert_eq.
    rewrite decide_False; [done|lia].
  - intros ms Hms. cbn [run foldl]. rewrite Hlimit. cbn [step].
    unfold onDelayElapsed. cbn [promises set_promise now]. rewrite lookup_insert_eq.
    rewrite decide_True by lia.
    unfold fetchAndStoreBlocks. cbn [db promises requests].
    rewrite (cursorOrStart_set c Hc). split; [done|]. split; [|done].
    apply lookup_insert_eq.
  - apply serve_same; [|done..]. unfold carriesBatch. rewrite Hp. split; [by eexists|done].
Qed.

Lemma rate_limit_keeps_cursor_witness :
  sameSnapshots (serve twoPageServer 0 [true; false; true] firstPageStored)
                (serve twoPageServer 0 [false] firstPageStored).
Proof.
  refine (proj2 (proj2 (proj2
    (rate_limit_keeps_cursor twoPageServer firstPageStored 0 user7
       (BlockBatch.mk 1 "7" 2 (Some "-1") false) "100" [true; false; true] _ _)))).
  - exists emptyDB, 0%Z, [UpdateBlocks user7; BlocksIds 0 (IdsOk (twoPageServer "-1"))].
    reflexivity.
  - vm_compute. reflexivity.
Defined.

Section Counter.
Implicit Types (s : state) (p : nat).

Lemma finalizeBlockBatch_counter p b s :
  nextBlockBatchId (db (finalizeBlockBatch p b s)) = nextBlockBatchId (db s).
Proof.
  unfold finalizeBlockBatch. cbv zeta.
  set (b' := BlockBatch.mk _ _ _ _ true).
  pose proof (diffAmongPruning_store (destroyAt s) (BlockBatch.source_uid b') b' (now s)
                (BlockBatch_save b' (db s))) as Hd.
  destruct (diffBatchWithPrevious_among _ b' (now s) _) as [d2 sent]. cbn [fst db] in *.
  apply (f_equal snd) in Hd. cbn [snapshotStore snd] in Hd.
  by rewrite Hd, destroyOldBlocks_counter.
Qed.

(** Only the first stored page of a fetch creates a batch. *)
Lemma onBlocksIds_counter p r s :
  nextBlockBatchId (db (onBlocksIds p r s)) =
  match promises s !! p, r with
  | Some (AwaitBlocksIds _ None _), IdsOk _ => S (nextBlockBatchId (db s))
  | _, _ => nextBlockBatchId (db s)
  end.
Proof.
  unfold onBlocksIds.
  destruct (promises s !! p) as [[user blockBatch c| |]|]; [|by destruct r..].
  destruct r as [results|statusCode].
  - assert (Hcreate :
      nextBlockBatchId (match blockBatch with
                        | None => BlockBatch_create (uid user) (db s)
                        | Some b => (db s, b)
                        end).1 =
      match blockBatch with
      | None => S (nextBlockBatchId (db s))
      | Some _ => nextBlockBatchId (db s)
      end) by (by destruct blockBatch).
    destruct (match blockBatch with
              | None => BlockBatch_create (uid user) (db s)
              | Some b => (db s, b)
              end) as [db1 b1].
    assert (Hhandle : nextBlockBatchId (handleIds b1 c results db1).1.1
                      = nextBlockBatchId db1) by done.
    destruct (handleIds b1 c results db1) as [[db2 b2] nc]. cbn [fst snd] in *.
    destruct (decide (nc = "0")).
    + rewrite finalizeBlockBatch_counter. cbn [set_db db]. rewrite Hhandle, Hcreate.
      by destruct blockBatch.
    + cbn [fetchAndStoreBlocks set_db db]. rewrite Hhandle, Hcreate. by destruct blockBatch.
  - destruct blockBatch; destruct (decide (statusCode = 429%Z)); done.
Qed.

End Counter.

(* ================================================================== *)
(** * One fetch per user *)

(** On the path that seals, the entry of [activeFetches] is removed. *)
Lemma sealed_fetch_unregisters (s : state) (p : nat) (user : BtUser)
    (blockBatch : option BlockBatch.row) (c : string) (results : IdsResult) :
  reachable s →
  promises s !! p = Some (AwaitBlocksIds user blockBatch c) →
  next_cursor_str results = "0" →
  activeFetches (step s (BlocksIds p (IdsOk results))) !! uid user = None ∧
  ∃ b, promises (step s (BlocksIds p (IdsOk results))) !! p = Some (Resolved (Some b)) ∧
       BlockBatch.complete b = true.
Proof.
  intros Hreach Hp Hlast. cbn [step].
  destruct (reachable_invariants s Hreach) as [Hreg _].
  destruct (Hreg p _ user blockBatch Hp eq_refl) as [_ Hsource].
  unfold onBlocksIds. rewrite Hp.
  pose proof (batch_of_page_source user blockBatch (db s)) as Hsrc.
  destruct (match blockBatch with
            | None => BlockBatch_create (uid user) (db s)
            | Some b => (db s, b)
            end) as [db1 b1].
  destruct (handleIds_fields b1 c results db1) as (Hnc & _ & Hsrc2 & _).
  destruct (handleIds b1 c results db1) as [[db2 b2] nextCursor].
  cbn [fst snd] in *. subst nextCursor. rewrite decide_True by done.
  destruct (finalizeBlockBatch_fields p b2 (set_db db2 s)) as (-> & -> & _).
  assert (Hbu : BlockBatch.source_uid b2 = uid user).
  { rewrite Hsrc2, Hsrc. destruct blockBatch; [by apply Hsource|done]. }
  rewrite Hbu. split; [apply lookup_delete_eq|].
  eexists. by rewrite lookup_insert_eq.
Qed.


(* ================================================================== *)
(** * The Retention Pruner *)

#[local] Instance idDesc_transitive : Transitive idDesc.
Proof. unfold idDesc. intros a b c ? ?. lia. Qed.

#[local] Instance idDesc_total : Total idDesc.
Proof. unfold idDesc. intros a b. lia. Qed.

Section Pruner.
Implicit Types (d : DB) (b : BlockBatch.row) (l : list BlockBatch.row) (u : string).

(** Rows of a table with unique ids are told apart by their id. *)
Lemma unique_id l b1 b2 :
  NoDup (BlockBatch.id <$> l) → b1 ∈ l → b2 ∈ l →
  BlockBatch.id b1 = BlockBatch.id b2 → b1 = b2.
Proof.
  induction l as [|x l IH]; [by intros _ ?%elem_of_nil|].
  rewrite fmap_cons, NoDup_cons, !elem_of_cons. intros [Hx Hnodup] H1 H2 Heq.
  destruct H1 as [->|H1], H2 as [->|H2]; [done| | |by apply IH].
  - exfalso. apply Hx. rewrite Heq. by apply list_elem_of_fmap_2.
  - exfalso. apply Hx. rewrite <- Heq. by apply list_elem_of_fmap_2.
Qed.

Lemma filter_all {A} (P : A → Prop) `{∀ x, Decision (P x)} (l : list A) :
  Forall P l → filter P l = l.
Proof.
  induction 1 as [|x l Hx _ IH]; [done|]. by rewrite filter_cons, decide_True, IH.
Qed.

Lemma filter_none {A} (P : A → Prop) `{∀ x, Decision (P x)} (l : list A) :
  Forall (λ x, ¬ P x) l → filter P l = [].
Proof.
  induction 1 as [|x l Hx _ IH]; [done|]. by rewrite filter_cons, decide_False, IH.
Qed.

Lemma filter_ext_elem {A} (P Q : A → Prop) `{∀ x, Decision (P x)} `{∀ x, Decision (Q x)}
    (l : list A) :
  (∀ x, x ∈ l → (P x ↔ Q x)) → filter P l = filter Q l.
Proof.
  induction l as [|x l IH]; intros Hext; [done|]. rewrite !filter_cons.
  rewrite IH by (intros y Hy; apply Hext; by right).
  destruct (decide (P x)) as [HP|HP], (decide (Q x)) as [HQ|HQ]; try done.
  - exfalso. apply HQ, (Hext x); [by left|done].
  - exfalso. apply HP, (Hext x); [by left|done].
Qed.

(** In a list sorted newest first with unique ids, the rows newer than the
    row at index [i] are the [i] rows before it. *)
Lemma newer_count_index l :
  StronglySorted idDesc l → NoDup (BlockBatch.id <$> l) →
  ∀ i b, l !! i = Some b →
  length (filter (λ b', BlockBatch.id b < BlockBatch.id b') l) = i.
Proof.
  induction l as [|x l IH]; [done|].
  rewrite StronglySorted_cons, fmap_cons, NoDup_cons. intros [Hx Hsorted] [Hfresh Hnodup].
  intros [|i] b Hb; rewrite filter_cons.
  - injection Hb as ->. rewrite decide_False by lia.
    rewrite filter_none; [done|]. eapply Forall_impl; [exact Hx|].
    unfold idDesc. intros y Hy. simpl in Hy. lia.
  - simpl in Hb. assert (Hin : b ∈ l) by (by eapply list_elem_of_lookup_2).
    rewrite Forall_forall in Hx. specialize (Hx b Hin). unfold idDesc in Hx.
    assert (BlockBatch.id b ≠ BlockBatch.id x).
    { intros Heq. apply Hfresh. rewrite <- Heq. by apply list_elem_of_fmap_2. }
    rewrite decide_True by lia. simpl. f_equal. by eapply IH.
Qed.

Lemma elem_of_drop_index {A} (l : list A) n x :
  x ∈ drop n l ↔ ∃ i, l !! i = Some x ∧ n ≤ i.
Proof.
  rewrite list_elem_of_lookup. split.
  - intros [j Hj]. rewrite lookup_drop in Hj. exists (n + j). split; [done|lia].
  - intros (i & Hi & Hle). exists (i - n). rewrite lookup_drop.
    by replace (n + (i - n)) with i by lia.
Qed.

(** The rows the pruner selects: the rows of the user with at least four
    newer rows of the user. *)
Lemma elem_of_oldBlockBatches u d b :
  NoDup (BlockBatch.id <$> BlockBatches d) →
  b ∈ oldBlockBatches u d ↔ b ∈ userBatches u d ∧ 4 ≤ newerBatches u b d.
Proof.
  intros Hnodup. unfold oldBlockBatches, newerBatches. fold (userBatches u d).
  set (ub := userBatches u d).
  set (l := merge_sort idDesc ub).
  assert (Hperm : l ≡ₚ ub) by apply merge_sort_Permutation.
  assert (Hsorted : StronglySorted idDesc l) by (apply StronglySorted_merge_sort; apply _).
  assert (Hnodup_l : NoDup (BlockBatch.id <$> l)).
  { rewrite Hperm. unfold ub, userBatches.
    eapply sublist_NoDup; [exact Hnodup|]. apply fmap_sublist, sublist_filter. }
  assert (Hcount : ∀ P `{∀ x, Decision (P x)},
            length (filter P l) = length (filter P ub)).
  { intros P ?. by rewrite Hperm. }
  rewrite <- Hcount, elem_of_drop_index. split.
  - intros (i & Hi & Hle). split.
    + rewrite <- Hperm. by eapply list_elem_of_lookup_2.
    + by rewrite (newer_count_index l Hsorted Hnodup_l i b Hi).
  - intros [Hin Hle]. rewrite <- Hperm in Hin.
    apply list_elem_of_lookup_1 in Hin as [i Hi]. exists i. split; [done|].
    by rewrite (newer_count_index l Hsorted Hnodup_l i b Hi) in Hle.
Qed.

Lemma BlockBatch_destroy_nil d : BlockBatch_destroy [] d = d.
Proof.
  unfold BlockBatch_destroy, set_Blocks, set_BlockBatches. destruct d; simpl.
  rewrite !filter_all; [done|..]; apply Forall_forall; intros ? _; apply not_elem_of_nil.
Qed.

Lemma destroyOldBlocks_destroy u d :
  destroyOldBlocks u d = BlockBatch_destroy (pluck BlockBatch.id (oldBlockBatches u d)) d.
Proof.
  unfold destroyOldBlocks. destruct (oldBlockBatches u d); [|done].
  by rewrite BlockBatch_destroy_nil.
Qed.

Lemma oldBlockBatches_sub u d b :
  b ∈ oldBlockBatches u d → b ∈ BlockBatches d.
Proof.
  unfold oldBlockBatches. intros Hin.
  assert (Hin' : b ∈ merge_sort idDesc (userBatches u d)).
  { eapply elem_of_sublist; [done|apply sublist_drop]. }
  rewrite merge_sort_Permutation in Hin'.
  by apply list_elem_of_filter in Hin' as [_ ?].
Qed.

(** Which snapshots and entries are left by the pruning. *)
Lemma destroyOldBlocks_elem_of u d :
  NoDup (BlockBatch.id <$> BlockBatches d) →
  (∀ b, b ∈ BlockBatches (destroyOldBlocks u d) ↔
        b ∈ BlockBatches d ∧ (BlockBatch.source_uid b ≠ u ∨ newerBatches u b d < 4)) ∧
  (∀ e, e ∈ Blocks (destroyOldBlocks u d) ↔
        e ∈ Blocks d ∧
        ∀ b, b ∈ BlockBatches d → BlockBatch.id b = Block.BlockBatchId e →
             b ∈ BlockBatches (destroyOldBlocks u d)).
Proof.
  intros Hnodup.
  assert (Hids : ∀ b, b ∈ BlockBatches d →
            BlockBatch.id b ∈ pluck BlockBatch.id (oldBlockBatches u d)
            ↔ b ∈ oldBlockBatches u d).
  { intros b Hb. unfold pluck. rewrite list_elem_of_fmap. split.
    - intros (y & Heq & Hy).
      by rewrite (unique_id _ b y Hnodup Hb (oldBlockBatches_sub u d y Hy) Heq).
    - intros Hin. by exists b. }
  assert (Hbatches : ∀ b, b ∈ BlockBatches (destroyOldBlocks u d) ↔
            b ∈ BlockBatches d ∧
            (BlockBatch.source_uid b ≠ u ∨ newerBatches u b d < 4)).
  { intros b. rewrite destroyOldBlocks_destroy. unfold BlockBatch_destroy. simpl.
    rewrite list_elem_of_filter. split.
    - intros [Hnot Hb]. split; [done|]. rewrite (Hids b Hb) in Hnot.
      rewrite (elem_of_oldBlockBatches u d b Hnodup) in Hnot.
      unfold userBatches in Hnot. rewrite list_elem_of_filter in Hnot.
      destruct (decide (BlockBatch.source_uid b = u)); [|by left]. right.
      destruct (decide (newerBatches u b d < 4)); [done|]. exfalso. apply Hnot.
      split; [done|lia].
    - intros [Hb Hkeep]. split; [|done]. rewrite (Hids b Hb).
      rewrite (elem_of_oldBlockBatches u d b Hnodup). unfold userBatches.
      rewrite list_elem_of_filter. intros [[Hu _] Hle]. destruct Hkeep; [done|lia]. }
  split; [exact Hbatches|].
  intros e. rewrite destroyOldBlocks_destroy at 1. unfold BlockBatch_destroy. simpl.
  rewrite list_elem_of_filter. split.
  - intros [Hnot He]. split; [done|]. intros b Hb Heq.
    rewrite destroyOldBlocks_destroy. unfold BlockBatch_destroy. simpl.
    rewrite list_elem_of_filter. by rewrite Heq.
  - intros [He Hkept]. split; [|done]. unfold pluck. rewrite list_elem_of_fmap.
    intros (b & Heq & Hb). pose proof (oldBlockBatches_sub u d b Hb) as Hbd.
    specialize (Hkept b Hbd (eq_sym Heq)).
    rewrite destroyOldBlocks_destroy in Hkept. unfold BlockBatch_destroy in Hkept.
    simpl in Hkept. apply list_elem_of_filter in Hkept as [Hnot _]. apply Hnot.
    unfold pluck. by apply list_elem_of_fmap_2.
Qed.

End Pruner.

Section SortedTable.
Implicit Types (d : DB) (b : BlockBatch.row) (l : list BlockBatch.row) (u : string).

Lemma idAsc_filter (P : BlockBatch.row → Prop) `{∀ x, Decision (P x)} l :
  StronglySorted idAsc l → StronglySorted idAsc (filter P l).
Proof.
  induction l as [|x l IH]; [done|]. rewrite StronglySorted_cons. intros [Hx Hl].
  rewrite filter_cons. destruct (decide (P x)); [|by apply IH].
  apply StronglySorted_cons. split; [|by apply IH].
  apply Forall_forall. intros y Hy. apply list_elem_of_filter in Hy as [_ Hy].
  rewrite Forall_forall in Hx. by apply Hx.
Qed.

Lemma idAsc_NoDup l : StronglySorted idAsc l → NoDup (BlockBatch.id <$> l).
Proof.
  induction l as [|x l IH]; [intros; constructor|].
  rewrite StronglySorted_cons, fmap_cons, NoDup_cons. intros [Hx Hl]. split; [|by apply IH].
  rewrite list_elem_of_fmap. intros (y & Heq & Hy).
  rewrite Forall_forall in Hx. specialize (Hx y Hy). unfold idAsc in Hx. lia.
Qed.

Lemma idAsc_reverse l : StronglySorted idAsc l → StronglySorted idDesc (reverse l).
Proof.
  induction l as [|x l IH]; [intros; constructor|].
  rewrite StronglySorted_cons, reverse_cons. intros [Hx Hl].
  apply StronglySorted_app_2; [|by apply IH|repeat constructor].
  intros y z Hy Hz. rewrite elem_of_reverse in Hy. apply list_elem_of_singleton in Hz as ->.
  rewrite Forall_forall in Hx. specialize (Hx y Hy). unfold idAsc in Hx. unfold idDesc. lia.
Qed.

(** On a table stored by ascending id, newest first is the reverse. *)
Lemma sort_newest_first l :
  StronglySorted idAsc l → merge_sort idDesc l = reverse l.
Proof.
  intros Hl. apply (StronglySorted_unique_strong idDesc).
  - intros x1 x2 H1 H2 H12 H21.
    rewrite merge_sort_Permutation in H1. rewrite elem_of_reverse in H2.
    apply (unique_id l x1 x2 (idAsc_NoDup l Hl) H1 H2). unfold idDesc in *. lia.
  - apply StronglySorted_merge_sort; apply _.
  - by apply idAsc_reverse.
  - by rewrite merge_sort_Permutation, reverse_Permutation.
Qed.

Lemma oldBlockBatches_sorted u d :
  wfDB d →
  oldBlockBatches u d
  = reverse (take (length (userBatches u d) - 4) (userBatches u d)).
Proof.
  intros (Hsorted & _ & _). unfold oldBlockBatches. fold (userBatches u d).
  rewrite sort_newest_first; [apply drop_reverse|]. by apply idAsc_filter.
Qed.

(** After the pruning the user has the last four of the snapshots the user
    had, and the table invariants hold again. *)
Lemma userBatches_destroyOldBlocks u d :
  wfDB d → userBatches u (destroyOldBlocks u d) = lastN 4 (userBatches u d).
Proof.
  intros Hwf. pose proof Hwf as (Hsorted & _ & _).
  rewrite destroyOldBlocks_destroy, (oldBlockBatches_sorted u d Hwf).
  unfold userBatches at 1, BlockBatch_destroy, lastN. simpl.
  set (ub := userBatches u d). set (k := length ub - 4).
  set (Q := λ b, BlockBatch.id b ∉ pluck BlockBatch.id (reverse (take k ub))).
  assert (Hswap : filter (λ b, BlockBatch.source_uid b = u) (filter Q (BlockBatches d))
                  = filter Q ub).
  { unfold ub, userBatches. rewrite !list_filter_filter. apply list_filter_iff. tauto. }
  rewrite Hswap.
  assert (Hub : StronglySorted idAsc ub) by (by apply idAsc_filter).
  pose proof (idAsc_NoDup ub Hub) as Hnodup.
  rewrite <- (take_drop k ub) at 1. rewrite filter_app.
  rewrite (filter_none Q), (filter_all Q); [done|..].
  - apply Forall_forall. intros x Hx. unfold Q, pluck.
    rewrite list_elem_of_fmap. intros (y & Heq & Hy). rewrite elem_of_reverse in Hy.
    assert (x = y).
    { apply (unique_id ub x y Hnodup); [|eapply elem_of_sublist; [done|apply sublist_take]|done].
      eapply elem_of_sublist; [done|apply sublist_drop]. }
    subst y. apply NoDup_fmap_1 in Hnodup. rewrite <- (take_drop k ub) in Hnodup.
    apply NoDup_app in Hnodup as (_ & Hdisj & _). by apply (Hdisj x).
  - apply Forall_forall. intros x Hx HQ. apply HQ. unfold pluck.
    apply list_elem_of_fmap_2. by rewrite elem_of_reverse.
Qed.

End SortedTable.

Section Sync.
Implicit Types (d : DB) (b : BlockBatch.row) (l : list BlockBatch.row) (u : string)
  (s : state).

Lemma wfDB_store d1 d2 : snapshotStore d1 = snapshotStore d2 → wfDB d1 → wfDB d2.
Proof. unfold snapshotStore, wfDB. by intros [= <- <- _ <-]. Qed.

Lemma BlockBatch_destroy_wf ids d : wfDB d → wfDB (BlockBatch_destroy ids d).
Proof.
  intros (Hsorted & Hbound & Hfk). unfold wfDB, BlockBatch_destroy. simpl.
  split; [by apply idAsc_filter|]. split.
  - apply Forall_forall. intros b Hb. apply list_elem_of_filter in Hb as [_ Hb].
    rewrite Forall_forall in Hbound. by apply Hbound.
  - apply Forall_forall. intros e He. apply list_elem_of_filter in He as [Hnot He].
    rewrite Forall_forall in Hfk. specialize (Hfk e He).
    apply list_elem_of_fmap in Hfk as (b & Heq & Hb). rewrite Heq.
    apply list_elem_of_fmap_2, list_elem_of_filter. split; [|done]. by rewrite <- Heq.
Qed.

Lemma destroyOldBlocks_wf u d : wfDB d → wfDB (destroyOldBlocks u d).
Proof. rewrite destroyOldBlocks_destroy. apply BlockBatch_destroy_wf. Qed.

Lemma destroyOldBlocks_others u d b :
  b ∈ BlockBatches (destroyOldBlocks u d) → b ∈ BlockBatches d.
Proof.
  rewrite destroyOldBlocks_destroy. unfold BlockBatch_destroy. simpl.
  rewrite list_elem_of_filter. tauto.
Qed.

(** Saving the batch of the fetch replaces the newest row. *)
Lemma save_newest l b b' :
  StronglySorted idAsc (l ++ [b]) → BlockBatch.id b' = BlockBatch.id b →
  (λ r, if decide (BlockBatch.id r = BlockBatch.id b') then b' else r) <$> (l ++ [b])
  = l ++ [b'].
Proof.
  intros Hsorted Hid. apply StronglySorted_app in Hsorted as (Hlt & _ & _).
  rewrite fmap_app. f_equal.
  - rewrite <- (list_fmap_id l) at 2. apply list_fmap_ext. intros i x Hx.
    assert (Hin : x ∈ l) by (by eapply list_elem_of_lookup_2).
    specialize (Hlt x b Hin). unfold idAsc in Hlt.
    rewrite decide_False; [done|]. rewrite Hid.
    assert (BlockBatch.id x < BlockBatch.id b) by (apply Hlt; by left). lia.
  - simpl. by rewrite decide_True.
Qed.

Lemma carrying_sorted_newest l b b' :
  StronglySorted idAsc (l ++ [b]) → BlockBatch.id b' = BlockBatch.id b →
  StronglySorted idAsc (l ++ [b']).
Proof.
  rewrite !StronglySorted_app. intros (Hlt & Hl & _) Hid. split; [|split; [done|]].
  - intros x y Hx ->%list_elem_of_singleton. unfold idAsc. rewrite Hid.
    apply (Hlt x b Hx). by left.
  - repeat constructor.
Qed.

Lemma BlockBatch_create_carrying u d0 :
  wfDB d0 → carrying d0 u (BlockBatch_create u d0).2 (BlockBatch_create u d0).1.
Proof.
  intros (Hsorted & Hbound & Hfk). unfold carrying, wfDB. simpl.
  split; [|done]. split; [|split].
  - apply StronglySorted_app_2; [|done|repeat constructor].
    intros x y Hx ->%list_elem_of_singleton. rewrite Forall_forall in Hbound.
    by apply Hbound.
  - apply Forall_app. split; [|by repeat constructor].
    eapply Forall_impl; [exact Hbound|]. simpl. lia.
  - eapply Forall_impl; [exact Hfk|]. intros e He. simpl in He.
    rewrite fmap_app, elem_of_app. by left.
Qed.

(** Changing fields other than the id, the user and the flag of the batch
    of the fetch, and adding entries for it, keeps the fetch's database. *)
Lemma save_carrying d0 u b d b' entries :
  carrying d0 u b d →
  BlockBatch.id b' = BlockBatch.id b → BlockBatch.source_uid b' = u →
  Forall (λ e, Block.BlockBatchId e = BlockBatch.id b) entries →
  wfDB (set_Blocks (λ bs, bs ++ entries) (BlockBatch_save b' d)) ∧
  BlockBatches (set_Blocks (λ bs, bs ++ entries) (BlockBatch_save b' d))
    = BlockBatches d0 ++ [b'] ∧
  nextBlockBatchId (set_Blocks (λ bs, bs ++ entries) (BlockBatch_save b' d))
    = S (nextBlockBatchId d0).
Proof.
  intros ((Hsorted & Hbound & Hfk) & Hb & Hnext & Hid & Hu & _) Hid' Hu' Hentries.
  unfold wfDB, BlockBatch_save. simpl.
  rewrite Hb in Hsorted. rewrite Hb, (save_newest _ b b' Hsorted Hid').
  split; [|done]. split; [by eapply carrying_sorted_newest|]. split.
  - rewrite Hb in Hbound. apply Forall_app in Hbound as [Hbound Hlast].
    apply Forall_app. split; [done|]. constructor; [|done].
    apply Forall_singleton in Hlast. simpl in *. lia.
  - rewrite !fmap_app. simpl. rewrite Hid'. apply Forall_app. split.
    + eapply Forall_impl; [exact Hfk|]. intros e He. simpl in He.
      by rewrite Hb, fmap_app in He.
    + eapply Forall_impl; [exact Hentries|]. intros e ->. simpl.
      apply elem_of_app. right. by left.
Qed.

Lemma handleIds_carrying d0 u b d c results :
  carrying d0 u b d →
  carrying d0 u (handleIds b c results d).1.2 (handleIds b c results d).1.1.
Proof.
  intros Hcarry. pose proof Hcarry as (_ & _ & _ & Hid & Hu & Hc).
  unfold handleIds. cbv zeta. cbn [fst snd].
  set (b' := BlockBatch.mk _ _ _ _ _).
  set (entries := (λ id, Block.mk id (BlockBatch.id b')) <$> ids results).
  destruct (save_carrying d0 u b d b' entries Hcarry) as (Hwf & Hb & Hn); [done..| |].
  { unfold entries. apply Forall_fmap, Forall_forall. by intros. }
  split; [exact Hwf|].
  split; [exact Hb|]. split; [exact Hn|]. done.
Qed.


Lemma batch_of_page_carrying d0 user (blockBatch : option BlockBatch.row) d :
  wfDB d0 →
  match blockBatch with
  | None => d = d0
  | Some b => carrying d0 (uid user) b d
  end →
  carrying d0 (uid user)
    (match blockBatch with
     | None => BlockBatch_create (uid user) d
     | Some b => (d, b)
     end).2
    (match blockBatch with
     | None => BlockBatch_create (uid user) d
     | Some b => (d, b)
     end).1.
Proof.
  intros Hwf Hcase. destruct blockBatch as [b|]; [done|]. subst d.
  by apply BlockBatch_create_carrying.
Qed.

(** A page that is not the last keeps the fetch going. *)
Lemma page_fetching d0 user p s results :
  wfDB d0 → fetching d0 user p s → next_cursor_str results ≠ "0" →
  fetching d0 user p (step s (BlocksIds p (IdsOk results))).
Proof.
  intros Hwf (Hactive & blockBatch & c & Hp & Hcase) Hmore.
  pose proof (batch_of_page_carrying d0 user blockBatch (db s) Hwf Hcase) as Hcarry.
  cbn [step]. unfold onBlocksIds. rewrite Hp.
  destruct (match blockBatch with
            | None => BlockBatch_create (uid user) (db s)
            | Some b => (db s, b)
            end) as [db1 b1]. cbn [fst snd] in Hcarry.
  pose proof (handleIds_carrying d0 (uid user) b1 db1 c results Hcarry) as Hcarry2.
  destruct (handleIds_fields b1 c results db1) as (Hnc & _).
  destruct (handleIds b1 c results db1) as [[db2 b2] nc]. cbn [fst snd] in *. subst nc.
  rewrite decide_False by done.
  split; [done|]. exists (Some b2), (cursorOrStart (Some (next_cursor_str results))).
  split; [|done]. cbn [fetchAndStoreBlocks promises set_db]. apply lookup_insert_eq.
Qed.

Lemma run_pages d0 user p init : ∀ s,
  wfDB d0 → fetching d0 user p s →
  Forall (λ r, next_cursor_str r ≠ "0") init →
  fetching d0 user p (run s ((λ r, BlocksIds p (IdsOk r)) <$> init)).
Proof.
  induction init as [|r init IH]; intros s Hwf Hfetch Hinit; [done|].
  apply Forall_cons in Hinit as [Hr Hinit]. rewrite fmap_cons. cbn [run foldl].
  apply IH; [done| |done]. by apply page_fetching.
Qed.

(** The last page seals the batch and prunes the snapshots of the user. *)
Lemma last_page d0 user p s results :
  wfDB d0 → fetching d0 user p s → next_cursor_str results = "0" →
  wfDB (db (step s (BlocksIds p (IdsOk results)))) ∧
  activeFetches (step s (BlocksIds p (IdsOk results))) !! uid user = None ∧
  nextBlockBatchId (db (step s (BlocksIds p (IdsOk results)))) = S (nextBlockBatchId d0) ∧
  ∃ b', BlockBatch.id b' = nextBlockBatchId d0 ∧ BlockBatch.complete b' = true ∧
    userBatches (uid user) (db (step s (BlocksIds p (IdsOk results))))
      = lastN 4 (userBatches (uid user) d0 ++ [b']) ∧
    ∀ b, b ∈ BlockBatches (db (step s (BlocksIds p (IdsOk results)))) →
         BlockBatch.source_uid b ≠ uid user → b ∈ BlockBatches d0.
Proof.
  intros Hwf (Hactive & blockBatch & c & Hp & Hcase) Hlast.
  pose proof (batch_of_page_carrying d0 user blockBatch (db s) Hwf Hcase) as Hcarry.
  cbn [step]. unfold onBlocksIds. rewrite Hp.
  destruct (match blockBatch with
            | None => BlockBatch_create (uid user) (db s)
            | Some b => (db s, b)
            end) as [db1 b1]. cbn [fst snd] in Hcarry.
  pose proof (handleIds_carrying d0 (uid user) b1 db1 c results Hcarry) as Hcarry2.
  destruct (handleIds_fields b1 c results db1) as (Hnc & _).
  destruct (handleIds b1 c results db1) as [[db2 b2] nc]. cbn [fst snd] in *. subst nc.
  rewrite decide_True by done. clear Hcarry Hcase Hp.
  unfold finalizeBlockBatch. cbv zeta. cbn [set_db db activeFetches now].
  set (b' := BlockBatch.mk _ _ _ _ true).
  pose proof Hcarry2 as (_ & _ & _ & Hid & Hu & _).
  destruct (save_carrying d0 (uid user) b2 db2 b' [] Hcarry2) as (Hwf3 & Hb3 & Hn3);
    [done..|by constructor|].
  assert (Hwf3' : wfDB (BlockBatch_save b' db2)).
  { destruct Hwf3 as (? & ? & Hfk). split; [done|]. split; [done|].
    simpl in Hfk. by rewrite app_nil_r in Hfk. }
  assert (Hu' : BlockBatch.source_uid b' = uid user) by exact Hu.
  pose proof (diffAmongPruning_store (destroyAt s) (BlockBatch.source_uid b') b' (now s)
                (BlockBatch_save b' db2)) as Hstore.
  destruct (diffBatchWithPrevious_among _ b' (now s) (BlockBatch_save b' db2)) as [d4 sent].
  cbn [fst db activeFetches] in *. rewrite Hu' in Hstore.
  set (d3 := BlockBatch_save b' db2) in *.
  assert (Hb3' : BlockBatches d3 = BlockBatches d0 ++ [b']).
  { simpl in Hb3. exact Hb3. }
  assert (Hb4 : BlockBatches d4 = BlockBatches (destroyOldBlocks (uid user) d3)).
  { apply (f_equal (λ x, x.1.1.1)) in Hstore. exact Hstore. }
  assert (Hub4 : userBatches (uid user) d4 = userBatches (uid user) (destroyOldBlocks (uid user) d3)).
  { unfold userBatches. by rewrite Hb4. }
  split; [eapply wfDB_store; [symmetry; exact Hstore|by apply destroyOldBlocks_wf]|].
  split; [by rewrite Hu'; apply lookup_delete_eq|].
  split.
  { apply (f_equal snd) in Hstore. cbn [snapshotStore snd] in Hstore.
    rewrite Hstore, destroyOldBlocks_counter. simpl in Hn3. exact Hn3. }
  exists b'. split; [done|]. split; [done|]. split.
  - rewrite Hub4, (userBatches_destroyOldBlocks _ _ Hwf3'). f_equal.
    unfold userBatches. rewrite Hb3', filter_app. f_equal.
    rewrite filter_cons, decide_True by done. done.
  - intros b Hb Hother. rewrite Hb4 in Hb. apply destroyOldBlocks_others in Hb.
    rewrite Hb3', elem_of_app in Hb. destruct Hb as [Hb|Hb]; [done|].
    apply list_elem_of_singleton in Hb as ->. done.
Qed.

(** One whole sync that seals, on a table that satisfies the invariants. *)
Lemma sync_sealed user s pages :
  wfDB (db s) → activeFetches s !! uid user = None → sealing pages →
  wfDB (db (sync user s pages)) ∧
  activeFetches (sync user s pages) !! uid user = None ∧
  nextBlockBatchId (db (sync user s pages)) = S (nextBlockBatchId (db s)) ∧
  ∃ b', BlockBatch.id b' = nextBlockBatchId (db s) ∧ BlockBatch.complete b' = true ∧
    userBatches (uid user) (db (sync user s pages))
      = lastN 4 (userBatches (uid user) (db s) ++ [b']) ∧
    ∀ b, b ∈ BlockBatches (db (sync user s pages)) →
         BlockBatch.source_uid b ≠ uid user → b ∈ BlockBatches (db s).
Proof.
  intros Hwf Hnone (init & last & -> & Hlast & Hinit).
  assert (Hrun : sync user s (init ++ [last]) =
            step (run (step s (UpdateBlocks user))
                      ((λ r, BlocksIds (nextPromise s) (IdsOk r)) <$> init))
                 (BlocksIds (nextPromise s) (IdsOk last))).
  { unfold sync, run. rewrite fmap_app. cbn [foldl]. by rewrite foldl_app. }
  rewrite Hrun.
  apply last_page; [done| |done]. apply run_pages; [done| |done].
  cbn [step]. destruct (updateBlocks_fields user s) as (_ & _ & Hd & _ & _ & Hcase).
  rewrite Hnone in Hcase. destruct Hcase as (Ha & Hpr & _).
  split; [rewrite Ha; apply lookup_insert_eq|].
  exists None, "-1". split; [rewrite Hpr; apply lookup_insert_eq|done].
Qed.

End Sync.

Section SixSyncs.
Implicit Types (d : DB) (b : BlockBatch.row) (s : state).

(** Six sealed syncs in a row of a user who had no snapshot. *)
Lemma six_sealed_syncs user s syncs :
  wfDB (db s) → activeFetches s !! uid user = None →
  userBatches (uid user) (db s) = [] →
  length syncs = 6 → Forall sealing syncs →
  BlockBatch.id <$> userBatches (uid user) (db (foldl (sync user) s syncs))
    = (λ i, nextBlockBatchId (db s) + i) <$> [2; 3; 4; 5] ∧
  Forall (λ b, BlockBatch.complete b = true)
         (userBatches (uid user) (db (foldl (sync user) s syncs))) ∧
  ∀ e, e ∈ Blocks (db (foldl (sync user) s syncs)) →
       Block.BlockBatchId e ≠ nextBlockBatchId (db s) ∧
       Block.BlockBatchId e ≠ nextBlockBatchId (db s) + 1.
Proof.
  intros Hwf0 Hnone0 Hub0 Hlen Hseal.
  destruct syncs as [|g1 [|g2 [|g3 [|g4 [|g5 [|g6 [|g7 rest]]]]]]]; try discriminate Hlen.
  clear Hlen. repeat (apply Forall_cons in Hseal as [? Hseal]). clear Hseal.
  cbn [foldl].
  set (n := nextBlockBatchId (db s)) in *.
  destruct (sync_sealed user s g1) as (Hwf1 & Hnone1 & Hn1 & b1 & Hid1 & Hc1 & Hub1 & Hoth1);
    [done..|].
  set (s1 := sync user s g1) in *. rewrite Hub0 in Hub1. change (userBatches (uid user) (db s1) = [b1]) in Hub1.
  destruct (sync_sealed user s1 g2) as (Hwf2 & Hnone2 & Hn2 & b2 & Hid2 & Hc2 & Hub2 & Hoth2);
    [done..|].
  set (s2 := sync user s1 g2) in *. rewrite Hub1 in Hub2. change (userBatches (uid user) (db s2) = [b1; b2]) in Hub2.
  destruct (sync_sealed user s2 g3) as (Hwf3 & Hnone3 & Hn3 & b3 & Hid3 & Hc3 & Hub3 & Hoth3);
    [done..|].
  set (s3 := sync user s2 g3) in *. rewrite Hub2 in Hub3. change (userBatches (uid user) (db s3) = [b1; b2; b3]) in Hub3.
  destruct (sync_sealed user s3 g4) as (Hwf4 & Hnone4 & Hn4 & b4 & Hid4 & Hc4 & Hub4 & Hoth4);
    [done..|].
  set (s4 := sync user s3 g4) in *. rewrite Hub3 in Hub4. change (userBatches (uid user) (db s4) = [b1; b2; b3; b4]) in Hub4.
  destruct (sync_sealed user s4 g5) as (Hwf5 & Hnone5 & Hn5 & b5 & Hid5 & Hc5 & Hub5 & Hoth5);
    [done..|].
  set (s5 := sync user s4 g5) in *. rewrite Hub4 in Hub5. change (userBatches (uid user) (db s5) = [b2; b3; b4; b5]) in Hub5.
  destruct (sync_sealed user s5 g6) as (Hwf6 & Hnone6 & Hn6 & b6 & Hid6 & Hc6 & Hub6 & Hoth6);
    [done..|].
  set (s6 := sync user s5 g6) in *. rewrite Hub5 in Hub6. change (userBatches (uid user) (db s6) = [b3; b4; b5; b6]) in Hub6.
  rewrite Hub6. split; [|split].
  - simpl. rewrite Hid3, Hid4, Hid5, Hid6, Hn5, Hn4, Hn3, Hn2, Hn1.
    repeat f_equal; lia.
  - by repeat constructor.
  - intros e He. destruct Hwf6 as (_ & _ & Hfk). rewrite Forall_forall in Hfk.
    specialize (Hfk e He). apply list_elem_of_fmap in Hfk as (b & -> & Hb).
    destruct (decide (BlockBatch.source_uid b = uid user)) as [Hu|Hu].
    + assert (Hin : b ∈ userBatches (uid user) (db s6)).
      { unfold userBatches. by apply list_elem_of_filter. }
      rewrite Hub6 in Hin. rewrite !elem_of_cons, elem_of_nil in Hin.
      destruct Hin as [->|[->|[->|[->|[]]]]]; lia.
    + assert (Hin : b ∈ BlockBatches (db s)).
      { apply Hoth1; [|done]. apply Hoth2; [|done]. apply Hoth3; [|done].
        apply Hoth4; [|done]. apply Hoth5; [|done]. by apply Hoth6. }
      destruct Hwf0 as (_ & Hbound & _). rewrite Forall_forall in Hbound.
      specialize (Hbound b Hin). fold n in Hbound. lia.
Qed.

End SixSyncs.

(** C4 as stated fails: the third fetch of user "7" was aborted, so its
    snapshot 3 is never sealed; the process is started again and seals the
    snapshots 4 and 5.  After the seal of snapshot 5 the pruner has kept the
    four newest snapshots 2, 3, 4, 5: the complete snapshot 1, one of the
    four newest complete ones, is deleted with its entry, and only three
    complete snapshots are left. *)
Lemma pruner_counts_unsealed_snapshots :
  (λ b, (BlockBatch.id b, BlockBatch.complete b)) <$> BlockBatches (db thirdFetchAborted)
    = [(1, true); (2, true); (3, false)] ∧
  BlockBatch.id <$> BlockBatches (db restartedTwoSyncs) = [2; 3; 4; 5] ∧
  BlockBatch.id <$> filter (λ b, BlockBatch.complete b = true)
                           (BlockBatches (db restartedTwoSyncs)) = [2; 4; 5] ∧
  Block.BlockBatchId <$> Blocks (db restartedTwoSyncs) = [2; 3; 4; 5].
Proof. repeat split; vm_compute; reflexivity. Qed.

(** C4, amended.  On a table with unique snapshot ids, the pruner keeps, of
    the snapshots of the user, exactly those with fewer than four newer
    snapshots of the user (the four with the greatest ids, complete or not)
    and all snapshots of other users; an entry is kept exactly when its
    snapshot is.  After six sealed syncs in a row of a user who had no
    snapshot, on a table that satisfies the invariants, the user has exactly
    the four snapshots of the last four syncs, all complete, and no entry of
    the first two is left. *)
Theorem destroyOldBlocks_keeps_newest_four (d : DB) :
  NoDup (BlockBatch.id <$> BlockBatches d) →
  (∀ u b, b ∈ BlockBatches (destroyOldBlocks u d) ↔
          b ∈ BlockBatches d ∧ (BlockBatch.source_uid b ≠ u ∨ newerBatches u b d < 4)) ∧
  (∀ u e, e ∈ Blocks (destroyOldBlocks u d) ↔
          e ∈ Blocks d ∧
          ∀ b, b ∈ BlockBatches d → BlockBatch.id b = Block.BlockBatchId e →
               b ∈ BlockBatches (destroyOldBlocks u d)) ∧
  (∀ s user syncs,
     db s = d → wfDB d → activeFetches s !! uid user = None →
     userBatches (uid user) d = [] →
     length syncs = 6 → Forall sealing syncs →
     BlockBatch.id <$> userBatches (uid user) (db (foldl (sync user) s syncs))
       = (λ i, nextBlockBatchId d + i) <$> [2; 3; 4; 5] ∧
     Forall (λ b, BlockBatch.complete b = true)
            (userBatches (uid user) (db (foldl (sync user) s syncs))) ∧
     ∀ e, e ∈ Blocks (db (foldl (sync user) s syncs)) →
          Block.BlockBatchId e ≠ nextBlockBatchId d ∧
          Block.BlockBatchId e ≠ nextBlockBatchId d + 1).
Proof.
  intros Hnodup. split; [|split].
  - intros u. by apply destroyOldBlocks_elem_of.
  - intros u. by apply destroyOldBlocks_elem_of.
  - intros s user syncs <- Hwf Hnone Hub Hlen Hseal. by apply six_sealed_syncs.
Qed.

Lemma destroyOldBlocks_keeps_newest_four_witness :
  (BlockBatch.id <$> userBatches "7" (db (foldl (sync user7) (initial emptyDB 0) sixSyncs))
     = [3; 4; 5; 6] ∧
   Forall (λ b, BlockBatch.complete b = true)
          (userBatches "7" (db (foldl (sync user7) (initial emptyDB 0) sixSyncs)))) ∧
  (∀ b, b ∈ BlockBatches (destroyOldBlocks "7" (db thirdFetchAborted)) ↔
        b ∈ BlockBatches (db thirdFetchAborted) ∧
        (BlockBatch.source_uid b ≠ "7" ∨ newerBatches "7" b (db thirdFetchAborted) < 4)).
Proof.
  split.
  - assert (Hnodup : NoDup (BlockBatch.id <$> BlockBatches emptyDB)) by constructor.
    assert (Hwf : wfDB emptyDB) by (repeat split; constructor).
    assert (Hseal : Forall sealing sixSyncs).
    { repeat constructor; eexists [], _; repeat split; constructor. }
    destruct (destroyOldBlocks_keeps_newest_four emptyDB Hnodup) as (_ & _ & Hsix).
    destruct (Hsix (initial emptyDB 0) user7 sixSyncs eq_refl Hwf eq_refl eq_refl eq_refl
                Hseal) as (Hids & Hcomplete & _).
    split; [exact Hids|exact Hcomplete].
  - assert (Hnodup : NoDup (BlockBatch.id <$> BlockBatches (db thirdFetchAborted))).
    { vm_compute. repeat constructor; rewrite ?elem_of_cons, elem_of_nil; lia. }
    destruct (destroyOldBlocks_keeps_newest_four (db thirdFetchAborted) Hnodup)
      as (Hkept & _ & _).
    exact (Hkept "7").
Defined.

(* ================================================================== *)
(** * The action log only grows *)

Section ActionLog.
Implicit Types (d : DB) (s : state) (e : event).

Lemma logExtended_refl d d' :
  Actions d' = Actions d → nextActionId d' = nextActionId d → logExtended d d'.
Proof.
  intros Ha Hn. exists []. rewrite app_nil_r. simpl. repeat split; [done..|lia].
Qed.

Lemma logExtended_trans d1 d2 d3 :
  logExtended d1 d2 → logExtended d2 d3 → logExtended d1 d3.
Proof.
  intros (new1 & Ha1 & Hf1 & Hi1 & Hn1) (new2 & Ha2 & Hf2 & Hi2 & Hn2).
  exists (new1 ++ new2). rewrite Ha2, Ha1, <- app_assoc. split; [done|].
  split; [by apply Forall_app|]. rewrite fmap_app, length_app, seq_app, Hi1, Hi2, Hn1, Hn2.
  split; [done|lia].
Qed.

Lemma recordAction_extends src k t now d :
  t = Action.BLOCK ∨ t = Action.UNBLOCK →
  logExtended d (recordAction src k t now d).1.
Proof.
  intros Ht. destruct (Action_find src k t now d) as [a|] eqn:Hfind.
  - rewrite (recordAction_found _ _ _ _ _ _ Hfind). by apply logExtended_refl.
  - rewrite (recordAction_not_found _ _ _ _ _ Hfind).
    exists [Action.mk (nextActionId d) src k t Action.EXTERNAL None Action.DONE now].
    split; [done|].
    split; [constructor; [by repeat split|constructor]|].
    split; [done|]. simpl; lia.
Qed.

Lemma forEach_extends body l :
  (∀ x d, logExtended d (body x d).1) → ∀ d, logExtended d (forEach body l d).1.
Proof.
  intros Hbody. induction l as [|x l IH]; intros d; [by apply logExtended_refl|].
  cbn [forEach fst]. eapply logExtended_trans; [apply Hbody|apply IH].
Qed.

Lemma recordBlocks_extends source added now d :
  logExtended d (recordBlocks source added now d).1.
Proof.
  unfold recordBlocks. apply forEach_extends. intros x d'.
  apply recordAction_extends. by left.
Qed.

Lemma diffBatchWithPrevious_extends b now d :
  logExtended d (diffBatchWithPrevious b now d).1.
Proof.
  rewrite diffBatchWithPrevious_eq.
  destruct (latestComplete b d) as [|b1 [|b2 [|b3 l]]]; try by apply logExtended_refl.
  cbn [fst]. apply recordBlocks_extends.
Qed.

Lemma lookupCallback_extends pl r now d : logExtended d (lookupCallback pl r now d).1.
Proof.
  destruct r as [response|statusCode];
    [|by unfold lookupCallback; case_decide; apply logExtended_refl].
  unfold lookupCallback. apply forEach_extends. intros x d'. unfold recordIfPresent.
  destruct (indexBy response !! x); [|by apply logExtended_refl].
  apply recordAction_extends. by right.
Qed.

Lemma destroyOldBlocks_log u d :
  Actions (destroyOldBlocks u d) = Actions d ∧
  nextActionId (destroyOldBlocks u d) = nextActionId d ∧
  AnnotatedBlocks (destroyOldBlocks u d) = AnnotatedBlocks d.
Proof. unfold destroyOldBlocks. by destruct (oldBlockBatches u d). Qed.

Lemma destroyOldBlocks_at_log pt u point d :
  Actions (destroyOldBlocks_at pt u point d) = Actions d ∧
  nextActionId (destroyOldBlocks_at pt u point d) = nextActionId d ∧
  AnnotatedBlocks (destroyOldBlocks_at pt u point d) = AnnotatedBlocks d.
Proof.
  unfold destroyOldBlocks_at. case_decide; [apply destroyOldBlocks_log|done].
Qed.

Lemma destroyOldBlocks_at_extends pt u point d :
  logExtended d (destroyOldBlocks_at pt u point d).
Proof.
  destruct (destroyOldBlocks_at_log pt u point d) as (? & ? & _). by apply logExtended_refl.
Qed.

Lemma diffAmongPruning_extends pt u b now d :
  logExtended d (diffBatchWithPrevious_among (destroyOldBlocks_at pt u) b now d).1.
Proof.
  unfold diffBatchWithPrevious_among. cbv zeta.
  set (d0 := destroyOldBlocks_at pt u BeforeFindAll d).
  set (d1 := destroyOldBlocks_at pt u BeforeCurrentBlocks d0).
  set (d2 := destroyOldBlocks_at pt u BeforeOldBlocks d1).
  set (d3 := destroyOldBlocks_at pt u AfterOldBlocks d2).
  assert (H3 : logExtended d d3).
  { eapply logExtended_trans; [apply (destroyOldBlocks_at_extends pt u BeforeFindAll)|].
    eapply logExtended_trans; [apply (destroyOldBlocks_at_extends pt u BeforeCurrentBlocks)|].
    eapply logExtended_trans; [apply (destroyOldBlocks_at_extends pt u BeforeOldBlocks)|].
    apply destroyOldBlocks_at_extends. }
  destruct (latestComplete b d0) as [|b1 [|b2 [|b3 l]]]; cbn [fst]; try exact H3.
  eapply logExtended_trans; [exact H3|apply recordBlocks_extends].
Qed.

Lemma finalizeBlockBatch_extends p b s :
  logExtended (db s) (db (finalizeBlockBatch p b s)).
Proof.
  unfold finalizeBlockBatch. cbv zeta.
  set (b' := BlockBatch.mk _ _ _ _ true).
  pose proof (diffAmongPruning_extends (destroyAt s) (BlockBatch.source_uid b') b' (now s)
                (BlockBatch_save b' (db s))) as Hd.
  destruct (diffBatchWithPrevious_among _ b' (now s) _) as [d2 sent]. cbn [fst db] in *.
  eapply logExtended_trans; [|exact Hd]. by apply logExtended_refl.
Qed.

Lemma onBlocksIds_extends p r s : logExtended (db s) (db (onBlocksIds p r s)).
Proof.
  unfold onBlocksIds.
  destruct (promises s !! p) as [[user blockBatch c| |]|]; try by apply logExtended_refl.
  destruct r as [results|statusCode].
  - assert (Hb : logExtended (db s)
                   (match blockBatch with
                    | None => BlockBatch_create (uid user) (db s)
                    | Some b => (db s, b)
                    end).1) by (destruct blockBatch; by apply logExtended_refl).
    destruct (match blockBatch with
              | None => BlockBatch_create (uid user) (db s)
              | Some b => (db s, b)
              end) as [db1 b1]. cbn [fst] in Hb.
    assert (Hh : logExtended db1 (handleIds b1 c results db1).1.1)
      by (by apply logExtended_refl).
    destruct (handleIds b1 c results db1) as [[db2 b2] nc]. cbn [fst] in Hh.
    eapply logExtended_trans; [exact Hb|]. eapply logExtended_trans; [exact Hh|].
    destruct (decide (nc = "0")); [|by apply logExtended_refl].
    apply (finalizeBlockBatch_extends p b2 (set_db db2 s)).
  - destruct (decide (statusCode = 429%Z)); [destruct blockBatch|];
      by apply logExtended_refl.
Qed.

Lemma step_extends s e : logExtended (db s) (db (step s e)).
Proof.
  destruct e as [user|p r|p|k r|ms|point]; cbn [step].
  - destruct (updateBlocks_fields user s) as (_ & _ & -> & _). by apply logExtended_refl.
  - apply onBlocksIds_extends.
  - unfold onDelayElapsed.
    destruct (promises s !! p) as [[| user b c wake |]|]; try by apply logExtended_refl.
    destruct (decide (wake ≤ now s)%Z); by apply logExtended_refl.
  - unfold onUsersLookup. destruct (lookups s !! k) as [pl|]; [|by apply logExtended_refl].
    cbn [db]. apply lookupCallback_extends.
  - by apply logExtended_refl.
  - by apply logExtended_refl.
Qed.

Lemma run_extends es : ∀ s, logExtended (db s) (db (run s es)).
Proof.
  induction es as [|e es IH]; intros s; [by apply logExtended_refl|].
  cbn [run foldl]. eapply logExtended_trans; [apply step_extends|apply IH].
Qed.

End ActionLog.

(** X1.  Whatever events the process handles, the rows that were in the action
    log stay as they are, in their place; what is added comes after them,
    is a done, [EXTERNAL] block or unblock without a causing user, and
    takes the next ids of the table in order. *)
Theorem action_log_append_only (s : state) (es : list event) :
  ∃ new,
    Actions (db (run s es)) = Actions (db s) ++ new ∧
    Forall externalRecord new ∧
    Action.id <$> new = seq (nextActionId (db s)) (length new) ∧
    nextActionId (db (run s es)) = nextActionId (db s) + length new.
Proof. apply run_extends. Qed.



(* ================================================================== *)
(** * The annotated blocks are out of reach *)

Section Annotations.
Implicit Types (d : DB) (a : Action.row) (s k x : string) (t : Action.type_t).

Lemma recordAction_counter s k t now d :
  nextActionId (recordAction s k t now d).1 =
  match Action_find s k t now d with
  | Some _ => nextActionId d
  | None => S (nextActionId d)
  end.
Proof.
  destruct (Action_find s k t now d) as [a|] eqn:Hfind.
  - by rewrite (recordAction_found _ _ _ _ _ _ Hfind).
  - by rewrite (recordAction_not_found _ _ _ _ _ Hfind).
Qed.

Lemma forEach_annotated body l :
  (∀ x d, AnnotatedBlocks (body x d).1 = AnnotatedBlocks d) →
  ∀ d, AnnotatedBlocks (forEach body l d).1 = AnnotatedBlocks d.
Proof.
  intros Hbody. induction l as [|x l IH]; intros d; [done|].
  cbn [forEach fst]. by rewrite IH, Hbody.
Qed.

Lemma recordBlocks_annotated source added now d :
  AnnotatedBlocks (recordBlocks source added now d).1 = AnnotatedBlocks d.
Proof.
  unfold recordBlocks. apply forEach_annotated. intros x d'. apply recordAction_annotated.
Qed.

Lemma lookupCallback_annotated c r now d :
  AnnotatedBlocks (lookupCallback c r now d).1 = AnnotatedBlocks d.
Proof.
  destruct r as [response|statusCode]; [|by unfold lookupCallback; case_decide].
  unfold lookupCallback. apply forEach_present_annotated.
Qed.

Lemma diffAmongPruning_annotated pt u b now d :
  AnnotatedBlocks (diffBatchWithPrevious_among (destroyOldBlocks_at pt u) b now d).1
  = AnnotatedBlocks d.
Proof.
  unfold diffBatchWithPrevious_among. cbv zeta.
  destruct (latestComplete b _) as [|b1 [|b2 [|b3 l]]]; cbn [fst];
    rewrite ?recordBlocks_annotated;
    by rewrite !(proj2 (proj2 (destroyOldBlocks_at_log _ _ _ _))).
Qed.

Lemma step_annotated (st : state) e :
  AnnotatedBlocks (db (step st e)) = AnnotatedBlocks (db st).
Proof.
  destruct e as [user|p r|p|k r|ms|point]; cbn [step]; try done.
  - by destruct (updateBlocks_fields user st) as (_ & _ & -> & _).
  - unfold onBlocksIds.
    destruct (promises st !! p) as [[user blockBatch c| |]|]; try done.
    destruct r as [results|statusCode].
    + assert (Hb : AnnotatedBlocks (match blockBatch with
                                    | None => BlockBatch_create (uid user) (db st)
                                    | Some b => (db st, b)
                                    end).1 = AnnotatedBlocks (db st))
        by (by destruct blockBatch).
      destruct (match blockBatch with
                | None => BlockBatch_create (uid user) (db st)
                | Some b => (db st, b)
                end) as [db1 b1]. cbn [fst] in Hb.
      assert (Hh : AnnotatedBlocks (handleIds b1 c results db1).1.1 = AnnotatedBlocks db1)
        by done.
      destruct (handleIds b1 c results db1) as [[db2 b2] nc]. cbn [fst] in Hh.
      destruct (decide (nc = "0")); [|cbn [fetchAndStoreBlocks set_db db]; congruence].
      unfold finalizeBlockBatch. cbv zeta. set (b' := BlockBatch.mk _ _ _ _ true).
      pose proof (diffAmongPruning_annotated (destroyAt (set_db db2 st))
                    (BlockBatch.source_uid b') b' (now (set_db db2 st))
                    (BlockBatch_save b' (db (set_db db2 st)))) as Hd.
      destruct (diffBatchWithPrevious_among _ b' _ _) as [d3 sent].
      cbn [fst db set_db] in *. rewrite Hd. simpl. congruence.
    + destruct (decide (statusCode = 429%Z)); [destruct blockBatch|]; done.
  - unfold onDelayElapsed.
    destruct (promises st !! p) as [[| user b c wake |]|]; try done.
    by destruct (decide (wake ≤ now st)%Z).
  - unfold onUsersLookup. destruct (lookups st !! k) as [c|]; [|done].
    cbn [db]. apply lookupCallback_annotated.
Qed.

End Annotations.


(** X3.  Whatever events the process handles, the annotated blocks stay as
    they are: no code of the file reaches the table. *)
Theorem annotated_blocks_never_written (s : state) (es : list event) :
  AnnotatedBlocks (db (run s es)) = AnnotatedBlocks (db s).
Proof.
  revert s. induction es as [|e es IH]; intros s; [done|].
  cbn [run foldl]. fold (run (step s e) es). by rewrite IH, step_annotated.
Qed.

(** X5.  What a callback of the lookup does.  On an error (a 404 or any
    other) it changes nothing.  On a response it goes through the uids that
    the shared variable [uidsToQuery] holds when it runs: for a uid [X],
    unless a previous action answers the search, it creates one [UNBLOCK]
    row per occurrence of [X] among those uids when [X] is in the response,
    and none when it is not.  Every chain it starts ends in the error
    logged for the unbound [AnnotatedBlock], and the annotated blocks are
    as before. *)
Theorem lookupCallback_effect (c : pendingCallback) (r : lookupResult) (now : Z)
    (d : DB) (X : string) :
  match r with
  | LookupErr _ => lookupCallback c r now d = (d, [])
  | LookupOk response =>
      length (actionsFor X Action.UNBLOCK (Actions (lookupCallback c r now d).1)) =
        length (actionsFor X Action.UNBLOCK (Actions d)) +
        match Action_find (lookup_source_uid (sentLookup c)) X Action.UNBLOCK now d with
        | Some _ => 0
        | None => if decide (X ∈ id_str <$> response)
                  then occurrences X (sharedUidsToQuery c) else 0
        end ∧
      AnnotatedBlocks (lookupCallback c r now d).1 = AnnotatedBlocks d ∧
      Forall (λ rec, rec = Logged AnnotatedBlock_unbound) (lookupCallback c r now d).2
  end.
Proof. apply lookupCallback_effect_aux. Qed.

(** X27.  "7" had blocked the 101 uids "1" to "101" and has unblocked them
    all.  The diff sends two lookups, for "1" to "100" and for "101", and
    both callbacks go through the uids of the last one.  When both lookups
    are answered with every uid present, the callback of the first records
    nothing: the only [UNBLOCK] row is the one for "101", and none of "1"
    to "100" has one.  The chain of that one call ends in the error of the
    unbound [AnnotatedBlock]: the annotated block of "7" and "101" is still
    there. *)
Theorem unblocks_before_last_batch_lost :
  sentLookup <$> lookups hundredAndOneGone
    = [mkLookup "7" (uidsUpTo 100); mkLookup "7" ["101"]] ∧
  sharedUidsToQuery <$> lookups hundredAndOneGone = [["101"]; ["101"]] ∧
  Actions (db (run hundredAndOneGone
                 [UsersLookup 0 (LookupOk (activeUsers (uidsUpTo 100)))]))
    = Actions (db hundredAndOneGone) ∧
  lookups bothLookupsAnswered = [] ∧
  filter (λ a, Action.type a = Action.UNBLOCK) (Actions (db bothLookupsAnswered))
    = [Action.mk 2 "7" "101" Action.UNBLOCK Action.EXTERNAL None Action.DONE 0] ∧
  AnnotatedBlocks (db bothLookupsAnswered) !! ("7", "101")
    = Some (AnnotatedBlock.mk 1 true).
Proof. repeat split; vm_compute; reflexivity. Qed.





(* ================================================================== *)
(** * The lookups of the removed uids, batch by batch *)

Section Batches.

Lemma recordUnblocks_batches_aux source r n :
  ∀ (h : arrays) sent,
  length (h !!! r) ≤ n →
  ∃ new,
    (recordUnblocksUnlessDeactivated source r h sent).2 = sent ++ new ∧
    length (h !!! r) ≤ 100 * length new < length (h !!! r) + 100 ∧
    ∀ i, i < length new →
         new !! i = Some (mkLookup source (take 100 (drop (100 * i) (h !!! r)))).
Proof.
  induction n as [|n IH]; intros h sent Hlen.
  - exists []. rewrite recordUnblocks_unfold, decide_False by lia.
    rewrite app_nil_r. simpl. split; [done|]. split; [lia|]. intros i Hi. lia.
  - rewrite recordUnblocks_unfold.
    destruct (decide (0 < length (h !!! r))) as [Hpos|Hzero].
    + unfold splice0; cbn [fst snd].
      set (l := h !!! r) in *.
      destruct (IH (<[r := drop 100 l]> h) (sent ++ [mkLookup source (take 100 l)]))
        as (new & Hrun & Hbound & Hnth).
      { rewrite lookup_total_insert_eq, length_drop. lia. }
      rewrite lookup_total_insert_eq in Hbound, Hnth. rewrite length_drop in Hbound.
      exists (mkLookup source (take 100 l) :: new). split; [|split].
      * rewrite Hrun. by rewrite <- app_assoc.
      * cbn [length]. lia.
      * intros [|i] Hi; [done|]. cbn [length] in Hi. cbn [lookup list_lookup].
        rewrite Hnth by lia. rewrite drop_drop.
        by replace (100 * S i) with (100 + 100 * i) by lia.
    + exists []. rewrite app_nil_r. simpl. split; [done|]. split; [lia|].
      intros i Hi. lia.
Qed.

End Batches.

(** X6.  The loop sends the uids of the array in consecutive batches of 100:
    the lookup number [i] (from 0) holds the uids at the positions [100 * i]
    to [100 * i + 99] of the array, so every lookup but the last holds
    exactly 100 uids, and the number of lookups is the length of the array
    divided by 100, rounded up (none for an empty array). *)
Theorem recordUnblocks_batches_of_100 (source_uid : string) (sink_uids : nat)
    (h : arrays) :
  let l := h !!! sink_uids in
  let sent := (recordUnblocksUnlessDeactivated source_uid sink_uids h []).2 in
  length l ≤ 100 * length sent < length l + 100 ∧
  ∀ i, i < length sent →
       sent !! i = Some (mkLookup source_uid (take 100 (drop (100 * i) l))).
Proof.
  cbv zeta.
  destruct (recordUnblocks_batches_aux source_uid sink_uids (length (h !!! sink_uids))
              h [] (le_n _)) as (new & Hrun & Hbound & Hnth).
  rewrite Hrun. done.
Qed.

Lemma callbacksOf_requests (sent : list pendingLookup) :
  sentLookup <$> callbacksOf sent = sent.
Proof.
  unfold callbacksOf. rewrite <- list_fmap_compose.
  rewrite <- (list_fmap_id sent) at 2. by apply list_fmap_ext.
Qed.

(** X4.  The callbacks of one call share the variable [uidsToQuery], and the
    loop has ended when the first of them runs: each callback belongs to
    its own request, but all of them go through the uids of the last
    request, which are the uids of the array from the position
    [100 * (n - 1)] on, for [n] requests. *)
Theorem callbacks_share_last_batch (source_uid : string) (sink_uids : nat)
    (h : arrays) :
  let l := h !!! sink_uids in
  let sent := (recordUnblocksUnlessDeactivated source_uid sink_uids h []).2 in
  sentLookup <$> callbacksOf sent = sent ∧
  Forall (λ c, sharedUidsToQuery c = drop (100 * (length sent - 1)) l) (callbacksOf sent).
Proof.
  cbv zeta. split; [apply callbacksOf_requests|].
  destruct (recordUnblocks_batches_aux source_uid sink_uids (length (h !!! sink_uids))
              h [] (le_n _)) as (new & Hrun & Hbound & Hnth).
  rewrite Hrun. cbn [app]. unfold callbacksOf. apply Forall_fmap, Forall_forall.
  intros c _. cbn [sharedUidsToQuery].
  destruct (decide (length new = 0)) as [Hzero|Hpos].
  - destruct new; [|done]. simpl in *.
    destruct (h !!! sink_uids); [done|simpl in Hbound; lia].
  - rewrite last_lookup.
    replace (Init.Nat.pred (length new)) with (length new - 1) by lia.
    rewrite Hnth by lia. cbn [from_option uidsToQuery].
    apply take_ge. rewrite length_drop. lia.
Qed.

(* ================================================================== *)
(** * Which snapshots the diff compares *)

Section Compared.
Implicit Types (d : DB) (b cur old : BlockBatch.row) (l : list BlockBatch.row).

Lemma same_id_short l (c : nat) :
  NoDup (BlockBatch.id <$> l) → Forall (λ b, BlockBatch.id b = c) l → length l ≤ 1.
Proof.
  destruct l as [|x [|y l]]; [simpl; lia..|].
  rewrite !fmap_cons, NoDup_cons. intros [Hx _] Hall.
  apply Forall_cons in Hall as [Hxc Hall]. apply Forall_cons in Hall as [Hyc _].
  exfalso. apply Hx. rewrite Hxc, <- Hyc. by left.
Qed.

(** Without a complete snapshot of the user older than the current one,
    the query answers fewer than two rows. *)
Lemma latestComplete_short cur d :
  NoDup (BlockBatch.id <$> BlockBatches d) →
  (∀ o, o ∈ BlockBatches d → BlockBatch.source_uid o = BlockBatch.source_uid cur →
        BlockBatch.complete o = true → ¬ BlockBatch.id o < BlockBatch.id cur) →
  length (latestComplete cur d) ≤ 1.
Proof.
  intros Hnodup Hnone. unfold latestComplete. rewrite length_take.
  set (F := filter _ (BlockBatches d)).
  assert (length (merge_sort idDesc F) ≤ 1); [|lia].
  rewrite merge_sort_Permutation. apply (same_id_short F (BlockBatch.id cur)).
  - eapply sublist_NoDup; [exact Hnodup|]. apply fmap_sublist, sublist_filter.
  - apply Forall_forall. intros b Hb. apply list_elem_of_filter in Hb as [(Hs & Hle & Hc) Hin].
    specialize (Hnone b Hin Hs Hc). lia.
Qed.

(** With one, the query answers the current snapshot and the newest
    complete snapshot of the user that is older. *)
Lemma latestComplete_pair cur old d :
  NoDup (BlockBatch.id <$> BlockBatches d) →
  cur ∈ BlockBatches d → BlockBatch.complete cur = true →
  old ∈ BlockBatches d → BlockBatch.source_uid old = BlockBatch.source_uid cur →
  BlockBatch.complete old = true → BlockBatch.id old < BlockBatch.id cur →
  (∀ o, o ∈ BlockBatches d → BlockBatch.source_uid o = BlockBatch.source_uid cur →
        BlockBatch.complete o = true → BlockBatch.id o < BlockBatch.id cur →
        BlockBatch.id o ≤ BlockBatch.id old) →
  latestComplete cur d = [cur; old].
Proof.
  intros Hnodup Hcur Hcc Hold Hos Hoc Hlt Hmax. unfold latestComplete.
  set (F := filter _ (BlockBatches d)).
  assert (HF : ∀ b, b ∈ F ↔ b ∈ BlockBatches d ∧
                BlockBatch.source_uid b = BlockBatch.source_uid cur ∧
                BlockBatch.id b ≤ BlockBatch.id cur ∧ BlockBatch.complete b = true).
  { intros b. unfold F. rewrite list_elem_of_filter. tauto. }
  assert (HcurF : cur ∈ F) by (apply HF; repeat split; [done..|lia|done]).
  assert (HoldF : old ∈ F) by (apply HF; repeat split; [done..|lia|done]).
  assert (HnodupF : NoDup F).
  { apply (NoDup_fmap_1 BlockBatch.id). eapply sublist_NoDup; [exact Hnodup|].
    apply fmap_sublist, sublist_filter. }
  pose proof (StronglySorted_merge_sort idDesc F) as Hsorted.
  pose proof (merge_sort_Permutation idDesc F) as Hperm.
  assert (HnodupL : NoDup (merge_sort idDesc F)) by (by rewrite Hperm).
  assert (HcurL : cur ∈ merge_sort idDesc F) by (by rewrite Hperm).
  assert (HoldL : old ∈ merge_sort idDesc F) by (by rewrite Hperm).
  assert (HL : ∀ b, b ∈ merge_sort idDesc F → b ∈ F) by (intros b; by rewrite Hperm).
  assert (Hne : cur ≠ old) by (intros ->; lia).
  assert (Huniq : ∀ b1 b2, b1 ∈ F → b2 ∈ F → BlockBatch.id b1 = BlockBatch.id b2 → b1 = b2).
  { intros b1 b2 H1 H2. apply (unique_id (BlockBatches d)); [done|by apply HF..]. }
  destruct (merge_sort idDesc F) as [|x [|y rest]].
  - by apply elem_of_nil in HcurL.
  - apply list_elem_of_singleton in HcurL, HoldL. congruence.
  - apply StronglySorted_cons in Hsorted as [Hx Hsorted].
    apply StronglySorted_cons in Hsorted as [Hy _].
    rewrite Forall_forall in Hx, Hy. apply NoDup_cons in HnodupL as [Hxnot _].
    assert (Hxc : x = cur).
    { apply elem_of_cons in HcurL as [->|Hin]; [done|].
      specialize (Hx cur Hin). unfold idDesc in Hx.
      assert (HxF : x ∈ F) by (apply HL; by left).
      apply Huniq; [done..|]. apply HF in HxF as (_ & _ & ? & _). lia. }
    subst x.
    assert (Hyo : y = old).
    { apply elem_of_cons in HoldL as [?|Hin]; [congruence|].
      assert (HyF : y ∈ F) by (apply HL; right; by left).
      apply elem_of_cons in Hin as [->|Hin]; [done|].
      specialize (Hy old Hin). unfold idDesc in Hy.
      apply Huniq; [done..|]. pose proof HyF as HyF'.
      apply HF in HyF' as (Hyin & Hys & Hyle & Hyc).
      assert (BlockBatch.id y ≠ BlockBatch.id cur).
      { intros Heq. apply Hxnot. rewrite <- (Huniq y cur HyF HcurF Heq). by left. }
      specialize (Hmax y Hyin Hys Hyc). lia. }
    by subst y.
Qed.

Lemma difference_nil_subset (array values : list string) :
  (∀ x, x ∈ array → x ∈ values) → difference array values = [].
Proof.
  intros Hsub. unfold difference. apply filter_none, Forall_forall.
  intros x Hx Hnot. by apply Hnot, Hsub.
Qed.

Lemma recordUnblocks_nil source r (h : arrays) sent :
  h !!! r = [] → recordUnblocksUnlessDeactivated source r h sent = (h, sent).
Proof. intros Hr. rewrite recordUnblocks_unfold, Hr. done. Qed.

End Compared.

(** X7.  The first complete snapshot of a user is compared with nothing: on a
    table with unique ids, when no complete snapshot of the user is older
    than the current one, the diff records no action, touches no annotated
    block and sends no lookup. *)
Theorem diff_without_older_snapshot (cur : BlockBatch.row) (now : Z) (d : DB) :
  NoDup (BlockBatch.id <$> BlockBatches d) →
  (∀ o, o ∈ BlockBatches d → BlockBatch.source_uid o = BlockBatch.source_uid cur →
        BlockBatch.complete o = true → ¬ BlockBatch.id o < BlockBatch.id cur) →
  diffBatchWithPrevious cur now d = (d, []).
Proof.
  intros Hnodup Hnone. pose proof (latestComplete_short cur d Hnodup Hnone) as Hshort.
  rewrite diffBatchWithPrevious_eq.
  destruct (latestComplete cur d) as [|b1 [|b2 [|b3 l]]]; try done.
  simpl in Hshort. lia.
Qed.

Lemma diff_without_older_snapshot_witness :
  diffBatchWithPrevious (BlockBatch.mk 1 "7" 2 (Some "-1") true) 0 (db firstPageStored)
    = (db firstPageStored, []).
Proof.
  assert (Htable : BlockBatches (db firstPageStored)
                   = [BlockBatch.mk 1 "7" 2 (Some "-1") false])
    by (vm_compute; reflexivity).
  apply diff_without_older_snapshot.
  - rewrite Htable. repeat constructor. apply not_elem_of_nil.
  - intros o Ho _ _. rewrite Htable in Ho.
    apply list_elem_of_singleton in Ho as ->. simpl. lia.
Defined.

(** X8.  The diff skips snapshots that were never sealed: on a table with unique
    ids, the current complete snapshot is compared with the newest complete
    snapshot of the same user that is older, whatever incomplete snapshots
    lie between the two.  Blocks are recorded for the uids of the current
    one that the older one lacks, and lookups are sent for the uids of the
    older one that the current one lacks. *)
Theorem diff_compares_with_newest_complete (cur old : BlockBatch.row) (now : Z)
    (d : DB) :
  NoDup (BlockBatch.id <$> BlockBatches d) →
  cur ∈ BlockBatches d → BlockBatch.complete cur = true →
  old ∈ BlockBatches d → BlockBatch.source_uid old = BlockBatch.source_uid cur →
  BlockBatch.complete old = true → BlockBatch.id old < BlockBatch.id cur →
  (∀ o, o ∈ BlockBatches d → BlockBatch.source_uid o = BlockBatch.source_uid cur →
        BlockBatch.complete o = true → BlockBatch.id o < BlockBatch.id cur →
        BlockBatch.id o ≤ BlockBatch.id old) →
  diffBatchWithPrevious cur now d =
    ((recordBlocks (BlockBatch.source_uid cur)
        (addedBlockIds (snapshotIds cur d) (snapshotIds old d)) now d).1,
     (recordUnblocksUnlessDeactivated (BlockBatch.source_uid cur) 0
        {[0 := removedBlockIds (snapshotIds cur d) (snapshotIds old d)]} []).2).
Proof.
  intros Hnodup Hcur Hcc Hold Hos Hoc Hlt Hmax.
  rewrite diffBatchWithPrevious_eq.
  by rewrite (latestComplete_pair cur old d).
Qed.

Lemma diff_compares_with_newest_complete_witness :
  BlockBatch.complete <$> BlockBatches (db restartedTwoSyncs) = [true; false; true; true] ∧
  diffBatchWithPrevious (BlockBatch.mk 4 "7" 1 (Some "-1") true) 0 (db restartedTwoSyncs) =
    ((recordBlocks "7"
        (addedBlockIds
           (snapshotIds (BlockBatch.mk 4 "7" 1 (Some "-1") true) (db restartedTwoSyncs))
           (snapshotIds (BlockBatch.mk 2 "7" 1 (Some "-1") true) (db restartedTwoSyncs)))
        0 (db restartedTwoSyncs)).1,
     (recordUnblocksUnlessDeactivated "7" 0
        {[0 := removedBlockIds
           (snapshotIds (BlockBatch.mk 4 "7" 1 (Some "-1") true) (db restartedTwoSyncs))
           (snapshotIds (BlockBatch.mk 2 "7" 1 (Some "-1") true) (db restartedTwoSyncs))]}
        []).2).
Proof.
  assert (Htable : BlockBatches (db restartedTwoSyncs)
                   = [BlockBatch.mk 2 "7" 1 (Some "-1") true;
                      BlockBatch.mk 3 "7" 1 (Some "-1") false;
                      BlockBatch.mk 4 "7" 1 (Some "-1") true;
                      BlockBatch.mk 5 "7" 1 (Some "-1") true])
    by (vm_compute; reflexivity).
  split; [by rewrite Htable|].
  apply (diff_compares_with_newest_complete
           (BlockBatch.mk 4 "7" 1 (Some "-1") true) (BlockBatch.mk 2 "7" 1 (Some "-1") true)).
  - rewrite Htable. repeat constructor; rewrite ?elem_of_cons, ?elem_of_nil; simpl; lia.
  - rewrite Htable, !elem_of_cons. tauto.
  - reflexivity.
  - rewrite Htable, !elem_of_cons. tauto.
  - reflexivity.
  - reflexivity.
  - simpl. lia.
  - intros o Ho _ Hc Hlt. rewrite Htable, !elem_of_cons, elem_of_nil in Ho.
    destruct Ho as [->|[->|[->|[->|[]]]]]; simpl in Hc, Hlt |- *; lia || done.
Defined.

(** X9.  A sync that finds the list unchanged produces no event: when the
    current complete snapshot and the newest older complete snapshot of the
    user hold the same uids (in any order, with any repetitions), the diff
    records no action, touches no annotated block and sends no lookup. *)
Theorem diff_of_unchanged_list (cur old : BlockBatch.row) (now : Z) (d : DB) :
  NoDup (BlockBatch.id <$> BlockBatches d) →
  cur ∈ BlockBatches d → BlockBatch.complete cur = true →
  old ∈ BlockBatches d → BlockBatch.source_uid old = BlockBatch.source_uid cur →
  BlockBatch.complete old = true → BlockBatch.id old < BlockBatch.id cur →
  (∀ o, o ∈ BlockBatches d → BlockBatch.source_uid o = BlockBatch.source_uid cur →
        BlockBatch.complete o = true → BlockBatch.id o < BlockBatch.id cur →
        BlockBatch.id o ≤ BlockBatch.id old) →
  (∀ x, x ∈ snapshotIds cur d ↔ x ∈ snapshotIds old d) →
  diffBatchWithPrevious cur now d = (d, []).
Proof.
  intros Hnodup Hcur Hcc Hold Hos Hoc Hlt Hmax Hsame.
  rewrite diffBatchWithPrevious_eq.
  rewrite (latestComplete_pair cur old d) by done.
  unfold addedBlockIds, removedBlockIds.
  rewrite !difference_nil_subset by (intros x; apply Hsame).
  by rewrite recordUnblocks_nil.
Qed.

Lemma diff_of_unchanged_list_witness :
  diffBatchWithPrevious (BlockBatch.mk 2 "7" 1 (Some "-1") true) 0 (db thirdFetchAborted)
    = (db thirdFetchAborted, []).
Proof.
  assert (Htable : BlockBatches (db thirdFetchAborted)
                   = [BlockBatch.mk 1 "7" 1 (Some "-1") true;
                      BlockBatch.mk 2 "7" 1 (Some "-1") true;
                      BlockBatch.mk 3 "7" 1 (Some "-1") false])
    by (vm_compute; reflexivity).
  assert (H2 : snapshotIds (BlockBatch.mk 2 "7" 1 (Some "-1") true)
                 (db thirdFetchAborted) = ["11"]) by (vm_compute; reflexivity).
  assert (H1 : snapshotIds (BlockBatch.mk 1 "7" 1 (Some "-1") true)
                 (db thirdFetchAborted) = ["11"]) by (vm_compute; reflexivity).
  apply (diff_of_unchanged_list
           (BlockBatch.mk 2 "7" 1 (Some "-1") true) (BlockBatch.mk 1 "7" 1 (Some "-1") true)).
  - rewrite Htable. repeat constructor; rewrite ?elem_of_cons, ?elem_of_nil; simpl; lia.
  - rewrite Htable, !elem_of_cons. tauto.
  - reflexivity.
  - rewrite Htable, !elem_of_cons. tauto.
  - reflexivity.
  - reflexivity.
  - simpl. lia.
  - intros o Ho _ Hc Hlt. rewrite Htable, !elem_of_cons, elem_of_nil in Ho.
    destruct Ho as [->|[->|[->|[]]]]; simpl in Hc, Hlt |- *; lia || done.
  - intros x. by rewrite H1, H2.
Defined.

(* ================================================================== *)
(** * What a page does to the tables *)

Section Page.
Implicit Types (d : DB) (s : state) (b : BlockBatch.row) (user : BtUser).

(** The state after a page has been stored, part by part. *)
Lemma onBlocksIds_ok p results s user blockBatch c :
  promises s !! p = Some (AwaitBlocksIds user blockBatch c) →
  let start := batchOfPage user blockBatch (db s) in
  let stored := handleIds start.2 c results start.1 in
  let b2 := stored.1.2 in
  let s' := onBlocksIds p (IdsOk results) s in
  nextPromise s' = nextPromise s ∧ now s' = now s ∧
  if decide (next_cursor_str results = "0") then
    db s' = (startedBySealing s b2 stored.1.1).1 ∧
    lookups s' = lookups s ++ callbacksOf (startedBySealing s b2 stored.1.1).2 ∧
    promises s' = <[p := Resolved (Some (sealed b2))]> (promises s) ∧
    activeFetches s' = delete (BlockBatch.source_uid b2) (activeFetches s) ∧
    requests s' = requests s
  else
    db s' = stored.1.1 ∧ lookups s' = lookups s ∧
    promises s' = <[p := AwaitBlocksIds user (Some b2)
                           (cursorOrStart (Some (next_cursor_str results)))]> (promises s) ∧
    activeFetches s' = activeFetches s ∧
    requests s' = requests s ++ [(p, cursorOrStart (Some (next_cursor_str results)))].
Proof.
  intros Hp. cbv zeta. unfold onBlocksIds, batchOfPage. rewrite Hp.
  destruct (match blockBatch with
            | None => BlockBatch_create (uid user) (db s)
            | Some b => (db s, b)
            end) as [db1 b1]. cbn [fst snd].
  destruct (handleIds_fields b1 c results db1) as (Hnc & _).
  destruct (handleIds b1 c results db1) as [[db2 b2] nc]. cbn [fst snd] in *. subst nc.
  destruct (decide (next_cursor_str results = "0")); [|done].
  unfold finalizeBlockBatch, startedBySealing. cbv zeta. fold (sealed b2).
  cbn [db now set_db destroyAt BlockBatch.source_uid sealed].
  by destruct (diffBatchWithPrevious_among _ (sealed b2) (now s) _) as [d3 sent].
Qed.

(** Whenever the destroy takes effect, sealing leaves the snapshot store
    as the pruning of the sealed table leaves it. *)
Lemma startedBySealing_store s b d :
  snapshotStore (startedBySealing s b d).1
  = snapshotStore (destroyOldBlocks (BlockBatch.source_uid b) (BlockBatch_save (sealed b) d)).
Proof. apply diffAmongPruning_store. Qed.

End Page.

Section Tables.
Implicit Types (d : DB) (s : state) (b r : BlockBatch.row) (user : BtUser)
  (l : list BlockBatch.row).

Lemma snapshotStore_BlockBatches d1 d2 :
  snapshotStore d1 = snapshotStore d2 → BlockBatches d1 = BlockBatches d2.
Proof. unfold snapshotStore. by intros [= -> _ _ _]. Qed.

Lemma idAsc_fmap (f : BlockBatch.row → BlockBatch.row) l :
  (∀ r, BlockBatch.id (f r) = BlockBatch.id r) →
  StronglySorted idAsc l → StronglySorted idAsc (f <$> l).
Proof.
  intros Hf. induction l as [|x l IH]; [done|].
  rewrite fmap_cons, !StronglySorted_cons. intros [Hx Hl]. split; [|by apply IH].
  apply Forall_fmap. eapply Forall_impl; [exact Hx|].
  intros y Hy. unfold idAsc in *. simpl. by rewrite !Hf.
Qed.

Lemma BlockBatch_save_ids b' d :
  BlockBatch.id <$> BlockBatches (BlockBatch_save b' d) = BlockBatch.id <$> BlockBatches d.
Proof.
  unfold BlockBatch_save. simpl. rewrite <- list_fmap_compose.
  apply list_fmap_ext. intros i r _. simpl. by case_decide.
Qed.

Lemma BlockBatch_save_wf b' d : wfDB d → wfDB (BlockBatch_save b' d).
Proof.
  intros (Hs & Hc & He). split; [|split].
  - simpl. apply idAsc_fmap; [|done]. intros r. by case_decide.
  - simpl. apply Forall_fmap. eapply Forall_impl; [exact Hc|].
    intros r Hr. simpl. case_decide as Heq; [by rewrite <- Heq|done].
  - pose proof (BlockBatch_save_ids b' d) as Hids. simpl in *. by rewrite Hids.
Qed.

Lemma elem_of_save b' d r :
  r ∈ BlockBatches d → BlockBatch.id r ≠ BlockBatch.id b' →
  r ∈ BlockBatches (BlockBatch_save b' d).
Proof.
  intros Hr Hne. simpl. apply list_elem_of_fmap. exists r.
  split; [by rewrite decide_False|done].
Qed.

Lemma elem_of_save_self b b' d :
  b ∈ BlockBatches d → BlockBatch.id b' = BlockBatch.id b →
  b' ∈ BlockBatches (BlockBatch_save b' d).
Proof.
  intros Hb Hid. simpl. apply list_elem_of_fmap. exists b.
  split; [by rewrite decide_True|done].
Qed.

Lemma handleIds_tables b c results d :
  BlockBatches (handleIds b c results d).1.1
    = BlockBatches (BlockBatch_save (handleIds b c results d).1.2 d) ∧
  Blocks (handleIds b c results d).1.1
    = Blocks d ++ entriesOf (BlockBatch.id b) (ids results) ∧
  TwitterUsers (handleIds b c results d).1.1 = TwitterUsers d ∪ list_to_set (ids results) ∧
  nextBlockBatchId (handleIds b c results d).1.1 = nextBlockBatchId d ∧
  BlockBatch.size (handleIds b c results d).1.2 = BlockBatch.size b + length (ids results) ∧
  BlockBatch.currentCursor (handleIds b c results d).1.2 = Some c.
Proof. done. Qed.

Lemma entriesOf_batch i (ids : list string) :
  Forall (λ e, Block.BlockBatchId e = i) (entriesOf i ids).
Proof. unfold entriesOf. apply Forall_fmap, Forall_forall. by intros x _. Qed.

Lemma handleIds_wf b c results d :
  wfDB d → b ∈ BlockBatches d → wfDB (handleIds b c results d).1.1.
Proof.
  intros Hwf Hb.
  destruct (BlockBatch_save_wf (handleIds b c results d).1.2 d Hwf) as (Hs & Hc & He).
  split; [exact Hs|]. split; [exact Hc|].
  destruct (handleIds_tables b c results d) as (Ht & Hk & _). rewrite Ht, Hk.
  apply Forall_app. split; [exact He|].
  eapply Forall_impl; [apply entriesOf_batch|]. intros e ->.
  rewrite BlockBatch_save_ids. by apply list_elem_of_fmap_2.
Qed.

(** The sizes after a row has been saved with a size grown by the number
    of entries added for it. *)
Lemma save_sizes b b' entries d d' :
  wfDB d → b ∈ BlockBatches d → sizesAgree d →
  BlockBatch.id b' = BlockBatch.id b →
  BlockBatch.size b' = BlockBatch.size b + length entries →
  Forall (λ e, Block.BlockBatchId e = BlockBatch.id b) entries →
  BlockBatches d' = BlockBatches (BlockBatch_save b' d) →
  Blocks d' = Blocks d ++ entries →
  sizesAgree d'.
Proof.
  intros (Hsorted & _ & _) Hb Hsizes Hid Hsize Hentries Ht Hk.
  unfold sizesAgree, getBlocks in *. rewrite Ht, Hk. simpl.
  apply Forall_fmap, Forall_forall. intros r Hr. simpl.
  rewrite Forall_forall in Hsizes. specialize (Hsizes r Hr) as Hrsize.
  rewrite filter_app, length_app.
  case_decide as Heq.
  - assert (r = b) as ->.
    { apply (unique_id (BlockBatches d)); [by apply idAsc_NoDup|done..|congruence]. }
    rewrite Hid, <- Hrsize, filter_all; [lia|done].
  - rewrite <- Hrsize, filter_none; [simpl; lia|].
    eapply Forall_impl; [exact Hentries|]. intros e He. simpl. congruence.
Qed.

Lemma handleIds_sizes b c results d :
  wfDB d → b ∈ BlockBatches d → sizesAgree d → sizesAgree (handleIds b c results d).1.1.
Proof.
  intros Hwf Hb Hsizes.
  destruct (handleIds_tables b c results d) as (Ht & Hk & _ & _ & Hsize & _).
  apply (save_sizes b (handleIds b c results d).1.2
           (entriesOf (BlockBatch.id b) (ids results)) d); try done.
  - rewrite Hsize. unfold entriesOf. by rewrite length_fmap.
  - apply entriesOf_batch.
Qed.

Lemma seal_sizes b d :
  wfDB d → b ∈ BlockBatches d → sizesAgree d → sizesAgree (BlockBatch_save (sealed b) d).
Proof.
  intros Hwf Hb Hsizes.
  apply (save_sizes b (sealed b) [] d);
    first [done | simpl; lia | by constructor | by simpl; rewrite app_nil_r].
Qed.

Lemma sizesAgree_store d1 d2 :
  snapshotStore d1 = snapshotStore d2 → sizesAgree d1 → sizesAgree d2.
Proof.
  unfold snapshotStore, sizesAgree, getBlocks. intros [= Hb Hk _ _]. by rewrite Hb, Hk.
Qed.

Lemma BlockBatch_destroy_sizes ids d : sizesAgree d → sizesAgree (BlockBatch_destroy ids d).
Proof.
  unfold sizesAgree, getBlocks. simpl. rewrite !Forall_forall. intros Hsizes r Hr.
  apply list_elem_of_filter in Hr as [Hnot Hr]. rewrite (Hsizes r Hr).
  rewrite list_filter_filter. f_equal. apply list_filter_iff. intros e. simpl.
  split; [|tauto]. intros Heq. split; [done|]. by rewrite Heq.
Qed.

Lemma destroyOldBlocks_sizes u d : sizesAgree d → sizesAgree (destroyOldBlocks u d).
Proof. rewrite destroyOldBlocks_destroy. apply BlockBatch_destroy_sizes. Qed.

(** The batch a page is stored in is a row of the table, and the rows of
    other users are left alone and have another id. *)
Lemma batchOfPage_tables user blockBatch d :
  wfDB d →
  (∀ b, blockBatch = Some b → b ∈ BlockBatches d ∧ BlockBatch.source_uid b = uid user) →
  wfDB (batchOfPage user blockBatch d).1 ∧
  (batchOfPage user blockBatch d).2 ∈ BlockBatches (batchOfPage user blockBatch d).1 ∧
  BlockBatch.source_uid (batchOfPage user blockBatch d).2 = uid user ∧
  (sizesAgree d → sizesAgree (batchOfPage user blockBatch d).1) ∧
  snapshotStore (batchOfPage user blockBatch d).1
    = snapshotStore (match blockBatch with
                     | None => (BlockBatch_create (uid user) d).1
                     | Some _ => d
                     end) ∧
  ∀ r, r ∈ BlockBatches d → BlockBatch.source_uid r ≠ uid user →
       r ∈ BlockBatches (batchOfPage user blockBatch d).1 ∧
       BlockBatch.id r ≠ BlockBatch.id (batchOfPage user blockBatch d).2.
Proof.
  intros Hwf Hcarried. destruct blockBatch as [b|]; cbn [batchOfPage fst snd].
  - destruct (Hcarried b eq_refl) as [Hb Hsrc].
    do 5 (split; [done|]). intros r Hr Hsrcr. split; [done|].
    intros Heq. pose proof Hwf as (Hsorted & _ & _).
    assert (r = b); [|congruence].
    apply (unique_id (BlockBatches d)); [by apply idAsc_NoDup|done..].
  - destruct (BlockBatch_create_carrying (uid user) d Hwf) as (Hwf1 & Ht & Hn & Hid & Hsrc & _).
    pose proof Hwf as (Hsorted & Hbelow & Hentries).
    split; [done|]. split; [rewrite Ht, elem_of_app; right; by left|].
    split; [done|]. split; [|split; [done|]].
    + intros Hsizes. unfold sizesAgree. rewrite Ht. apply Forall_app. split.
      * exact Hsizes.
      * constructor; [|constructor]. unfold getBlocks. simpl.
        rewrite filter_none; [done|].
        eapply Forall_impl; [exact Hentries|]. intros e He Heq. simpl in *.
        rewrite Heq in He. apply list_elem_of_fmap in He as (r & Hr1 & Hr2).
        rewrite Forall_forall in Hbelow. specialize (Hbelow r Hr2). lia.
    + intros r Hr _. split; [rewrite Ht, elem_of_app; by left|].
      rewrite Hid. rewrite Forall_forall in Hbelow. specialize (Hbelow r Hr). lia.
Qed.

Lemma destroyOldBlocks_keeps_others u d r :
  wfDB d → r ∈ BlockBatches d → BlockBatch.source_uid r ≠ u →
  r ∈ BlockBatches (destroyOldBlocks u d).
Proof.
  intros (Hsorted & _ & _) Hr Hsrc.
  apply (destroyOldBlocks_elem_of u d (idAsc_NoDup _ Hsorted)). split; [done|by left].
Qed.

(** The newest row of a user survives the pruning of that user. *)
Lemma destroyOldBlocks_keeps_newest u d r :
  wfDB d → r ∈ BlockBatches d → newerBatches u r d < 4 →
  r ∈ BlockBatches (destroyOldBlocks u d).
Proof.
  intros (Hsorted & _ & _) Hr Hnew.
  apply (destroyOldBlocks_elem_of u d (idAsc_NoDup _ Hsorted)). split; [done|by right].
Qed.

(** What storing a page does to the tables. *)
Lemma page_tables p results s user blockBatch c :
  promises s !! p = Some (AwaitBlocksIds user blockBatch c) →
  wfDB (db s) →
  (∀ b, blockBatch = Some b → b ∈ BlockBatches (db s) ∧ BlockBatch.source_uid b = uid user) →
  let s' := onBlocksIds p (IdsOk results) s in
  wfDB (db s') ∧
  (sizesAgree (db s) → sizesAgree (db s')) ∧
  (∀ r, r ∈ BlockBatches (db s) → BlockBatch.source_uid r ≠ uid user →
        r ∈ BlockBatches (db s')) ∧
  (∀ b, promises s' !! p = Some (AwaitBlocksIds user (Some b)
          (cursorOrStart (Some (next_cursor_str results)))) →
        next_cursor_str results ≠ "0" → b ∈ BlockBatches (db s')).
Proof.
  intros Hp Hwf Hcarried. cbv zeta.
  destruct (onBlocksIds_ok p results s user blockBatch c Hp) as (_ & _ & Hcase).
  destruct (batchOfPage_tables user blockBatch (db s) Hwf Hcarried)
    as (Hwf1 & Hb1 & Hsrc1 & Hsizes1 & _ & Hothers1).
  set (start := batchOfPage user blockBatch (db s)) in *.
  pose proof (handleIds_wf start.2 c results start.1 Hwf1 Hb1) as Hwf2.
  pose proof (handleIds_sizes start.2 c results start.1 Hwf1 Hb1) as Hsizes2.
  destruct (handleIds_tables start.2 c results start.1) as (Ht2 & _).
  destruct (handleIds_fields start.2 c results start.1) as (_ & Hid2 & Hsrc2 & _).
  set (stored := handleIds start.2 c results start.1) in *.
  assert (Hb2 : stored.1.2 ∈ BlockBatches stored.1.1).
  { rewrite Ht2. by apply (elem_of_save_self start.2). }
  assert (Hothers2 : ∀ r, r ∈ BlockBatches (db s) → BlockBatch.source_uid r ≠ uid user →
                          r ∈ BlockBatches stored.1.1).
  { intros r Hr Hsrc. destruct (Hothers1 r Hr Hsrc) as [Hin Hne].
    rewrite Ht2. apply elem_of_save; [done|congruence]. }
  destruct (decide (next_cursor_str results = "0")) as [Hlast|Hmore].
  - destruct Hcase as (Hdb & _ & Hprom & _). rewrite Hdb.
    set (b' := sealed stored.1.2).
    pose proof (BlockBatch_save_wf b' stored.1.1 Hwf2) as Hwf3.
    pose proof (startedBySealing_store s stored.1.2 stored.1.1) as Hstore.
    fold b' in Hstore.
    split; [eapply wfDB_store; [symmetry; exact Hstore|by apply destroyOldBlocks_wf]|].
    split; [|split].
    + intros Hsizes. eapply sizesAgree_store; [symmetry; exact Hstore|].
      apply destroyOldBlocks_sizes.
      apply seal_sizes; [done..|]. by apply Hsizes2, Hsizes1.
    + intros r Hr Hsrc. rewrite (snapshotStore_BlockBatches _ _ Hstore).
      apply destroyOldBlocks_keeps_others; [done| |].
      * apply elem_of_save; [by apply Hothers2|].
        destruct (Hothers1 r Hr Hsrc) as [_ Hne]. simpl. congruence.
      * simpl. congruence.
    + intros b _ Hne. done.
  - destruct Hcase as (Hdb & _ & Hprom & _). rewrite Hdb.
    split; [done|]. split; [intros Hsizes; by apply Hsizes2, Hsizes1|].
    split; [done|]. intros b Hpb _. rewrite Hprom, lookup_insert_eq in Hpb.
    by injection Hpb as <-.
Qed.

(** Every event keeps the tables sound, and the sizes in step with the
    entries. *)
Lemma step_tablesSound s e :
  registered s → tablesSound s →
  tablesSound (step s e) ∧ (sizesAgree (db s) → sizesAgree (db (step s e))).
Proof.
  intros Hreg [Hwf Hstored]. destruct e as [user|p r|p|k r|ms|point]; cbn [step].
  - destruct (updateBlocks_fields user s) as (_ & _ & Hdb & _ & _ & Hcase).
    rewrite Hdb. split; [|done]. split; [by rewrite Hdb|].
    intros q v userq bq Hq Hfl. rewrite Hdb.
    destruct (activeFetches s !! uid user); destruct Hcase as (_ & Hprom & _);
      rewrite Hprom in Hq;
      (destruct (decide (nextPromise s = q)) as [<-|Hne];
       [rewrite lookup_insert_eq in Hq; by injection Hq as <-
       |rewrite lookup_insert_ne in Hq by done; by eapply Hstored]).
  - pose proof (onBlocksIds_cases p r s) as Hcases.
    destruct (promises s !! p) as [[user blockBatch c| |]|] eqn:Hp;
      try (rewrite Hcases; by split).
    destruct (Hreg p _ user blockBatch Hp eq_refl) as [Hactive Hsource].
    assert (Hcarried : ∀ b, blockBatch = Some b →
              b ∈ BlockBatches (db s) ∧ BlockBatch.source_uid b = uid user).
    { intros b ->. split; [by eapply Hstored|by apply Hsource]. }
    assert (Hothers : ∀ q v userq bq, q ≠ p → promises s !! q = Some v →
              inFlight v = Some (userq, Some bq) →
              bq ∈ BlockBatches (db s) ∧ BlockBatch.source_uid bq ≠ uid user).
    { intros q v userq bq Hne Hq Hfl. split; [by eapply Hstored|].
      destruct (Hreg q v userq (Some bq) Hq Hfl) as [Hactiveq Hsourceq].
      rewrite (Hsourceq bq eq_refl). intros Heq. rewrite Heq in Hactiveq. congruence. }
    destruct r as [results|statusCode].
    + destruct (page_tables p results s user blockBatch c Hp Hwf Hcarried)
        as (Hwf' & Hsizes' & Hkept & Hown).
      split; [|done]. split; [done|].
      destruct Hcases as (_ & b & _ & Hcase).
      intros q v userq bq Hq Hfl.
      destruct (decide (next_cursor_str results = "0")) as [Hlast|Hmore];
        destruct Hcase as [_ Hprom].
      * rewrite Hprom in Hq. destruct (decide (p = q)) as [<-|Hne].
        -- rewrite lookup_insert_eq in Hq. by injection Hq as <-.
        -- rewrite lookup_insert_ne in Hq by done.
           destruct (Hothers q v userq bq (not_eq_sym Hne) Hq Hfl) as [Hin Hsrc].
           by apply Hkept.
      * destruct (decide (p = q)) as [<-|Hne].
        -- pose proof Hq as Hq'. rewrite Hprom, lookup_insert_eq in Hq'.
           injection Hq' as <-. simpl in Hfl. injection Hfl as <- <-.
           apply Hown; [|done]. by rewrite Hprom, lookup_insert_eq.
        -- rewrite Hprom, lookup_insert_ne in Hq by done.
           destruct (Hothers q v userq bq (not_eq_sym Hne) Hq Hfl) as [Hin Hsrc].
           by apply Hkept.
    + assert (Hdb : db (onBlocksIds p (IdsErr statusCode) s) = db s).
      { unfold onBlocksIds. rewrite Hp.
        destruct (decide (statusCode = 429%Z)); [destruct blockBatch|]; done. }
      split; [|by rewrite Hdb]. split; [by rewrite Hdb|].
      destruct Hcases as (_ & _ & Hprom). intros q v userq bq Hq Hfl. rewrite Hdb.
      rewrite Hprom in Hq. destruct (decide (p = q)) as [<-|Hne].
      * rewrite lookup_insert_eq in Hq. injection Hq as <-.
        destruct blockBatch as [b0|]; [|done].
        destruct (decide (statusCode = 429%Z)); [|done].
        simpl in Hfl. injection Hfl as <- <-. by apply Hcarried.
      * rewrite lookup_insert_ne in Hq by done. by eapply Hstored.
  - pose proof (onDelayElapsed_cases p s) as Hcases.
    destruct (promises s !! p) as [[| user b c wake |]|] eqn:Hp;
      try (rewrite Hcases; by split).
    destruct (decide (wake ≤ now s)%Z); [|rewrite Hcases; by split].
    rewrite Hcases. cbn [db]. split; [|done]. split; [done|].
    intros q v userq bq Hq Hfl. cbn [db promises] in *.
    destruct (decide (p = q)) as [<-|Hne].
    + rewrite lookup_insert_eq in Hq. injection Hq as <-. simpl in Hfl.
      injection Hfl as <- <-. by eapply (Hstored p _ user b Hp).
    + rewrite lookup_insert_ne in Hq by done. by eapply Hstored.
  - unfold onUsersLookup. destruct (lookups s !! k) as [pl|]; [|by split].
    cbn [db]. pose proof (lookupCallback_store pl r (now s) (db s)) as Hstore.
    split; [split|].
    + eapply wfDB_store; [symmetry; exact Hstore|done].
    + intros q v userq bq Hq Hfl. cbn [db promises] in *.
      rewrite (snapshotStore_BlockBatches _ _ Hstore). by eapply Hstored.
    + intros Hsizes. eapply sizesAgree_store; [symmetry; exact Hstore|done].
  - by split.
  - by split.
Qed.

Lemma tablesSound_initial d t : wfDB d → tablesSound (initial d t).
Proof.
  intros Hwf. split; [done|]. intros p v user b Hp. simpl in Hp.
  by rewrite lookup_empty in Hp.
Qed.

Lemma run_tablesSound es : ∀ s,
  registered s → tablesSound s →
  tablesSound (run s es) ∧ (sizesAgree (db s) → sizesAgree (db (run s es))).
Proof.
  induction es as [|e es IH]; intros s Hreg Hsound; [by split|].
  cbn [run foldl]. destruct (step_tablesSound s e Hreg Hsound) as [Hsound' Hsizes'].
  destruct (IH (step s e) (step_registered s e Hreg) Hsound') as [Hsound'' Hsizes''].
  split; [done|]. intros Hsizes. by apply Hsizes'', Hsizes'.
Qed.

End Tables.

Section Directory.
Implicit Types (d : DB) (s : state).

Lemma directoryKept_refl d d' :
  TwitterUsers d' = TwitterUsers d → Blocks d' = Blocks d → directoryKept d d'.
Proof. unfold directoryKept, entriesKnown. intros -> ->. done. Qed.

Lemma directoryKept_trans d1 d2 d3 :
  directoryKept d1 d2 → directoryKept d2 d3 → directoryKept d1 d3.
Proof. intros [H1 K1] [H2 K2]. split; [set_solver|auto]. Qed.

Lemma directoryKept_store d d' : snapshotStore d' = snapshotStore d → directoryKept d d'.
Proof. unfold snapshotStore. intros [= _ Hk Ht _]. by apply directoryKept_refl. Qed.

Lemma handleIds_directory b c results d : directoryKept d (handleIds b c results d).1.1.
Proof.
  destruct (handleIds_tables b c results d) as (_ & Hk & Ht & _).
  unfold directoryKept, entriesKnown. rewrite Hk, Ht. split; [set_solver|].
  intros Hknown. apply Forall_app. split.
  - eapply Forall_impl; [exact Hknown|]. intros e He. set_solver.
  - unfold entriesOf. apply Forall_fmap, Forall_forall. intros x Hx. simpl.
    apply elem_of_union_r. by apply elem_of_list_to_set.
Qed.

Lemma destroyOldBlocks_directory u d : directoryKept d (destroyOldBlocks u d).
Proof.
  rewrite destroyOldBlocks_destroy. unfold directoryKept, entriesKnown. simpl.
  split; [done|]. intros Hknown. rewrite Forall_forall in *. intros e He.
  apply list_elem_of_filter in He as [_ He]. by apply Hknown.
Qed.

Lemma step_directory s e : directoryKept (db s) (db (step s e)).
Proof.
  destruct e as [user|p r|p|k r|ms|point]; cbn [step].
  - destruct (updateBlocks_fields user s) as (_ & _ & -> & _). by apply directoryKept_refl.
  - destruct (promises s !! p) as [[user blockBatch c| |]|] eqn:Hp;
      try (unfold onBlocksIds; rewrite Hp; by apply directoryKept_refl).
    destruct r as [results|statusCode].
    + destruct (onBlocksIds_ok p results s user blockBatch c Hp) as (_ & _ & Hcase).
      set (start := batchOfPage user blockBatch (db s)) in *.
      assert (Hstart : directoryKept (db s) start.1)
        by (unfold start; destruct blockBatch; by apply directoryKept_refl).
      pose proof (handleIds_directory start.2 c results start.1) as Hstored.
      set (stored := handleIds start.2 c results start.1) in *.
      eapply directoryKept_trans; [exact Hstart|].
      eapply directoryKept_trans; [exact Hstored|].
      destruct (decide (next_cursor_str results = "0")); destruct Hcase as (-> & _);
        [|by apply directoryKept_refl].
      eapply directoryKept_trans;
        [|apply directoryKept_store, startedBySealing_store].
      eapply directoryKept_trans; [|apply destroyOldBlocks_directory].
      by apply directoryKept_refl.
    + unfold onBlocksIds. rewrite Hp.
      destruct (decide (statusCode = 429%Z)); [destruct blockBatch|];
        by apply directoryKept_refl.
  - unfold onDelayElapsed.
    destruct (promises s !! p) as [[| user b c wake |]|]; try by apply directoryKept_refl.
    destruct (decide (wake ≤ now s)%Z); by apply directoryKept_refl.
  - unfold onUsersLookup. destruct (lookups s !! k) as [pl|]; [|by apply directoryKept_refl].
    cbn [db]. apply directoryKept_store, lookupCallback_store.
  - by apply directoryKept_refl.
  - by apply directoryKept_refl.
Qed.

Lemma run_directory es : ∀ s, directoryKept (db s) (db (run s es)).
Proof.
  induction es as [|e es IH]; intros s; [by apply directoryKept_refl|].
  cbn [run foldl]. eapply directoryKept_trans; [apply step_directory|apply IH].
Qed.

End Directory.

(** X10.  A process started on a snapshot table that satisfies the invariants
    (rows stored by ascending id, so ids are unique; ids below the counter
    of the table; every entry belongs to a snapshot of the table) keeps
    them whatever events it handles, and the batch of every fetch in flight
    stays a row of the table: the pruning never deletes the batch of a
    running fetch, and deletes the entries of every snapshot it deletes. *)
Theorem snapshot_table_stays_sound (d : DB) (t : Z) (es : list event) :
  wfDB d → wfDB (db (run (initial d t) es)) ∧ batchesStored (run (initial d t) es).
Proof.
  intros Hwf.
  by destruct (run_tablesSound es (initial d t) (registered_initial d t)
                 (tablesSound_initial d t Hwf)) as [[? ?] _].
Qed.

Lemma snapshot_table_stays_sound_witness :
  wfDB emptyDB ∧ wfDB (db duplicateThenGone) ∧ batchesStored duplicateThenGone.
Proof.
  assert (Hwf : wfDB emptyDB) by (repeat split; constructor).
  split; [exact Hwf|].
  exact (snapshot_table_stays_sound emptyDB 0
           [UpdateBlocks user7; BlocksIds 0 (IdsOk (mkIds ["4"; "5"] "1500"));
            BlocksIds 0 (IdsOk (mkIds ["4"] "0"));
            UpdateBlocks user7; BlocksIds 1 (IdsOk (mkIds ["5"] "0"))] Hwf).
Defined.

(** X11.  On such a table the [size] column is kept in step with the entries: if
    the size of every snapshot is the number of its entries when the
    process starts, it is so after every event, also for the snapshot of a
    fetch that is still storing pages. *)
Theorem size_counts_entries (d : DB) (t : Z) (es : list event) :
  wfDB d → sizesAgree d → sizesAgree (db (run (initial d t) es)).
Proof.
  intros Hwf Hsizes.
  destruct (run_tablesSound es (initial d t) (registered_initial d t)
              (tablesSound_initial d t Hwf)) as [_ Hrun].
  by apply Hrun.
Qed.

Lemma size_counts_entries_witness :
  wfDB emptyDB ∧ sizesAgree emptyDB ∧ sizesAgree (db firstPageStored).
Proof.
  assert (Hwf : wfDB emptyDB) by (repeat split; constructor).
  assert (Hsizes : sizesAgree emptyDB) by constructor.
  split; [exact Hwf|]. split; [exact Hsizes|].
  exact (size_counts_entries emptyDB 0
           [UpdateBlocks user7; BlocksIds 0 (IdsOk (twoPageServer "-1"))] Hwf Hsizes).
Defined.

(** X12.  The identifier directory never loses a uid, whatever events the
    process handles, and if it holds the uid of every entry it still does
    afterwards: a page adds its uids to the directory together with its
    entries. *)
Theorem directory_covers_entries (s : state) (es : list event) :
  TwitterUsers (db s) ⊆ TwitterUsers (db (run s es)) ∧
  (entriesKnown (db s) → entriesKnown (db (run s es))).
Proof. apply run_directory. Qed.

(* ================================================================== *)
(** * One fetch per user, one batch per fetch *)

Section OneBatch.
Implicit Types (d : DB) (s : state) (b : BlockBatch.row) (user : BtUser).

Lemma destroyOldBlocks_sublist u d :
  BlockBatches (destroyOldBlocks u d) `sublist_of` BlockBatches d.
Proof. rewrite destroyOldBlocks_destroy. apply sublist_filter. Qed.

(** The ids of the batch table after an answer: a first page adds the next
    id of the table, no other answer adds a row, and only the pruning of a
    last page removes rows. *)
Lemma onBlocksIds_ids p r s user blockBatch c :
  promises s !! p = Some (AwaitBlocksIds user blockBatch c) →
  let base := (BlockBatch.id <$> BlockBatches (db s)) ++
              match blockBatch, r with
              | None, IdsOk _ => [nextBlockBatchId (db s)]
              | _, _ => []
              end in
  BlockBatch.id <$> BlockBatches (db (onBlocksIds p r s)) `sublist_of` base ∧
  match r with
  | IdsOk results =>
      next_cursor_str results ≠ "0" →
      BlockBatch.id <$> BlockBatches (db (onBlocksIds p r s)) = base
  | IdsErr _ => BlockBatch.id <$> BlockBatches (db (onBlocksIds p r s)) = base
  end.
Proof.
  intros Hp. cbv zeta. destruct r as [results|statusCode].
  - destruct (onBlocksIds_ok p results s user blockBatch c Hp) as (_ & _ & Hcase).
    set (start := batchOfPage user blockBatch (db s)) in *.
    destruct (handleIds_tables start.2 c results start.1) as (Ht & _).
    set (stored := handleIds start.2 c results start.1) in *.
    assert (Hids : BlockBatch.id <$> BlockBatches stored.1.1 =
                   (BlockBatch.id <$> BlockBatches (db s)) ++
                   match blockBatch with
                   | None => [nextBlockBatchId (db s)]
                   | Some _ => []
                   end).
    { rewrite Ht, BlockBatch_save_ids. unfold start.
      destruct blockBatch; cbn [batchOfPage fst]; [by rewrite app_nil_r|].
      simpl. by rewrite fmap_app. }
    destruct (decide (next_cursor_str results = "0")) as [Hlast|Hmore].
    + destruct Hcase as (-> & _). split; [|done].
      rewrite (snapshotStore_BlockBatches _ _ (startedBySealing_store s stored.1.2 stored.1.1)).
      etrans; [apply fmap_sublist, destroyOldBlocks_sublist|].
      rewrite BlockBatch_save_ids, Hids. by destruct blockBatch.
    + destruct Hcase as (-> & _). rewrite Hids. by destruct blockBatch.
  - assert (Hdb : db (onBlocksIds p (IdsErr statusCode) s) = db s).
    { unfold onBlocksIds. rewrite Hp.
      destruct (decide (statusCode = 429%Z)); [destruct blockBatch|]; done. }
    rewrite Hdb. destruct blockBatch; by rewrite app_nil_r.
Qed.

End OneBatch.

(** C5 as stated fails: the second of two calls made while the first fetch
    is in flight does not return the promise registered for the user
    (promise 0) but a new promise (promise 1) that is already resolved with
    [null]. *)
Lemma second_call_returns_null_promise :
  activeFetches (updateBlocks user7 (initial emptyDB 0)).2 !! "7" = Some 0 ∧
  (updateBlocks user7 (updateBlocks user7 (initial emptyDB 0)).2).1 = 1 ∧
  promises (updateBlocks user7 (updateBlocks user7 (initial emptyDB 0)).2).2 !! 1
    = Some (Resolved None).
Proof. repeat split; vm_compute; reflexivity. Qed.

(** C5, amended.  In a reachable state, a call for a user whose fetch is in
    flight sends no request, touches neither the database nor the
    registrations nor the fetch in flight, and returns a new promise that is
    already resolved with [null] (not the promise in flight).  Two calls in
    a row for a user without a fetch in flight send exactly one request and
    leave one fetch in flight, and an answer addressed to the promise of the
    second call changes nothing.  That fetch creates exactly one batch: its
    first page adds one row to the batch table, with the next id of the
    table, and no later answer adds a row (a last page only prunes). *)
Theorem updateBlocks_single_flight (s : state) (user : BtUser) :
  reachable s →
  match activeFetches s !! uid user with
  | Some p0 =>
      (updateBlocks user s).1 ≠ p0 ∧
      promises (updateBlocks user s).2 !! (updateBlocks user s).1 = Some (Resolved None) ∧
      promises (updateBlocks user s).2 !! p0 = promises s !! p0 ∧
      requests (updateBlocks user s).2 = requests s ∧
      db (updateBlocks user s).2 = db s ∧
      activeFetches (updateBlocks user s).2 = activeFetches s
  | None =>
      let p1 := (updateBlocks user s).1 in
      let s1 := (updateBlocks user s).2 in
      let p2 := (updateBlocks user s1).1 in
      let s2 := (updateBlocks user s1).2 in
      requests s2 = requests s ++ [(p1, "-1")] ∧
      promises s2 !! p1 = Some (AwaitBlocksIds user None "-1") ∧
      promises s2 !! p2 = Some (Resolved None) ∧
      activeFetches s2 !! uid user = Some p1 ∧
      db s2 = db s ∧
      (∀ r, onBlocksIds p2 r s2 = s2) ∧
      (∀ results,
         nextBlockBatchId (db (onBlocksIds p1 (IdsOk results) s2))
           = S (nextBlockBatchId (db s))) ∧
      (∀ s' b c r,
         promises s' !! p1 = Some (AwaitBlocksIds user (Some b) c) →
         nextBlockBatchId (db (onBlocksIds p1 r s')) = nextBlockBatchId (db s')) ∧
      (∀ results,
         BlockBatch.id <$> BlockBatches (db (onBlocksIds p1 (IdsOk results) s2))
           `sublist_of` (BlockBatch.id <$> BlockBatches (db s)) ++ [nextBlockBatchId (db s)]) ∧
      (∀ results,
         next_cursor_str results ≠ "0" →
         BlockBatch.id <$> BlockBatches (db (onBlocksIds p1 (IdsOk results) s2))
           = (BlockBatch.id <$> BlockBatches (db s)) ++ [nextBlockBatchId (db s)] ∧
         last (BlockBatches (db (onBlocksIds p1 (IdsOk results) s2)))
           = Some (BlockBatch.mk (nextBlockBatchId (db s)) (uid user)
                                 (length (ids results)) (Some "-1") false)) ∧
      (∀ s' b c r,
         promises s' !! p1 = Some (AwaitBlocksIds user (Some b) c) →
         BlockBatch.id <$> BlockBatches (db (onBlocksIds p1 r s'))
           `sublist_of` BlockBatch.id <$> BlockBatches (db s'))
  end.
Proof.
  intros Hreach. destruct (reachable_invariants s Hreach) as [Hreg [Hprom Hact]].
  destruct (updateBlocks_fields user s) as (Hp1 & Hn1 & Hd1 & _ & _ & Hcase1).
  destruct (activeFetches s !! uid user) as [p0|] eqn:Hactive.
  - destruct Hcase1 as (Ha & Hp & Hr). rewrite Hp1, Hp, Ha, Hr, Hd1.
    specialize (Hact _ _ Hactive).
    split; [lia|]. split; [apply lookup_insert_eq|].
    split; [apply lookup_insert_ne; lia|done].
  - cbv zeta. destruct Hcase1 as (Ha1 & Hpr1 & Hr1).
    set (s1 := (updateBlocks user s).2) in *.
    destruct (updateBlocks_fields user s1) as (Hp2 & Hn2 & Hd2 & _ & _ & Hcase2).
    rewrite Ha1, lookup_insert_eq in Hcase2. destruct Hcase2 as (Ha2 & Hpr2 & Hr2).
    set (s2 := (updateBlocks user s1).2) in *.
    rewrite Hp2, Hp1, Hn1.
    assert (Hfirst : promises s2 !! nextPromise s = Some (AwaitBlocksIds user None "-1")).
    { rewrite Hpr2, Hpr1, lookup_insert_ne by lia. apply lookup_insert_eq. }
    assert (Hsecond : promises s2 !! S (nextPromise s) = Some (Resolved None)).
    { rewrite Hpr2, Hn1. apply lookup_insert_eq. }
    assert (Hdb2 : db s2 = db s) by (by rewrite Hd2, Hd1).
    split; [by rewrite Hr2, Hr1|]. split; [done|]. split; [done|].
    split; [rewrite Ha2; apply lookup_insert_eq|].
    split; [done|]. split; [|split; [|split; [|split; [|split]]]].
    + intros r. unfold onBlocksIds. by rewrite Hsecond.
    + intros results. rewrite onBlocksIds_counter, Hfirst. by rewrite Hdb2.
    + intros s' b c r Hs'. rewrite onBlocksIds_counter, Hs'. by destruct r.
    + intros results.
      destruct (onBlocksIds_ids _ (IdsOk results) s2 user None "-1" Hfirst) as [Hsub _].
      by rewrite Hdb2 in Hsub.
    + intros results Hmore.
      destruct (onBlocksIds_ids _ (IdsOk results) s2 user None "-1" Hfirst) as [_ Heq].
      rewrite Hdb2 in Heq. split; [by apply Heq|].
      destruct (onBlocksIds_ok _ results s2 user None "-1" Hfirst) as (_ & _ & Hcase).
      rewrite decide_False in Hcase by done. destruct Hcase as (-> & _).
      rewrite Hdb2. cbn [batchOfPage BlockBatch_create fst snd].
      unfold handleIds, BlockBatch_save. cbn [fst snd BlockBatches set_Blocks
        set_TwitterUsers set_BlockBatches BlockBatch.id BlockBatch.size
        BlockBatch.source_uid BlockBatch.complete].
      rewrite fmap_app, list_fmap_singleton, last_snoc.
      by rewrite decide_True.
    + intros s' b c r Hs'.
      destruct (onBlocksIds_ids _ r s' user (Some b) c Hs') as [Hsub _].
      by rewrite app_nil_r in Hsub.
Qed.

Lemma updateBlocks_single_flight_witness :
  (requests (updateBlocks user7 (updateBlocks user7 (initial emptyDB 0)).2).2
     = [(0, "-1")] ∧
   promises (updateBlocks user7 (updateBlocks user7 (initial emptyDB 0)).2).2 !! 0
     = Some (AwaitBlocksIds user7 None "-1") ∧
   promises (updateBlocks user7 (updateBlocks user7 (initial emptyDB 0)).2).2 !! 1
     = Some (Resolved None)) ∧
  ((updateBlocks user7 (run (initial emptyDB 0) [UpdateBlocks user7])).1 ≠ 0 ∧
   requests (updateBlocks user7 (run (initial emptyDB 0) [UpdateBlocks user7])).2
     = requests (run (initial emptyDB 0) [UpdateBlocks user7])).
Proof.
  split.
  - assert (Hreach : reachable (initial emptyDB 0)).
    { exists emptyDB, 0%Z, []. reflexivity. }
    pose proof (updateBlocks_single_flight (initial emptyDB 0) user7 Hreach) as W.
    assert (Hnone : activeFetches (initial emptyDB 0) !! uid user7 = None) by reflexivity.
    rewrite Hnone in W. destruct W as (H1 & H2 & H3 & _).
    split; [exact H1|]. split; [exact H2|exact H3].
  - assert (Hreach : reachable (run (initial emptyDB 0) [UpdateBlocks user7])).
    { exists emptyDB, 0%Z, [UpdateBlocks user7]. reflexivity. }
    pose proof (updateBlocks_single_flight
                  (run (initial emptyDB 0) [UpdateBlocks user7]) user7 Hreach) as W.
    assert (Hsome : activeFetches (run (initial emptyDB 0) [UpdateBlocks user7])
                      !! uid user7 = Some 0) by reflexivity.
    rewrite Hsome in W. destruct W as (H1 & _ & _ & H4 & _).
    split; [exact H1|exact H4].
Defined.

(* ================================================================== *)
(** * A whole sync, page by page *)

Section Pages.
Implicit Types (d : DB) (s : state) (b : BlockBatch.row) (user : BtUser)
  (acc : list IdsResult).

Lemma entriesOf_app i (l1 l2 : list string) :
  entriesOf i (l1 ++ l2) = entriesOf i l1 ++ entriesOf i l2.
Proof. unfold entriesOf. apply fmap_app. Qed.

Lemma concat_ids_snoc acc r :
  concat (ids <$> (acc ++ [r])) = concat (ids <$> acc) ++ ids r.
Proof. rewrite fmap_app, concat_app. simpl. by rewrite app_nil_r. Qed.

Lemma pluck_entriesOf i (l : list string) : pluck Block.sink_uid (entriesOf i l) = l.
Proof.
  unfold pluck, entriesOf. rewrite <- list_fmap_compose.
  induction l as [|x l IH]; [done|]. rewrite fmap_cons. simpl. by f_equal.
Qed.

Lemma cursorsAsked_snoc p acc r :
  cursorsAsked p (acc ++ [r])
  = cursorsAsked p acc ++ [(p, cursorOrStart (Some (next_cursor_str r)))].
Proof. unfold cursorsAsked. by rewrite fmap_app. Qed.

(** The state right after the call of [updateBlocks]. *)
Lemma updateBlocks_storing user s :
  activeFetches s !! uid user = None →
  storing s user [] (step s (UpdateBlocks user)).
Proof.
  intros Hnone. cbn [step].
  destruct (updateBlocks_fields user s) as (_ & _ & Hdb & Hlk & Hnow & Hcase).
  rewrite Hnone in Hcase. destruct Hcase as (Hact & Hprom & Hreq).
  unfold storing. cbv zeta. rewrite Hact, Hreq, Hlk, Hnow, Hdb, Hprom.
  split; [apply lookup_insert_eq|]. split; [done|]. split; [done|]. split; [done|].
  split; [done|]. split; [simpl; by rewrite (right_id_L ∅ (∪))|].
  exists None, "-1". split; [apply lookup_insert_eq|]. split; [by rewrite last_snoc|done].
Qed.

(** The batch a page is stored in, for a fetch that is storing. *)
Lemma batchOfPage_storing d0 user blockBatch acc d :
  wfDB d0 →
  match blockBatch with
  | None => acc = [] ∧ d = d0
  | Some b =>
      carrying d0 (uid user) b d ∧
      Blocks d = Blocks d0 ++ entriesOf (BlockBatch.id b) (concat (ids <$> acc)) ∧
      BlockBatch.size b = length (concat (ids <$> acc))
  end →
  carrying d0 (uid user) (batchOfPage user blockBatch d).2 (batchOfPage user blockBatch d).1 ∧
  Blocks (batchOfPage user blockBatch d).1
    = Blocks d0 ++ entriesOf (BlockBatch.id (batchOfPage user blockBatch d).2)
                             (concat (ids <$> acc)) ∧
  BlockBatch.size (batchOfPage user blockBatch d).2 = length (concat (ids <$> acc)) ∧
  TwitterUsers (batchOfPage user blockBatch d).1 = TwitterUsers d ∧
  journal (batchOfPage user blockBatch d).1 = journal d.
Proof.
  intros Hwf Hcase. destruct blockBatch as [b|]; cbn [batchOfPage fst snd].
  - by destruct Hcase as (? & ? & ?).
  - destruct Hcase as [-> ->]. split; [by apply BlockBatch_create_carrying|].
    simpl. by rewrite app_nil_r.
Qed.

(** A page that is not the last. *)
Lemma page_storing s0 user acc s r :
  wfDB (db s0) → storing s0 user acc s → next_cursor_str r ≠ "0" →
  storing s0 user (acc ++ [r]) (step s (BlocksIds (nextPromise s0) (IdsOk r))).
Proof.
  intros Hwf (Hact & Hreq & Hlk & Hnow & Hj & Htw & blockBatch & c & Hp & Hlast & Hcase) Hmore.
  cbn [step].
  destruct (onBlocksIds_ok (nextPromise s0) r s user blockBatch c Hp) as (_ & Hnow' & Hok).
  rewrite decide_False in Hok by done.
  destruct Hok as (Hdb' & Hlk' & Hprom' & Hact' & Hreq').
  destruct (batchOfPage_storing (db s0) user blockBatch acc (db s) Hwf Hcase)
    as (Hcarry1 & Hblocks1 & Hsize1 & Htw1 & Hj1).
  set (start := batchOfPage user blockBatch (db s)) in *.
  pose proof (handleIds_carrying (db s0) (uid user) start.2 start.1 c r Hcarry1) as Hcarry2.
  destruct (handleIds_tables start.2 c r start.1) as (_ & Hblocks2 & Htw2 & _ & Hsize2 & _).
  destruct (handleIds_fields start.2 c r start.1) as (_ & Hid2 & _).
  assert (Hj2 : journal (handleIds start.2 c r start.1).1.1 = journal start.1) by done.
  set (stored := handleIds start.2 c r start.1) in *.
  unfold storing. cbv zeta. rewrite Hact', Hreq', Hlk', Hnow', Hdb', Hprom'.
  split; [done|]. split; [by rewrite Hreq, cursorsAsked_snoc, app_assoc|].
  split; [done|]. split; [done|]. split; [congruence|]. split.
  { rewrite Htw2, Htw1, Htw, concat_ids_snoc, list_to_set_app_L. by rewrite (assoc_L (∪)). }
  eexists (Some stored.1.2), _. split; [apply lookup_insert_eq|].
  split; [by rewrite last_snoc|]. split; [done|]. split.
  - rewrite Hblocks2, Hblocks1, Hid2, concat_ids_snoc, entriesOf_app. by rewrite app_assoc.
  - rewrite Hsize2, Hsize1, concat_ids_snoc, length_app. done.
Qed.

Lemma pages_storing s0 user init : ∀ acc s,
  wfDB (db s0) → storing s0 user acc s →
  Forall (λ r, next_cursor_str r ≠ "0") init →
  storing s0 user (acc ++ init)
    (run s ((λ r, BlocksIds (nextPromise s0) (IdsOk r)) <$> init)).
Proof.
  induction init as [|r init IH]; intros acc s Hwf Hst Hinit.
  - by rewrite app_nil_r.
  - apply Forall_cons in Hinit as [Hr Hinit]. rewrite fmap_cons. cbn [run foldl].
    replace (acc ++ r :: init) with ((acc ++ [r]) ++ init) by (by rewrite <- app_assoc).
    apply IH; [done| |done]. by apply page_storing.
Qed.

(** The entries of the batch of the fetch, read back from the table after
    the pruning. *)
Lemma getBlocks_newest d0 b d (l : list string) (destroyed : list nat) :
  wfDB d0 → BlockBatch.id b = nextBlockBatchId d0 →
  Blocks d = Blocks d0 ++ entriesOf (BlockBatch.id b) l →
  BlockBatch.id b ∉ destroyed →
  pluck Block.sink_uid
    (filter (λ e, Block.BlockBatchId e = BlockBatch.id b)
       (filter (λ e, Block.BlockBatchId e ∉ destroyed) (Blocks d))) = l.
Proof.
  intros (_ & Hbelow & Hentries) Hid Hblocks Hnot.
  rewrite list_filter_filter, Hblocks, filter_app.
  rewrite filter_none, filter_all; [apply pluck_entriesOf|..].
  - eapply Forall_impl; [apply entriesOf_batch|]. intros e He. simpl. by rewrite He.
  - eapply Forall_impl; [exact Hentries|]. intros e He [Heq _]. simpl in *.
    rewrite Heq, Hid in He. apply list_elem_of_fmap in He as (r & Hr1 & Hr2).
    rewrite Forall_forall in Hbelow. specialize (Hbelow r Hr2). lia.
Qed.

End Pages.

Section Journal.
Implicit Types (d : DB) (s : state).

Lemma recordAction_journal src k t now d1 d2 :
  journal d1 = journal d2 →
  journal (recordAction src k t now d1).1 = journal (recordAction src k t now d2).1 ∧
  (recordAction src k t now d1).2 = (recordAction src k t now d2).2.
Proof.
  unfold journal. intros [= Ha Hb Hn].
  rewrite !recordAction_logged. split; [|done].
  rewrite !recordAction_Actions, !recordAction_counter, !recordAction_annotated.
  unfold Action_find. rewrite Ha, Hb, Hn. by destruct (head _).
Qed.

Lemma forEach_journal body l :
  (∀ x d1 d2, journal d1 = journal d2 →
     journal (body x d1).1 = journal (body x d2).1 ∧ (body x d1).2 = (body x d2).2) →
  ∀ d1 d2, journal d1 = journal d2 →
    journal (forEach body l d1).1 = journal (forEach body l d2).1 ∧
    (forEach body l d1).2 = (forEach body l d2).2.
Proof.
  intros Hbody. induction l as [|x l IH]; intros d1 d2 Hj; [done|].
  cbn [forEach fst snd]. destruct (Hbody x d1 d2 Hj) as [Hj1 Hr1].
  destruct (IH _ _ Hj1) as [Hj2 Hr2]. split; [done|]. by rewrite Hr1, Hr2.
Qed.

Lemma recordBlocks_journal source added now d1 d2 :
  journal d1 = journal d2 →
  journal (recordBlocks source added now d1).1 = journal (recordBlocks source added now d2).1.
Proof.
  intros Hj. unfold recordBlocks. apply forEach_journal; [|done].
  intros x d1' d2' Hj'. destruct (recordAction_journal source x Action.BLOCK now d1' d2' Hj')
    as [H1 H2]. cbn [fst snd]. split; [done|]. by rewrite H2.
Qed.

Lemma destroyOldBlocks_journal u d : journal (destroyOldBlocks u d) = journal d.
Proof.
  destruct (destroyOldBlocks_log u d) as (Ha & Hn & Hb). unfold journal. by rewrite Ha, Hn, Hb.
Qed.

Lemma recordBlocks_pruned source added now u d :
  journal (recordBlocks source added now (destroyOldBlocks u d)).1
  = journal (recordBlocks source added now d).1.
Proof. apply recordBlocks_journal, destroyOldBlocks_journal. Qed.

(** Only the database's own event moves the point of the destroy. *)
Lemma step_destroyAt s e :
  destroyAt (step s e) = match e with DestroyAt point => point | _ => destroyAt s end.
Proof.
  destruct e as [user|p r|p|k r|ms|point]; cbn [step]; try done.
  - unfold updateBlocks. by destruct (activeFetches s !! uid user).
  - unfold onBlocksIds.
    destruct (promises s !! p) as [[user blockBatch c| |]|]; try done.
    destruct r as [results|statusCode].
    + destruct (match blockBatch with
                | None => BlockBatch_create (uid user) (db s)
                | Some b => (db s, b)
                end) as [db1 b1].
      destruct (handleIds b1 c results db1) as [[db2 b2] nc].
      destruct (decide (nc = "0")); [|done].
      unfold finalizeBlockBatch. cbv zeta.
      by destruct (diffBatchWithPrevious_among _ _ _ _).
    + destruct (decide (statusCode = 429%Z)); [destruct blockBatch|]; done.
  - unfold onDelayElapsed.
    destruct (promises s !! p) as [[| user b c wake |]|]; try done.
    by destruct (decide (wake ≤ now s)%Z).
  - unfold onUsersLookup. by destruct (lookups s !! k).
Qed.

Lemma pages_destroyAt p (pages : list IdsResult) : ∀ s,
  destroyAt (run s ((λ r, BlocksIds p (IdsOk r)) <$> pages)) = destroyAt s.
Proof.
  induction pages as [|r pages IH]; intros s; [done|].
  rewrite fmap_cons. cbn [run foldl]. fold (run (step s (BlocksIds p (IdsOk r)))
    ((λ r, BlocksIds p (IdsOk r)) <$> pages)). by rewrite IH, step_destroyAt.
Qed.

End Journal.

Section Final.
Implicit Types (d : DB) (s : state) (b : BlockBatch.row) (user : BtUser).

Lemma sync_snoc user s init final :
  sync user s (init ++ [final]) =
  step (run (step s (UpdateBlocks user))
            ((λ r, BlocksIds (nextPromise s) (IdsOk r)) <$> init))
       (BlocksIds (nextPromise s) (IdsOk final)).
Proof. unfold sync, run. rewrite fmap_app. cbn [foldl]. by rewrite foldl_app. Qed.

(** The state after the last page of a sync, in terms of the database
    [d3] on which the diff runs. *)
Lemma sync_final user s init final :
  wfDB (db s) → activeFetches s !! uid user = None →
  Forall (λ r, next_cursor_str r ≠ "0") init → next_cursor_str final = "0" →
  ∃ b' d3,
    BlockBatch.id b' = nextBlockBatchId (db s) ∧ BlockBatch.source_uid b' = uid user ∧
    BlockBatch.complete b' = true ∧
    BlockBatch.size b' = length (concat (ids <$> (init ++ [final]))) ∧
    BlockBatch.currentCursor b' = snd <$> last (requests (sync user s (init ++ [final]))) ∧
    wfDB d3 ∧ BlockBatches d3 = BlockBatches (db s) ++ [b'] ∧
    Blocks d3 = Blocks (db s) ++ entriesOf (BlockBatch.id b') (concat (ids <$> (init ++ [final]))) ∧
    TwitterUsers d3 = TwitterUsers (db s) ∪ list_to_set (concat (ids <$> (init ++ [final]))) ∧
    journal d3 = journal (db s) ∧
    db (sync user s (init ++ [final]))
      = (diffBatchWithPrevious_among (destroyOldBlocks_at (destroyAt s) (uid user))
           b' (now s) d3).1 ∧
    lookups (sync user s (init ++ [final]))
      = lookups s ++
        callbacksOf (diffBatchWithPrevious_among
                       (destroyOldBlocks_at (destroyAt s) (uid user)) b' (now s) d3).2 ∧
    promises (sync user s (init ++ [final])) !! nextPromise s = Some (Resolved (Some b')) ∧
    activeFetches (sync user s (init ++ [final])) !! uid user = None ∧
    requests (sync user s (init ++ [final])) = requests s ++ cursorsAsked (nextPromise s) init.
Proof.
  intros Hwf Hnone Hinit Hfinal. rewrite sync_snoc.
  pose proof (pages_storing s user init [] _ Hwf (updateBlocks_storing user s Hnone) Hinit)
    as Hst. rewrite app_nil_l in Hst.
  assert (Hat : destroyAt (run (step s (UpdateBlocks user))
                    ((λ r, BlocksIds (nextPromise s) (IdsOk r)) <$> init)) = destroyAt s).
  { by rewrite pages_destroyAt, step_destroyAt. }
  set (s1 := run (step s (UpdateBlocks user)) _) in *.
  destruct Hst as (Hact & Hreq & Hlk & Hnow & Hj & Htw & blockBatch & c & Hp & Hlast & Hcase).
  cbn [step].
  destruct (onBlocksIds_ok (nextPromise s) final s1 user blockBatch c Hp) as (_ & _ & Hok).
  rewrite decide_True in Hok by done.
  destruct Hok as (Hdb' & Hlk' & Hprom' & Hact' & Hreq').
  destruct (batchOfPage_storing (db s) user blockBatch init (db s1) Hwf Hcase)
    as (Hcarry1 & Hblocks1 & Hsize1 & Htw1 & Hj1).
  set (start := batchOfPage user blockBatch (db s1)) in *.
  pose proof (handleIds_carrying (db s) (uid user) start.2 start.1 c final Hcarry1)
    as (Hwf2 & Ht2 & Hn2 & Hid2 & Hsrc2 & _).
  destruct (handleIds_tables start.2 c final start.1)
    as (_ & Hblocks2 & Htw2 & _ & Hsize2 & Hcur2).
  destruct (handleIds_fields start.2 c final start.1) as (_ & Hid2' & _).
  assert (Hj2 : journal (handleIds start.2 c final start.1).1.1 = journal start.1) by done.
  set (stored := handleIds start.2 c final start.1) in *.
  exists (sealed stored.1.2), (BlockBatch_save (sealed stored.1.2) stored.1.1).
  unfold startedBySealing in Hdb', Hlk'.
  rewrite Hdb', Hlk', Hprom', Hact', Hreq', Hlk, Hreq, Hnow, Hsrc2, Hat.
  split; [done|]. split; [done|]. split; [done|].
  split; [unfold sealed; cbn [BlockBatch.size];
          by rewrite Hsize2, Hsize1, concat_ids_snoc, length_app|].
  split; [unfold sealed; cbn [BlockBatch.currentCursor]; by rewrite Hcur2, <- Hreq, Hlast|].
  split; [by apply BlockBatch_save_wf|]. split.
  { cbn [BlockBatch_save set_BlockBatches BlockBatches]. rewrite Ht2.
    apply save_newest; [|done]. rewrite <- Ht2. by destruct Hwf2. }
  split.
  { cbn [BlockBatch_save set_BlockBatches Blocks sealed BlockBatch.id].
    rewrite Hblocks2, Hblocks1, Hid2', concat_ids_snoc, entriesOf_app.
    by rewrite app_assoc. }
  split.
  { cbn [BlockBatch_save set_BlockBatches TwitterUsers].
    rewrite Htw2, Htw1, Htw, concat_ids_snoc, list_to_set_app_L.
    by rewrite (assoc_L (∪)). }
  split; [by rewrite <- Hj, <- Hj1, <- Hj2|].
  split; [done|]. split; [done|].
  split; [apply lookup_insert_eq|]. split; [apply lookup_delete_eq|done].
Qed.

(** The batch of the sync survives the pruning that sealing starts. *)
Lemma newest_survives u d0 d3 d4 b' :
  wfDB d0 → wfDB d3 → BlockBatches d3 = BlockBatches d0 ++ [b'] →
  BlockBatch.id b' = nextBlockBatchId d0 →
  snapshotStore d4 = snapshotStore (destroyOldBlocks u d3) →
  b' ∈ BlockBatches d4 ∧
  Blocks d4
    = filter (λ e, Block.BlockBatchId e ∉ pluck BlockBatch.id (oldBlockBatches u d3))
             (Blocks d3) ∧
  (BlockBatch.id b' ∉ pluck BlockBatch.id (oldBlockBatches u d3)) ∧
  TwitterUsers d4 = TwitterUsers d3.
Proof.
  intros (_ & Hbelow & _) Hwf3 Ht3 Hid Hstore.
  assert (Hin : b' ∈ BlockBatches (destroyOldBlocks u d3)).
  { apply destroyOldBlocks_keeps_newest; [done|rewrite Ht3, elem_of_app; right; by left|].
    unfold newerBatches, userBatches. rewrite Ht3.
    rewrite filter_none; [simpl; lia|].
    apply Forall_forall. intros r Hr. apply list_elem_of_filter in Hr as [_ Hr].
    apply elem_of_app in Hr as [Hr|Hr].
    - rewrite Forall_forall in Hbelow. specialize (Hbelow r Hr). lia.
    - apply list_elem_of_singleton in Hr as ->. lia. }
  unfold snapshotStore in Hstore. injection Hstore as Hb Hk Htw _.
  rewrite Hb, Hk, Htw. split; [done|]. rewrite destroyOldBlocks_destroy in Hin |- *.
  split; [done|]. split; [|done].
  simpl in Hin. by apply list_elem_of_filter in Hin as [? _].
Qed.

End Final.

(** X13.  A sync stores what the remote list served: when the pages of a fetch
    are answered in order and only the last one carries the cursor "0",
    the fetch asks for the start cursor and then for the next cursor of
    every page but the last (for the start cursor again after an empty
    next cursor), and resolves to a complete batch with the next id of the
    table that is a row of the table after the pruning.  The entries of
    that batch are the uids of all pages in the order served, with their
    repetitions; its size is their number, its cursor is the cursor of the
    last request, and all the uids are in the identifier directory. *)
Theorem sync_stores_the_pages (user : BtUser) (s : state) (init : list IdsResult)
    (final : IdsResult) :
  wfDB (db s) → activeFetches s !! uid user = None →
  Forall (λ r, next_cursor_str r ≠ "0") init → next_cursor_str final = "0" →
  ∃ b,
    promises (sync user s (init ++ [final])) !! nextPromise s = Some (Resolved (Some b)) ∧
    b ∈ BlockBatches (db (sync user s (init ++ [final]))) ∧
    BlockBatch.id b = nextBlockBatchId (db s) ∧
    BlockBatch.source_uid b = uid user ∧ BlockBatch.complete b = true ∧
    BlockBatch.size b = length (concat (ids <$> (init ++ [final]))) ∧
    snapshotIds b (db (sync user s (init ++ [final]))) = concat (ids <$> (init ++ [final])) ∧
    BlockBatch.currentCursor b = snd <$> last (requests (sync user s (init ++ [final]))) ∧
    requests (sync user s (init ++ [final]))
      = requests s ++ (nextPromise s, "-1") ::
          ((λ r, (nextPromise s, cursorOrStart (Some (next_cursor_str r)))) <$> init) ∧
    list_to_set (concat (ids <$> (init ++ [final])))
      ⊆ TwitterUsers (db (sync user s (init ++ [final]))).
Proof.
  intros Hwf Hnone Hinit Hfinal.
  destruct (sync_final user s init final Hwf Hnone Hinit Hfinal)
    as (b' & d3 & Hid & Hsrc & Hc & Hsize & Hcur & Hwf3 & Ht3 & Hk3 & Htw3 & Hj3 &
        Hdb & Hlk & Hprom & Hact & Hreq).
  destruct (newest_survives (uid user) (db s) d3 _ b' Hwf Hwf3 Ht3 Hid
              (diffAmongPruning_store (destroyAt s) (uid user) b' (now s) d3))
    as (Hin & Hblocks & Hnot & Htw).
  exists b'. split; [exact Hprom|]. split; [by rewrite Hdb|].
  do 4 (split; [done|]). split.
  { rewrite Hdb. unfold snapshotIds, getBlocks. rewrite Hblocks.
    by apply (getBlocks_newest (db s)). }
  split; [done|]. split; [exact Hreq|]. rewrite Hdb, Htw, Htw3.
  apply union_subseteq_r.
Qed.

Lemma sync_stores_the_pages_witness :
  ∃ b,
    promises (sync user7 (initial emptyDB 0) [twoPageServer "-1"; twoPageServer "100"]) !! 0
      = Some (Resolved (Some b)) ∧
    BlockBatch.size b = 3 ∧
    snapshotIds b (db (sync user7 (initial emptyDB 0)
                         [twoPageServer "-1"; twoPageServer "100"])) = ["1"; "2"; "3"] ∧
    requests (sync user7 (initial emptyDB 0) [twoPageServer "-1"; twoPageServer "100"])
      = [(0, "-1"); (0, "100")].
Proof.
  assert (Hwf : wfDB (db (initial emptyDB 0))) by (repeat split; constructor).
  assert (Hinit : Forall (λ r, next_cursor_str r ≠ "0") [twoPageServer "-1"])
    by (by repeat constructor).
  destruct (sync_stores_the_pages user7 (initial emptyDB 0) [twoPageServer "-1"]
              (twoPageServer "100") Hwf eq_refl Hinit eq_refl)
    as (b & Hprom & _ & _ & _ & _ & Hsize & Hids & _ & Hreq & _).
  exists b. split; [exact Hprom|]. split; [exact Hsize|]. split; [exact Hids|exact Hreq].
Defined.

(* ================================================================== *)
(** * What a whole sync records *)

Section Recorded.
Implicit Types (d : DB) (s : state) (b : BlockBatch.row) (user : BtUser).

Lemma diffBatchWithPrevious_short cur now d :
  length (latestComplete cur d) ≤ 1 → diffBatchWithPrevious cur now d = (d, []).
Proof.
  intros Hshort. rewrite diffBatchWithPrevious_eq.
  destruct (latestComplete cur d) as [|b1 [|b2 [|b3 l]]]; try done.
  simpl in Hshort. lia.
Qed.

(** The entries of a batch in a table that has gained entries of a batch
    with another id. *)
Lemma snapshotIds_other b d0 d i (l : list string) :
  Blocks d = Blocks d0 ++ entriesOf i l → BlockBatch.id b ≠ i →
  snapshotIds b d = snapshotIds b d0.
Proof.
  intros Hblocks Hne. unfold snapshotIds, getBlocks. rewrite Hblocks, filter_app.
  rewrite (filter_none _ (entriesOf i l)); [by rewrite app_nil_r|].
  eapply Forall_impl; [apply entriesOf_batch|]. intros e He. simpl. congruence.
Qed.

(** The entries of the batch with the next id of a table that satisfies
    the invariants are those added for it. *)
Lemma snapshotIds_fresh b d0 d (l : list string) :
  wfDB d0 → BlockBatch.id b = nextBlockBatchId d0 →
  Blocks d = Blocks d0 ++ entriesOf (BlockBatch.id b) l →
  snapshotIds b d = l.
Proof.
  intros (_ & Hbelow & Hentries) Hid Hblocks. unfold snapshotIds, getBlocks.
  rewrite Hblocks, filter_app, filter_none, filter_all; [apply pluck_entriesOf|..].
  - apply entriesOf_batch.
  - eapply Forall_impl; [exact Hentries|]. intros e He Heq. simpl in *.
    rewrite Heq, Hid in He. apply list_elem_of_fmap in He as (r & Hr1 & Hr2).
    rewrite Forall_forall in Hbelow. specialize (Hbelow r Hr2). lia.
Qed.

Lemma destroyOldBlocks_at_journal pt u point d :
  journal (destroyOldBlocks_at pt u point d) = journal d.
Proof. unfold destroyOldBlocks_at. case_decide; [apply destroyOldBlocks_journal|done]. Qed.

(** The diff that finds fewer than two snapshots records nothing, whenever
    the destroy takes effect. *)
Lemma diffAmongPruning_short pt u cur now d :
  length (latestComplete cur (destroyOldBlocks_at pt u BeforeFindAll d)) ≤ 1 →
  journal (diffBatchWithPrevious_among (destroyOldBlocks_at pt u) cur now d).1 = journal d ∧
  (diffBatchWithPrevious_among (destroyOldBlocks_at pt u) cur now d).2 = [].
Proof.
  intros Hshort. unfold diffBatchWithPrevious_among. cbv zeta.
  destruct (latestComplete cur _) as [|b1 [|b2 [|b3 l]]]; cbn [fst snd];
    try (by rewrite !destroyOldBlocks_at_journal).
  simpl in Hshort. lia.
Qed.

(** The rows that the pruning of [u] deletes, by their id. *)
Lemma id_destroyed u d b :
  NoDup (BlockBatch.id <$> BlockBatches d) → b ∈ BlockBatches d →
  BlockBatch.id b ∈ pluck BlockBatch.id (oldBlockBatches u d) ↔
  BlockBatch.source_uid b = u ∧ 4 ≤ newerBatches u b d.
Proof.
  intros Hnodup Hb. unfold pluck. rewrite list_elem_of_fmap. split.
  - intros (b0 & Hid & Hb0).
    assert (b = b0) as <-.
    { apply (unique_id (BlockBatches d)); [done..|by eapply oldBlockBatches_sub|done]. }
    apply (elem_of_oldBlockBatches u d b Hnodup) in Hb0 as [Hin Hnew].
    split; [|done]. by apply list_elem_of_filter in Hin as [? _].
  - intros [Hsrc Hnew]. exists b. split; [done|].
    apply (elem_of_oldBlockBatches u d b Hnodup). split; [|done].
    by apply list_elem_of_filter.
Qed.

(** The entries of a snapshot after the pruning: none when the snapshot
    is deleted, all of them otherwise. *)
Lemma snapshotIds_pruned u d b :
  NoDup (BlockBatch.id <$> BlockBatches d) → b ∈ BlockBatches d →
  snapshotIds b (destroyOldBlocks u d) =
  if decide (BlockBatch.source_uid b = u ∧ 4 ≤ newerBatches u b d) then []
  else snapshotIds b d.
Proof.
  intros Hnodup Hb. pose proof (id_destroyed u d b Hnodup Hb) as Hdestroyed.
  rewrite destroyOldBlocks_destroy. unfold snapshotIds, getBlocks, BlockBatch_destroy.
  cbn [Blocks set_Blocks set_BlockBatches]. rewrite list_filter_filter.
  destruct (decide (BlockBatch.source_uid b = u ∧ 4 ≤ newerBatches u b d)) as [Hyes|Hno].
  - rewrite filter_none; [done|]. apply Forall_forall. intros e _ [Heq Hnot].
    apply Hnot. rewrite Heq. by apply Hdestroyed.
  - f_equal. apply filter_ext_elem. intros e _. split; [tauto|].
    intros Heq. split; [done|]. rewrite Heq. by rewrite Hdestroyed.
Qed.

Lemma length_filter_impl {A} (P Q : A → Prop) `{∀ x, Decision (P x)} `{∀ x, Decision (Q x)}
    (l : list A) :
  (∀ x, P x → Q x) → length (filter P l) ≤ length (filter Q l).
Proof.
  intros Himpl. induction l as [|x l IH]; [done|]. rewrite !filter_cons.
  destruct (decide (P x)) as [HP|HP], (decide (Q x)) as [HQ|HQ]; simpl; try lia.
  exfalso. by apply HQ, Himpl.
Qed.

(** An older snapshot has at least as many newer snapshots. *)
Lemma newerBatches_older u d o o' :
  BlockBatch.id o ≤ BlockBatch.id o' → newerBatches u o' d ≤ newerBatches u o d.
Proof. intros Hle. unfold newerBatches. apply length_filter_impl. intros x. lia. Qed.

(** The newer snapshots of a user in the table that has gained, as its
    newest row, the batch of a sync of that user. *)
Lemma newerBatches_snoc u d0 d3 b' o :
  BlockBatches d3 = BlockBatches d0 ++ [b'] → BlockBatch.source_uid b' = u →
  newerBatches u o d3 =
  newerBatches u o d0 + (if decide (BlockBatch.id o < BlockBatch.id b') then 1 else 0).
Proof.
  intros Ht Hsrc. unfold newerBatches, userBatches. rewrite Ht, !filter_app, length_app.
  f_equal. rewrite (filter_cons _ b'), decide_True by done. rewrite filter_nil.
  rewrite filter_cons. by destruct (decide (BlockBatch.id o < BlockBatch.id b')).
Qed.

(** What the diff of a sync reads, whenever the destroy takes effect. *)
Lemma sync_diff_reads u d0 d3 b' old served :
  wfDB d0 → wfDB d3 →
  BlockBatches d3 = BlockBatches d0 ++ [b'] →
  Blocks d3 = Blocks d0 ++ entriesOf (BlockBatch.id b') served →
  BlockBatch.id b' = nextBlockBatchId d0 → BlockBatch.source_uid b' = u →
  BlockBatch.complete b' = true →
  old ∈ BlockBatches d0 → BlockBatch.source_uid old = u → BlockBatch.complete old = true →
  (∀ o, o ∈ BlockBatches d0 → BlockBatch.source_uid o = u →
        BlockBatch.complete o = true → BlockBatch.id o ≤ BlockBatch.id old) →
  let P := destroyOldBlocks u d3 in
  latestComplete b' d3 = [b'; old] ∧
  snapshotIds b' d3 = served ∧ snapshotIds b' P = served ∧
  snapshotIds old d3 = snapshotIds old d0 ∧
  snapshotIds old P = (if decide (newerBatches u old d0 < 3) then snapshotIds old d0 else []) ∧
  if decide (newerBatches u old d0 < 3) then latestComplete b' P = [b'; old]
  else length (latestComplete b' P) ≤ 1.
Proof.
  intros Hwf0 Hwf3 Ht3 Hk3 Hid Hsrc Hc Hold Hos Hoc Hmax. cbv zeta.
  pose proof Hwf0 as (_ & Hbelow & _). rewrite Forall_forall in Hbelow.
  assert (Holdid : BlockBatch.id old < BlockBatch.id b').
  { specialize (Hbelow old Hold). lia. }
  assert (Hnodup3 : NoDup (BlockBatch.id <$> BlockBatches d3)).
  { destruct Hwf3 as (Hsorted & _). by apply idAsc_NoDup. }
  assert (Hb'3 : b' ∈ BlockBatches d3) by (rewrite Ht3, elem_of_app; right; by left).
  assert (Hold3 : old ∈ BlockBatches d3) by (rewrite Ht3, elem_of_app; by left).
  assert (Hmax3 : ∀ o, o ∈ BlockBatches d3 → BlockBatch.source_uid o = BlockBatch.source_uid b' →
            BlockBatch.complete o = true → BlockBatch.id o < BlockBatch.id b' →
            BlockBatch.id o ≤ BlockBatch.id old).
  { intros o Ho Hosrc Hocomplete Hlt. rewrite Ht3, elem_of_app in Ho.
    destruct Ho as [Ho|Ho]; [apply Hmax; [done|congruence|done]|].
    apply list_elem_of_singleton in Ho as ->. lia. }
  assert (Hnew_b' : newerBatches u b' d3 = 0).
  { rewrite (newerBatches_snoc u d0 d3 b' b' Ht3 Hsrc), decide_False by lia.
    unfold newerBatches. rewrite filter_none; [done|].
    apply Forall_forall. intros r Hr. apply list_elem_of_filter in Hr as [_ Hr].
    specialize (Hbelow r Hr). lia. }
  assert (Hnew_old : newerBatches u old d3 = S (newerBatches u old d0)).
  { rewrite (newerBatches_snoc u d0 d3 b' old Ht3 Hsrc), decide_True by done. lia. }
  assert (Hwf3' : wfDB (destroyOldBlocks u d3)) by (by apply destroyOldBlocks_wf).
  assert (HnodupP : NoDup (BlockBatch.id <$> BlockBatches (destroyOldBlocks u d3))).
  { destruct Hwf3' as (Hsorted & _). by apply idAsc_NoDup. }
  destruct (destroyOldBlocks_elem_of u d3 Hnodup3) as [HinP _].
  split.
  { apply latestComplete_pair; try done. congruence. }
  split; [by apply (snapshotIds_fresh b' d0)|].
  split.
  { rewrite (snapshotIds_pruned u d3 b' Hnodup3 Hb'3), decide_False by lia.
    by apply (snapshotIds_fresh b' d0). }
  split; [apply (snapshotIds_other old d0 d3 _ _ Hk3); lia|].
  split.
  { rewrite (snapshotIds_pruned u d3 old Hnodup3 Hold3), Hnew_old.
    destruct (decide (newerBatches u old d0 < 3)).
    - rewrite decide_False by lia. apply (snapshotIds_other old d0 d3 _ _ Hk3). lia.
    - rewrite decide_True; [done|]. split; [done|lia]. }
  destruct (decide (newerBatches u old d0 < 3)) as [Hkept|Hgone].
  - apply latestComplete_pair; try done.
    + apply HinP. split; [done|]. right. lia.
    + apply HinP. split; [done|]. right. lia.
    + congruence.
    + intros o Ho. apply Hmax3. by apply HinP in Ho as [? _].
  - apply latestComplete_short; [done|].
    intros o Ho Hosrc Hocomplete Hlt. apply HinP in Ho as [Ho Hkept].
    pose proof (Hmax3 o Ho Hosrc Hocomplete Hlt) as Hle.
    pose proof (newerBatches_older u d3 o old Hle). rewrite Hsrc in Hosrc.
    destruct Hkept as [?|?]; [done|lia].
Qed.

End Recorded.

(** X14.  The first sync of a user records nothing: when the user has no complete
    snapshot, a sync whose pages are answered in order (only the last one
    with the cursor "0") leaves the action log and the annotated blocks as
    they are and sends no lookup, whatever the remote list holds. *)
Theorem first_sync_records_nothing (user : BtUser) (s : state) (init : list IdsResult)
    (final : IdsResult) :
  wfDB (db s) → activeFetches s !! uid user = None →
  Forall (λ r, next_cursor_str r ≠ "0") init → next_cursor_str final = "0" →
  Forall (λ b, BlockBatch.complete b = false) (userBatches (uid user) (db s)) →
  journal (db (sync user s (init ++ [final]))) = journal (db s) ∧
  lookups (sync user s (init ++ [final])) = lookups s.
Proof.
  intros Hwf Hnone Hinit Hfinal Hincomplete.
  destruct (sync_final user s init final Hwf Hnone Hinit Hfinal)
    as (b' & d3 & Hid & Hsrc & Hc & _ & _ & Hwf3 & Ht3 & _ & _ & Hj3 & Hdb & Hlk & _).
  assert (Hnone3 : ∀ o, o ∈ BlockBatches d3 →
            BlockBatch.source_uid o = BlockBatch.source_uid b' →
            BlockBatch.complete o = true → ¬ BlockBatch.id o < BlockBatch.id b').
  { intros o Ho Hos Hoc Hlt. rewrite Ht3, elem_of_app in Ho. destruct Ho as [Ho|Ho].
    - rewrite Forall_forall in Hincomplete.
      assert (BlockBatch.complete o = false); [|congruence].
      apply Hincomplete. apply list_elem_of_filter. split; [congruence|done].
    - apply list_elem_of_singleton in Ho as ->. lia. }
  destruct (diffAmongPruning_short (destroyAt s) (uid user) b' (now s) d3) as [Hj Hsent].
  { unfold destroyOldBlocks_at. case_decide.
    - apply latestComplete_short.
      + destruct (destroyOldBlocks_wf (uid user) d3 Hwf3) as (Hsorted & _).
        by apply idAsc_NoDup.
      + intros o Ho. apply Hnone3. by eapply destroyOldBlocks_others.
    - apply latestComplete_short; [|done].
      destruct Hwf3 as (Hsorted & _). by apply idAsc_NoDup. }
  rewrite Hdb, Hlk, Hj, Hsent, Hj3. by rewrite app_nil_r.
Qed.

Lemma first_sync_records_nothing_witness :
  journal (db (sync user7 (initial emptyDB 0) [twoPageServer "-1"; twoPageServer "100"]))
    = journal (db (initial emptyDB 0)) ∧
  lookups (sync user7 (initial emptyDB 0) [twoPageServer "-1"; twoPageServer "100"]) = [].
Proof.
  assert (Hwf : wfDB (db (initial emptyDB 0))) by (repeat split; constructor).
  assert (Hinit : Forall (λ r, next_cursor_str r ≠ "0") [twoPageServer "-1"])
    by (by repeat constructor).
  assert (Hnone : Forall (λ b, BlockBatch.complete b = false)
                    (userBatches (uid user7) (db (initial emptyDB 0)))) by constructor.
  exact (first_sync_records_nothing user7 (initial emptyDB 0) [twoPageServer "-1"]
           (twoPageServer "100") Hwf eq_refl Hinit eq_refl Hnone).
Defined.

(** X15.  What a later sync records: when [old] is the newest complete snapshot
    of the user, a sync whose pages are answered in order (only the last
    one with the cursor "0") compares the uids served with what it reads
    as the entries of [old]: it leaves the action log that recording a
    block for every served uid that is not among them leaves, and adds to
    the pending callbacks those of the lookups for the uids among them
    that were not served.  What it reads are the entries of [old], unless
    the pruning that sealing starts deletes [old] and its destroy takes
    effect first: before the read of the entries the diff reads none (so
    every served uid is recorded as a block), before the [findAll] of the
    diff nothing is compared and nothing recorded.  The annotated blocks
    stay as they are. *)
Theorem sync_records_the_difference (user : BtUser) (s : state) (init : list IdsResult)
    (final : IdsResult) (old : BlockBatch.row) :
  wfDB (db s) → activeFetches s !! uid user = None →
  Forall (λ r, next_cursor_str r ≠ "0") init → next_cursor_str final = "0" →
  old ∈ BlockBatches (db s) → BlockBatch.source_uid old = uid user →
  BlockBatch.complete old = true →
  (∀ o, o ∈ BlockBatches (db s) → BlockBatch.source_uid o = uid user →
        BlockBatch.complete o = true → BlockBatch.id o ≤ BlockBatch.id old) →
  match oldBlockIdsRead (destroyAt s) (uid user) old (db s) with
  | Some oldBlockIds =>
      journal (db (sync user s (init ++ [final])))
        = journal (recordBlocks (uid user)
                     (addedBlockIds (concat (ids <$> (init ++ [final]))) oldBlockIds)
                     (now s) (db s)).1 ∧
      lookups (sync user s (init ++ [final]))
        = lookups s ++
          callbacksOf (recordUnblocksUnlessDeactivated (uid user) 0
             {[0 := removedBlockIds (concat (ids <$> (init ++ [final]))) oldBlockIds]}
             []).2
  | None =>
      journal (db (sync user s (init ++ [final]))) = journal (db s) ∧
      lookups (sync user s (init ++ [final])) = lookups s
  end.
Proof.
  intros Hwf Hnone Hinit Hfinal Hold Hos Hoc Hmax.
  destruct (sync_final user s init final Hwf Hnone Hinit Hfinal)
    as (b' & d3 & Hid & Hsrc & Hc & _ & _ & Hwf3 & Ht3 & Hk3 & _ & Hj3 & Hdb & Hlk & _).
  destruct (sync_diff_reads (uid user) (db s) d3 b' old _
              Hwf Hwf3 Ht3 Hk3 Hid Hsrc Hc Hold Hos Hoc Hmax)
    as (Hpair & Hcur & HcurP & Hread & HreadP & HpairP).
  pose proof (destroyOldBlocks_journal (uid user) d3) as HjP.
  rewrite Hdb, Hlk. unfold oldBlockIdsRead, diffBatchWithPrevious_among.
  cbv zeta. rewrite Hsrc.
  destruct (decide (newerBatches (uid user) old (db s) < 3)) as [Hkept|Hgone].
  - destruct (destroyAt s); unfold destroyOldBlocks_at; simpl;
      rewrite ?HpairP, ?Hpair; cbn [fst snd];
      rewrite ?HcurP, ?Hcur, ?HreadP, ?Hread;
      (split; [|done]); apply recordBlocks_journal; congruence.
  - destruct (destroyAt s); unfold destroyOldBlocks_at; simpl.
    + destruct (latestComplete b' (destroyOldBlocks (uid user) d3))
        as [|b1 [|b2 [|b3 l]]]; cbn [fst snd]; simpl in HpairP;
        try lia; (split; [congruence|by rewrite app_nil_r]).
    + rewrite Hpair; cbn [fst snd]. rewrite HcurP, HreadP.
      split; [|done]. apply recordBlocks_journal. congruence.
    + rewrite Hpair; cbn [fst snd]. rewrite Hcur, HreadP.
      split; [|done]. apply recordBlocks_journal. congruence.
    + rewrite Hpair; cbn [fst snd]. rewrite Hcur, Hread.
      split; [|done]. apply recordBlocks_journal. congruence.
Qed.

Lemma sync_records_the_difference_witness :
  journal (db (sync user7 oneSealedSync
                 ([mkIds ["2"; "3"; "4"] "1500"] ++ [mkIds ["4"] "0"])))
    = journal (recordBlocks (uid user7)
                 (addedBlockIds
                    (concat (ids <$> ([mkIds ["2"; "3"; "4"] "1500"] ++ [mkIds ["4"] "0"])))
                    (snapshotIds (BlockBatch.mk 1 "7" 3 (Some "-1") true) (db oneSealedSync)))
                 (now oneSealedSync) (db oneSealedSync)).1 ∧
  lookups (sync user7 oneSealedSync
             ([mkIds ["2"; "3"; "4"] "1500"] ++ [mkIds ["4"] "0"]))
    = lookups oneSealedSync ++
      callbacksOf (recordUnblocksUnlessDeactivated (uid user7) 0
         {[0 := removedBlockIds
                  (concat (ids <$> ([mkIds ["2"; "3"; "4"] "1500"] ++ [mkIds ["4"] "0"])))
                  (snapshotIds (BlockBatch.mk 1 "7" 3 (Some "-1") true)
                               (db oneSealedSync))]} []).2.
Proof.
  assert (Hwf0 : wfDB emptyDB) by (repeat split; constructor).
  assert (Hwf : wfDB (db oneSealedSync)).
  { by destruct (run_tablesSound
                   [UpdateBlocks user7; BlocksIds 0 (IdsOk (mkIds ["1"; "2"; "3"] "0"))]
                   (initial emptyDB 0) (registered_initial emptyDB 0)
                   (tablesSound_initial emptyDB 0 Hwf0)) as [[? _] _]. }
  assert (Hnone : activeFetches oneSealedSync !! uid user7 = None)
    by (vm_compute; reflexivity).
  assert (Htable : BlockBatches (db oneSealedSync)
                   = [BlockBatch.mk 1 "7" 3 (Some "-1") true])
    by (vm_compute; reflexivity).
  assert (Hinit : Forall (λ r, next_cursor_str r ≠ "0") [mkIds ["2"; "3"; "4"] "1500"])
    by (by repeat constructor).
  assert (Hread : oldBlockIdsRead (destroyAt oneSealedSync) (uid user7)
                    (BlockBatch.mk 1 "7" 3 (Some "-1") true) (db oneSealedSync)
                  = Some (snapshotIds (BlockBatch.mk 1 "7" 3 (Some "-1") true)
                            (db oneSealedSync)))
    by (vm_compute; reflexivity).
  pose proof (sync_records_the_difference user7 oneSealedSync [mkIds ["2"; "3"; "4"] "1500"]
           (mkIds ["4"] "0") (BlockBatch.mk 1 "7" 3 (Some "-1") true) Hwf Hnone Hinit eq_refl)
    as W.
  rewrite Hread in W. apply W.
  - rewrite Htable. by left.
  - reflexivity.
  - reflexivity.
  - intros o Ho _ _. rewrite Htable in Ho. by apply list_elem_of_singleton in Ho as ->.
Defined.

(** X28.  The diff and the pruning of one sealing at work.  Snapshot 1 of "7"
    (holding "11") is complete, the snapshots 2, 3 and 4 were never
    sealed, and the next sync finds "11" and "12".  Sealing snapshot 5
    lets the pruning delete snapshot 1, the snapshot the diff compares
    with.  When the destroy takes effect after the diff has read the
    entries of snapshot 1, a block is recorded for "12" only; when it takes
    effect before that read, as it does when the database answers the
    calls in the order they were made, blocks are recorded for "11" and
    "12"; when it takes effect before the [findAll] of the diff, nothing is
    recorded.  The tables are left the same in all cases. *)
Theorem destroy_before_read_records_all :
  (λ b, (BlockBatch.id b, BlockBatch.complete b)) <$> BlockBatches threeNeverSealed
    = [(1, true); (2, false); (3, false); (4, false)] ∧
  destroyAt (initial threeNeverSealed 259200000) = BeforeOldBlocks ∧
  Action.sink_uid <$> Actions (db (fifthSync AfterOldBlocks)) = ["12"] ∧
  Action.sink_uid <$> Actions (db (fifthSync BeforeOldBlocks)) = ["11"; "12"] ∧
  Action.sink_uid <$> Actions (db (fifthSync BeforeCurrentBlocks)) = ["11"; "12"] ∧
  Action.sink_uid <$> Actions (db (fifthSync BeforeFindAll)) = [] ∧
  Forall (λ point,
            BlockBatch.id <$> BlockBatches (db (fifthSync point)) = [2; 3; 4; 5] ∧
            Block.BlockBatchId <$> Blocks (db (fifthSync point)) = [2; 3; 4; 5; 5] ∧
            lookups (fifthSync point) = [])
         [BeforeFindAll; BeforeCurrentBlocks; BeforeOldBlocks; AfterOldBlocks].
Proof.
  do 6 (split; [vm_compute; reflexivity|]).
  repeat (apply Forall_cons; split;
          [split; [vm_compute; reflexivity|split; vm_compute; reflexivity]|]).
  apply Forall_nil_2.
Qed.

(* ================================================================== *)
(** * The requests of a fetch *)

Section Requests.
Implicit Types (s : state) (e : event) (p q : nat) (user : BtUser).

Lemma onBlocksIds_err p statusCode s :
  db (onBlocksIds p (IdsErr statusCode) s) = db s ∧
  requests (onBlocksIds p (IdsErr statusCode) s) = requests s ∧
  now (onBlocksIds p (IdsErr statusCode) s) = now s ∧
  lookups (onBlocksIds p (IdsErr statusCode) s) = lookups s.
Proof.
  unfold onBlocksIds. destruct (promises s !! p) as [[user blockBatch c| |]|]; try done.
  destruct (decide (statusCode = 429%Z)); [destruct blockBatch|]; done.
Qed.

(** The clock never runs backwards. *)
Lemma step_now s e : (now s ≤ now (step s e))%Z.
Proof.
  destruct e as [user|p r|p|k r|ms|point]; cbn [step].
  - destruct (updateBlocks_fields user s) as (_ & _ & _ & _ & -> & _). lia.
  - destruct r as [results|statusCode].
    + destruct (promises s !! p) as [[user blockBatch c| |]|] eqn:Hp;
        try (unfold onBlocksIds; rewrite Hp; lia).
      destruct (onBlocksIds_ok p results s user blockBatch c Hp) as (_ & -> & _). lia.
    + destruct (onBlocksIds_err p statusCode s) as (_ & _ & -> & _). lia.
  - pose proof (onDelayElapsed_cases p s) as Hcases.
    destruct (promises s !! p) as [[| user b c wake |]|]; try (rewrite Hcases; lia).
    destruct (decide (wake ≤ now s)%Z); rewrite Hcases; simpl; lia.
  - unfold onUsersLookup. destruct (lookups s !! k); simpl; lia.
  - simpl. lia.
  - simpl. lia.
Qed.

Lemma run_now es : ∀ s, (now s ≤ now (run s es))%Z.
Proof.
  induction es as [|e es IH]; intros s; [simpl; lia|].
  cbn [run foldl]. pose proof (step_now s e). pose proof (IH (step s e)).
  unfold run in *. lia.
Qed.

(** A request is only sent for a promise that then waits for its answer. *)
Lemma step_requests s e :
  ∃ new, requests (step s e) = requests s ++ new ∧
    Forall (λ r, ∃ user blockBatch,
              promises (step s e) !! r.1 = Some (AwaitBlocksIds user blockBatch r.2)) new.
Proof.
  destruct e as [user|p r|p|k r|ms|point]; cbn [step].
  - destruct (updateBlocks_fields user s) as (_ & _ & _ & _ & _ & Hcase).
    destruct (activeFetches s !! uid user); destruct Hcase as (_ & Hprom & Hreq).
    + exists []. by rewrite app_nil_r.
    + eexists. split; [exact Hreq|]. constructor; [|constructor].
      exists user, None. simpl. rewrite Hprom. apply lookup_insert_eq.
  - destruct r as [results|statusCode].
    + destruct (promises s !! p) as [[user blockBatch c| |]|] eqn:Hp;
        try (exists []; unfold onBlocksIds; rewrite Hp; by rewrite app_nil_r).
      destruct (onBlocksIds_ok p results s user blockBatch c Hp) as (_ & _ & Hcase).
      destruct (decide (next_cursor_str results = "0")).
      * destruct Hcase as (_ & _ & _ & _ & Hreq). exists []. by rewrite app_nil_r.
      * destruct Hcase as (_ & _ & Hprom & _ & Hreq). eexists. split; [exact Hreq|].
        constructor; [|constructor]. eexists user, _. simpl. rewrite Hprom.
        apply lookup_insert_eq.
    + destruct (onBlocksIds_err p statusCode s) as (_ & Hreq & _).
      exists []. by rewrite app_nil_r.
  - pose proof (onDelayElapsed_cases p s) as Hcases.
    destruct (promises s !! p) as [[| user b c wake |]|];
      try (exists []; rewrite Hcases; by rewrite app_nil_r).
    destruct (decide (wake ≤ now s)%Z);
      [|exists []; rewrite Hcases; by rewrite app_nil_r].
    rewrite Hcases. eexists. split; [reflexivity|]. constructor; [|constructor].
    eexists user, _. simpl. apply lookup_insert_eq.
  - exists []. unfold onUsersLookup. destruct (lookups s !! k); by rewrite app_nil_r.
  - exists []. by rewrite app_nil_r.
  - exists []. by rewrite app_nil_r.
Qed.

(** While its delay has not elapsed, a fetch that waits after a rate limit
    is left alone by every event. *)
Lemma step_delayed s e p user b c wake :
  numbered s → promises s !! p = Some (AwaitDelay user b c wake) →
  (now (step s e) < wake)%Z →
  promises (step s e) !! p = Some (AwaitDelay user b c wake).
Proof.
  intros [Hnum _] Hp Hnow.
  assert (Hlt : p < nextPromise s) by (apply Hnum; by rewrite Hp).
  pose proof (step_now s e) as Hmono.
  destruct e as [user'|q r|q|k r|ms|point]; cbn [step] in *.
  - destruct (updateBlocks_fields user' s) as (_ & _ & _ & _ & _ & Hcase).
    destruct (activeFetches s !! uid user'); destruct Hcase as (_ & -> & _);
      rewrite lookup_insert_ne by lia; done.
  - pose proof (onBlocksIds_cases q r s) as Hcases.
    destruct (decide (q = p)) as [->|Hne]; [rewrite Hp in Hcases; by rewrite Hcases|].
    destruct (promises s !! q) as [[userq blockBatch cq| |]|]; try by rewrite Hcases.
    destruct Hcases as (_ & Hcases). destruct r as [results|statusCode].
    + destruct Hcases as (bq & _ & Hcases).
      destruct (decide (next_cursor_str results = "0")); destruct Hcases as (_ & ->);
        by rewrite lookup_insert_ne.
    + destruct Hcases as (_ & ->). by rewrite lookup_insert_ne.
  - pose proof (onDelayElapsed_cases q s) as Hcases.
    destruct (decide (q = p)) as [->|Hne].
    + rewrite Hp in Hcases. destruct (decide (wake ≤ now s)%Z); [lia|by rewrite Hcases].
    + destruct (promises s !! q) as [[| userq bq cq wakeq |]|]; try by rewrite Hcases.
      destruct (decide (wakeq ≤ now s)%Z); rewrite Hcases; [|done].
      simpl. by rewrite lookup_insert_ne.
  - unfold onUsersLookup. by destruct (lookups s !! k).
  - done.
  - done.
Qed.

Lemma run_delayed es : ∀ s p user b c wake,
  numbered s → promises s !! p = Some (AwaitDelay user b c wake) →
  (now (run s es) < wake)%Z →
  promises (run s es) !! p = Some (AwaitDelay user b c wake) ∧
  requestsOf p (requests (run s es)) = requestsOf p (requests s).
Proof.
  induction es as [|e es IH]; intros s p user b c wake Hnum Hp Hnow; [done|].
  cbn [run foldl] in *. fold (run (step s e) es) in *.
  pose proof (run_now es (step s e)) as Hmono.
  assert (Hp' : promises (step s e) !! p = Some (AwaitDelay user b c wake))
    by (apply step_delayed; [done..|lia]).
  destruct (IH (step s e) p user b c wake (step_numbered s e Hnum) Hp' Hnow) as [Hrun Hreq].
  split; [done|]. rewrite Hreq.
  destruct (step_requests s e) as (new & -> & Hnew).
  unfold requestsOf. rewrite filter_app, (filter_none _ new); [by rewrite app_nil_r|].
  eapply Forall_impl; [exact Hnew|]. intros [q cq] (userq & bq & Hq) Heq. simpl in *.
  subst q. congruence.
Qed.

End Requests.

(** X16.  After a rate limit the fetch keeps still for a quarter of an hour: from
    the 429 answer to a fetch that carries a batch until the clock reaches
    15 minutes later, no event makes the fetch send a request or settle;
    it stays registered for its user and waits with the cursor and the
    batch it had. *)
Theorem rate_limited_fetch_waits (s : state) (p : nat) (user : BtUser)
    (b : BlockBatch.row) (c : string) (es : list event) :
  reachable s →
  promises s !! p = Some (AwaitBlocksIds user (Some b) c) →
  (now (run (step s (BlocksIds p (IdsErr 429))) es) < now s + 15 * 60 * 1000)%Z →
  promises (run (step s (BlocksIds p (IdsErr 429))) es) !! p
    = Some (AwaitDelay user b c (now s + 15 * 60 * 1000)) ∧
  requestsOf p (requests (run (step s (BlocksIds p (IdsErr 429))) es))
    = requestsOf p (requests s) ∧
  activeFetches (run (step s (BlocksIds p (IdsErr 429))) es) !! uid user = Some p.
Proof.
  intros Hreach Hp Hnow.
  set (s1 := step s (BlocksIds p (IdsErr 429))) in *.
  assert (Hreach1 : reachable s1) by (apply (reachable_run s [BlocksIds p (IdsErr 429)] Hreach)).
  destruct (reachable_invariants s1 Hreach1) as [_ Hnum1].
  assert (Hp1 : promises s1 !! p = Some (AwaitDelay user b c (now s + 15 * 60 * 1000))).
  { unfold s1. cbn [step]. pose proof (onBlocksIds_cases p (IdsErr 429) s) as Hcases.
    rewrite Hp in Hcases. destruct Hcases as (_ & _ & ->).
    rewrite lookup_insert_eq. by rewrite decide_True. }
  assert (Hreq1 : requests s1 = requests s)
    by (by destruct (onBlocksIds_err p 429 s) as (_ & ? & _)).
  destruct (run_delayed es s1 p user b c _ Hnum1 Hp1 Hnow) as [Hrun Hreq].
  split; [done|]. split; [by rewrite Hreq, Hreq1|].
  destruct (reachable_invariants _ (reachable_run s1 es Hreach1)) as [Hreg _].
  by destruct (Hreg p _ user (Some b) Hrun eq_refl) as [? _].
Qed.

Lemma rate_limited_fetch_waits_witness :
  promises (run (step firstPageStored (BlocksIds 0 (IdsErr 429)))
              [Tick 600000; DelayElapsed 0; UpdateBlocks user7]) !! 0
    = Some (AwaitDelay user7 (BlockBatch.mk 1 "7" 2 (Some "-1") false) "100"
              (now firstPageStored + 15 * 60 * 1000)) ∧
  requestsOf 0 (requests (run (step firstPageStored (BlocksIds 0 (IdsErr 429)))
                            [Tick 600000; DelayElapsed 0; UpdateBlocks user7]))
    = requestsOf 0 (requests firstPageStored) ∧
  activeFetches (run (step firstPageStored (BlocksIds 0 (IdsErr 429)))
                   [Tick 600000; DelayElapsed 0; UpdateBlocks user7]) !! uid user7 = Some 0.
Proof.
  assert (Hreach : reachable firstPageStored) by (by eexists _, _, _).
  assert (Hp : promises firstPageStored !! 0
               = Some (AwaitBlocksIds user7
                         (Some (BlockBatch.mk 1 "7" 2 (Some "-1") false)) "100"))
    by (vm_compute; reflexivity).
  assert (Hnow : (now (run (step firstPageStored (BlocksIds 0 (IdsErr 429)))
                         [Tick 600000; DelayElapsed 0; UpdateBlocks user7])
                  < now firstPageStored + 15 * 60 * 1000)%Z)
    by (vm_compute; reflexivity).
  exact (rate_limited_fetch_waits firstPageStored 0 user7
           (BlockBatch.mk 1 "7" 2 (Some "-1") false) "100"
           [Tick 600000; DelayElapsed 0; UpdateBlocks user7] Hreach Hp Hnow).
Defined.

(** X17.  Once the last page has been stored the user can be synced again: the
    fetch resolves with a complete batch of the user, its entry of
    [activeFetches] is gone, an answer that arrives for it afterwards is
    ignored, and the next call of [updateBlocks] for the user starts a new
    fetch at the start cursor and registers it. *)
Theorem sealed_fetch_allows_next_fetch (s : state) (p : nat) (user : BtUser)
    (blockBatch : option BlockBatch.row) (c : string) (results : IdsResult) :
  reachable s →
  promises s !! p = Some (AwaitBlocksIds user blockBatch c) →
  next_cursor_str results = "0" →
  let s' := step s (BlocksIds p (IdsOk results)) in
  (∃ b, promises s' !! p = Some (Resolved (Some b)) ∧ BlockBatch.complete b = true ∧
        BlockBatch.source_uid b = uid user) ∧
  activeFetches s' !! uid user = None ∧
  requests s' = requests s ∧
  (∀ r, onBlocksIds p r s' = s') ∧
  requests (updateBlocks user s').2 = requests s' ++ [((updateBlocks user s').1, "-1")] ∧
  activeFetches (updateBlocks user s').2 !! uid user = Some (updateBlocks user s').1 ∧
  promises (updateBlocks user s').2 !! (updateBlocks user s').1
    = Some (AwaitBlocksIds user None "-1").
Proof.
  intros Hreach Hp Hlast. cbv zeta. cbn [step].
  destruct (reachable_invariants s Hreach) as [Hreg _].
  destruct (Hreg p _ user blockBatch Hp eq_refl) as [_ Hsource].
  destruct (onBlocksIds_ok p results s user blockBatch c Hp) as (_ & _ & Hok).
  rewrite decide_True in Hok by done. destruct Hok as (_ & _ & Hprom & Hact & Hreq).
  destruct (handleIds_fields (batchOfPage user blockBatch (db s)).2 c results
              (batchOfPage user blockBatch (db s)).1) as (_ & _ & Hsrc2 & _).
  assert (Hsrc : BlockBatch.source_uid
                   (handleIds (batchOfPage user blockBatch (db s)).2 c results
                      (batchOfPage user blockBatch (db s)).1).1.2 = uid user).
  { rewrite Hsrc2. unfold batchOfPage. destruct blockBatch; [by apply Hsource|done]. }
  set (s' := onBlocksIds p (IdsOk results) s) in *.
  assert (Hnone : activeFetches s' !! uid user = None)
    by (rewrite Hact, Hsrc; apply lookup_delete_eq).
  split; [eexists; rewrite Hprom, lookup_insert_eq; by repeat split|].
  split; [done|]. split; [done|]. split.
  { intros r. unfold onBlocksIds. by rewrite Hprom, lookup_insert_eq. }
  destruct (updateBlocks_fields user s') as (-> & _ & _ & _ & _ & Hcase).
  rewrite Hnone in Hcase. destruct Hcase as (-> & -> & ->).
  split; [done|]. split; apply lookup_insert_eq.
Qed.

Lemma sealed_fetch_allows_next_fetch_witness :
  activeFetches (step firstPageStored (BlocksIds 0 (IdsOk (twoPageServer "100")))) !! uid user7
    = None ∧
  requests (updateBlocks user7
              (step firstPageStored (BlocksIds 0 (IdsOk (twoPageServer "100"))))).2
    = requests (step firstPageStored (BlocksIds 0 (IdsOk (twoPageServer "100"))))
      ++ [((updateBlocks user7
              (step firstPageStored (BlocksIds 0 (IdsOk (twoPageServer "100"))))).1, "-1")].
Proof.
  assert (Hreach : reachable firstPageStored) by (by eexists _, _, _).
  assert (Hp : promises firstPageStored !! 0
               = Some (AwaitBlocksIds user7
                         (Some (BlockBatch.mk 1 "7" 2 (Some "-1") false)) "100"))
    by (vm_compute; reflexivity).
  destruct (sealed_fetch_allows_next_fetch firstPageStored 0 user7 _ "100"
              (twoPageServer "100") Hreach Hp eq_refl)
    as (_ & Hnone & _ & _ & Hreq & _).
  split; [exact Hnone|exact Hreq].
Defined.

(* ================================================================== *)
(** * The scheduler *)

#[local] Instance updatedAtAsc_transitive : Transitive updatedAtAsc.
Proof.
  unfold updatedAtAsc. intros a b c.
  destruct (BtUsers.updatedAt a), (BtUsers.updatedAt b), (BtUsers.updatedAt c);
    try done; lia.
Qed.

#[local] Instance updatedAtAsc_total : Total updatedAtAsc.
Proof.
  unfold updatedAtAsc. intros a b.
  destruct (BtUsers.updatedAt a), (BtUsers.updatedAt b); try lia; tauto.
Qed.

#[local] Instance batchUpdatedDesc_transitive times : Transitive (batchUpdatedDesc times).
Proof. unfold batchUpdatedDesc. intros a b c ? ?. lia. Qed.

#[local] Instance batchUpdatedDesc_total times : Total (batchUpdatedDesc times).
Proof. unfold batchUpdatedDesc. intros a b. lia. Qed.

Section Scheduler.
Implicit Types (w : worker) (r : BtUsers.row) (table : list BtUsers.row)
  (times : BatchTimes.t) (d : DB).

(** The first row of a sorted answer comes before every row of it. *)
Lemma sorted_head {A} (R : relation A) `{!Total R} (x y : A) (l : list A) :
  StronglySorted R (x :: l) → y ∈ x :: l → R x y.
Proof.
  intros Hsorted Hy. apply StronglySorted_cons in Hsorted as [Hx _].
  apply elem_of_cons in Hy as [->|Hy]; [by destruct (total R x x)|].
  rewrite Forall_forall in Hx. by apply Hx.
Qed.

Lemma BtUser_find_spec now table :
  match BtUser_find now table with
  | Some r =>
      r ∈ table ∧ needsUpdate now r ∧
      ∀ r', r' ∈ table → needsUpdate now r' → updatedAtAsc r r'
  | None => ∀ r, r ∈ table → ¬ needsUpdate now r
  end.
Proof.
  unfold BtUser_find. set (F := filter (needsUpdate now) table).
  pose proof (StronglySorted_merge_sort updatedAtAsc F) as Hsorted.
  pose proof (merge_sort_Permutation updatedAtAsc F) as Hperm.
  assert (HF : ∀ r, r ∈ F ↔ needsUpdate now r ∧ r ∈ table)
    by (intros r; unfold F; apply list_elem_of_filter).
  destruct (merge_sort updatedAtAsc F) as [|x l]; simpl.
  - intros r Hr Hstale. assert (Hin : r ∈ F) by (by apply HF).
    rewrite <- Hperm in Hin. by apply elem_of_nil in Hin.
  - assert (Hx : x ∈ F) by (rewrite <- Hperm; by left).
    apply HF in Hx as [Hstale Hx]. split; [done|]. split; [done|].
    intros r' Hr' Hstale'. apply (sorted_head updatedAtAsc x r' l Hsorted).
    rewrite Hperm. by apply HF.
Qed.

Lemma getBlockBatches_spec times user d :
  match getBlockBatches times user d with
  | [] => userBatches (uid user) d = []
  | batch :: rest =>
      rest = [] ∧ batch ∈ userBatches (uid user) d ∧
      ∀ b, b ∈ userBatches (uid user) d → batchUpdatedDesc times batch b
  end.
Proof.
  unfold getBlockBatches. fold (userBatches (uid user) d).
  set (F := userBatches (uid user) d).
  pose proof (StronglySorted_merge_sort (batchUpdatedDesc times) F) as Hsorted.
  pose proof (merge_sort_Permutation (batchUpdatedDesc times) F) as Hperm.
  destruct (merge_sort (batchUpdatedDesc times) F) as [|x l]; simpl.
  - symmetry in Hperm. by apply Permutation_nil_r in Hperm.
  - rewrite take_0. split; [done|]. split; [rewrite <- Hperm; by left|].
    intros b Hb. apply (sorted_head (batchUpdatedDesc times) x b l Hsorted).
    by rewrite Hperm.
Qed.

Lemma elem_of_BtUser_save r table r' :
  r' ∈ BtUser_save r table ↔
  (r' = r ∧ ∃ r0, r0 ∈ table ∧ uid (BtUsers.user r0) = uid (BtUsers.user r)) ∨
  (r' ∈ table ∧ uid (BtUsers.user r') ≠ uid (BtUsers.user r)).
Proof.
  unfold BtUser_save. rewrite list_elem_of_fmap. split.
  - intros (r0 & -> & Hr0). case_decide; [left|right]; eauto.
  - intros [[-> (r0 & Hr0 & Huid)]|[Hr' Hne]].
    + exists r0. by rewrite decide_True.
    + exists r'. by rewrite decide_False.
Qed.

(** What a call does, once the query has answered. *)
Lemma findAndUpdateBlocks_selected times w r :
  BtUser_find (now (process w)) (BtUsersTable w) = Some r →
  BtUsersTable (findAndUpdateBlocks times w).1
    = BtUser_save (BtUsers.mk (BtUsers.user r) (Some (now (process w)))
                              (BtUsers.deactivatedAt r)) (BtUsersTable w) ∧
  match getBlockBatches times (BtUsers.user r) (db (process w)) with
  | batch :: _ =>
      if decide (now (process w) - BatchTimes.createdAt times (BlockBatch.id batch)
                 > ONE_DAY_IN_MILLIS)%Z
      then process (findAndUpdateBlocks times w).1
             = (updateBlocks (BtUsers.user r) (process w)).2 ∧
           (findAndUpdateBlocks times w).2
             = Updating (updateBlocks (BtUsers.user r) (process w)).1
      else process (findAndUpdateBlocks times w).1 = process w ∧
           (findAndUpdateBlocks times w).2 = ResolvedNull
  | [] =>
      process (findAndUpdateBlocks times w).1
        = (updateBlocks (BtUsers.user r) (process w)).2 ∧
      (findAndUpdateBlocks times w).2
        = Updating (updateBlocks (BtUsers.user r) (process w)).1
  end.
Proof.
  intros Hfind. unfold findAndUpdateBlocks. cbv zeta. rewrite Hfind.
  destruct (getBlockBatches times (BtUsers.user r) (db (process w))) as [|batch rest];
    [done|].
  by destruct (decide (now (process w) - BatchTimes.createdAt times (BlockBatch.id batch)
                       > ONE_DAY_IN_MILLIS)%Z).
Qed.

Lemma findAndUpdateBlocks_now times w :
  now (process (findAndUpdateBlocks times w).1) = now (process w).
Proof.
  destruct (BtUser_find (now (process w)) (BtUsersTable w)) as [r|] eqn:Hfind.
  - destruct (findAndUpdateBlocks_selected times w r Hfind) as [_ Hcase].
    destruct (updateBlocks_fields (BtUsers.user r) (process w)) as (_ & _ & _ & _ & Hnow & _).
    destruct (getBlockBatches times (BtUsers.user r) (db (process w))) as [|batch rest];
      [|case_decide]; destruct Hcase as [-> _]; done.
  - unfold findAndUpdateBlocks. cbv zeta. by rewrite Hfind.
Qed.

Lemma workerStep_now w e : (now (process w) ≤ now (process (workerStep w e)))%Z.
Proof.
  destruct e as [times|e]; cbn [workerStep process].
  - rewrite findAndUpdateBlocks_now. lia.
  - apply step_now.
Qed.

Lemma workerRun_now es : ∀ w, (now (process w) ≤ now (process (workerRun w es)))%Z.
Proof.
  induction es as [|e es IH]; intros w; [simpl; lia|].
  cbn [workerRun foldl]. pose proof (workerStep_now w e).
  pose proof (IH (workerStep w e)). unfold workerRun in *. lia.
Qed.

(** The rows of a uid that were marked at time [t0] or later stay so. *)
Lemma workerStep_marked w e (u : string) (t0 : Z) :
  (t0 ≤ now (process w))%Z →
  (∀ r, r ∈ BtUsersTable w → uid (BtUsers.user r) = u →
        ∃ t, BtUsers.updatedAt r = Some t ∧ (t0 ≤ t)%Z) →
  ∀ r, r ∈ BtUsersTable (workerStep w e) → uid (BtUsers.user r) = u →
       ∃ t, BtUsers.updatedAt r = Some t ∧ (t0 ≤ t)%Z.
Proof.
  intros Hnow Hmarked. destruct e as [times|e]; cbn [workerStep BtUsersTable]; [|done].
  destruct (BtUser_find (now (process w)) (BtUsersTable w)) as [r0|] eqn:Hfind.
  - destruct (findAndUpdateBlocks_selected times w r0 Hfind) as [-> _].
    intros r Hr Hu. apply elem_of_BtUser_save in Hr as [[-> _]|[Hr _]].
    + eexists. split; [done|]. simpl. lia.
    + by apply Hmarked.
  - unfold findAndUpdateBlocks. cbv zeta. rewrite Hfind. done.
Qed.

Lemma workerRun_marked es (u : string) (t0 : Z) : ∀ w,
  (t0 ≤ now (process w))%Z →
  (∀ r, r ∈ BtUsersTable w → uid (BtUsers.user r) = u →
        ∃ t, BtUsers.updatedAt r = Some t ∧ (t0 ≤ t)%Z) →
  ∀ r, r ∈ BtUsersTable (workerRun w es) → uid (BtUsers.user r) = u →
       ∃ t, BtUsers.updatedAt r = Some t ∧ (t0 ≤ t)%Z.
Proof.
  induction es as [|e es IH]; intros w Hnow Hmarked; [done|].
  cbn [workerRun foldl]. apply IH.
  - pose proof (workerStep_now w e). lia.
  - by apply workerStep_marked.
Qed.

End Scheduler.

(** X18.  A call of [findAndUpdateBlocks] does nothing but log "No users need
    blocks updated at this time." exactly when no row of the user table is
    stale and active: when every user is deactivated or was updated within
    the last day, the table and the process are left as they are. *)
Theorem findAndUpdateBlocks_idle (times : BatchTimes.t) (w : worker) :
  (∀ r, r ∈ BtUsersTable w → ¬ needsUpdate (now (process w)) r) ↔
  findAndUpdateBlocks times w = (w, Rejected "No users need blocks updated at this time.").
Proof.
  pose proof (BtUser_find_spec (now (process w)) (BtUsersTable w)) as Hspec.
  destruct (BtUser_find (now (process w)) (BtUsersTable w)) as [r|] eqn:Hfind.
  - destruct Hspec as (Hr & Hstale & _). split; [intros Hnone; by destruct (Hnone r Hr)|].
    intros Hres. destruct (findAndUpdateBlocks_selected times w r Hfind) as [_ Hcase].
    rewrite Hres in Hcase. cbn [fst snd] in Hcase.
    destruct (getBlockBatches times (BtUsers.user r) (db (process w))) as [|batch rest];
      [|case_decide]; by destruct Hcase as [_ ?].
  - split; [|done]. intros _. unfold findAndUpdateBlocks. cbv zeta. by rewrite Hfind.
Qed.

(** X19.  The user that [findAndUpdateBlocks] selects is an active user that is
    stale, and none of the stale active users has waited longer (a user
    that was never updated goes first).  Whatever is decided about the
    fetch, the rows of the selected uid are marked as updated now and no
    other row is touched, so that afterwards the selected user is not stale
    and no other user has become stale.  A deactivated user is never
    selected, and only the selected user can be handed to [updateBlocks]. *)
Theorem findAndUpdateBlocks_marks_selected (times : BatchTimes.t) (w : worker)
    (r : BtUsers.row) :
  BtUser_find (now (process w)) (BtUsersTable w) = Some r →
  r ∈ BtUsersTable w ∧ needsUpdate (now (process w)) r ∧
  BtUsers.deactivatedAt r = None ∧
  (∀ r', r' ∈ BtUsersTable w → needsUpdate (now (process w)) r' → updatedAtAsc r r') ∧
  (∀ r', r' ∈ BtUsersTable (findAndUpdateBlocks times w).1 ↔
         (r' = BtUsers.mk (BtUsers.user r) (Some (now (process w))) None) ∨
         (r' ∈ BtUsersTable w ∧ uid (BtUsers.user r') ≠ uid (BtUsers.user r))) ∧
  (∀ r', r' ∈ BtUsersTable (findAndUpdateBlocks times w).1 →
         needsUpdate (now (process w)) r' →
         r' ∈ BtUsersTable w ∧ uid (BtUsers.user r') ≠ uid (BtUsers.user r)) ∧
  (process (findAndUpdateBlocks times w).1 = process w ∨
   process (findAndUpdateBlocks times w).1 = (updateBlocks (BtUsers.user r) (process w)).2).
Proof.
  intros Hfind.
  pose proof (BtUser_find_spec (now (process w)) (BtUsersTable w)) as Hspec.
  rewrite Hfind in Hspec. destruct Hspec as (Hr & Hstale & Hleast).
  pose proof Hstale as [_ Hactive].
  destruct (findAndUpdateBlocks_selected times w r Hfind) as [Htable Hcase].
  assert (Hrows : ∀ r', r' ∈ BtUsersTable (findAndUpdateBlocks times w).1 ↔
            (r' = BtUsers.mk (BtUsers.user r) (Some (now (process w))) None) ∨
            (r' ∈ BtUsersTable w ∧ uid (BtUsers.user r') ≠ uid (BtUsers.user r))).
  { intros r'. rewrite Htable, elem_of_BtUser_save, Hactive. simpl.
    split; [intros [[-> _]|?]; by eauto|].
    intros [->|?]; [left|by right]. split; [done|]. by exists r. }
  do 4 (split; [done|]). split; [exact Hrows|]. split.
  - intros r' Hr' Hstale'. apply Hrows in Hr' as [->|?]; [|done].
    destruct Hstale' as [Hlt _]. simpl in Hlt. lia.
  - destruct (getBlockBatches times (BtUsers.user r) (db (process w))) as [|batch rest];
      [|case_decide]; destruct Hcase as [-> _]; auto.
Qed.

Lemma findAndUpdateBlocks_marks_selected_witness :
  BtUser_find (now (process threeUsers)) (BtUsersTable threeUsers)
    = Some (BtUsers.mk user8 None None) ∧
  BtUsersTable (findAndUpdateBlocks atTimeZero threeUsers).1
    = [BtUsers.mk user7 (Some 0%Z) None; BtUsers.mk user8 (Some 100000000%Z) None;
       BtUsers.mk (mkUser "9" "token9" "secret9") None (Some 5%Z)] ∧
  ∀ r', r' ∈ BtUsersTable (findAndUpdateBlocks atTimeZero threeUsers).1 →
        needsUpdate (now (process threeUsers)) r' →
        r' ∈ BtUsersTable threeUsers ∧ uid (BtUsers.user r') ≠ uid user8.
Proof.
  assert (Hfind : BtUser_find (now (process threeUsers)) (BtUsersTable threeUsers)
                  = Some (BtUsers.mk user8 None None)) by (vm_compute; reflexivity).
  split; [exact Hfind|]. split; [vm_compute; reflexivity|].
  by destruct (findAndUpdateBlocks_marks_selected atTimeZero threeUsers _ Hfind)
    as (_ & _ & _ & _ & _ & Hstale & _).
Defined.

(** X20.  Whether the selected user is fetched: [findAndUpdateBlocks] looks at
    the batch of the user that was updated last, complete or not.  It
    resolves to [null] and leaves the process alone when that batch was
    created within the last day; it calls [updateBlocks] for the selected
    user when that batch was created more than a day ago or when the user
    has no batch at all.  The call never touches the database of the
    snapshots, and it sends the start request of the user exactly when it
    calls [updateBlocks] and no fetch of the user is registered. *)
Theorem findAndUpdateBlocks_decision (times : BatchTimes.t) (w : worker)
    (r : BtUsers.row) :
  BtUser_find (now (process w)) (BtUsersTable w) = Some r →
  db (process (findAndUpdateBlocks times w).1) = db (process w) ∧
  match (findAndUpdateBlocks times w).2 with
  | Rejected _ => False
  | ResolvedNull =>
      process (findAndUpdateBlocks times w).1 = process w ∧
      ∃ batch, batch ∈ userBatches (uid (BtUsers.user r)) (db (process w)) ∧
        (∀ b, b ∈ userBatches (uid (BtUsers.user r)) (db (process w)) →
              batchUpdatedDesc times batch b) ∧
        (now (process w) - BatchTimes.createdAt times (BlockBatch.id batch)
         ≤ ONE_DAY_IN_MILLIS)%Z
  | Updating p =>
      p = nextPromise (process w) ∧
      process (findAndUpdateBlocks times w).1
        = (updateBlocks (BtUsers.user r) (process w)).2 ∧
      (userBatches (uid (BtUsers.user r)) (db (process w)) = [] ∨
       ∃ batch, batch ∈ userBatches (uid (BtUsers.user r)) (db (process w)) ∧
         (∀ b, b ∈ userBatches (uid (BtUsers.user r)) (db (process w)) →
               batchUpdatedDesc times batch b) ∧
         (now (process w) - BatchTimes.createdAt times (BlockBatch.id batch)
          > ONE_DAY_IN_MILLIS)%Z) ∧
      requests (process (findAndUpdateBlocks times w).1)
        = requests (process w) ++
          match activeFetches (process w) !! uid (BtUsers.user r) with
          | Some _ => []
          | None => [(p, "-1")]
          end
  end.
Proof.
  intros Hfind.
  destruct (findAndUpdateBlocks_selected times w r Hfind) as [_ Hcase].
  pose proof (getBlockBatches_spec times (BtUsers.user r) (db (process w))) as Hbatches.
  destruct (updateBlocks_fields (BtUsers.user r) (process w))
    as (Hp & _ & Hdb & _ & _ & Hupdate).
  assert (Hreq : requests (updateBlocks (BtUsers.user r) (process w)).2
                 = requests (process w) ++
                   match activeFetches (process w) !! uid (BtUsers.user r) with
                   | Some _ => []
                   | None => [(nextPromise (process w), "-1")]
                   end).
  { destruct (activeFetches (process w) !! uid (BtUsers.user r));
      destruct Hupdate as (_ & _ & ->); [by rewrite app_nil_r|done]. }
  destruct (getBlockBatches times (BtUsers.user r) (db (process w))) as [|batch rest].
  - destruct Hcase as [-> ->]. split; [done|]. rewrite Hp. split; [done|].
    split; [done|]. split; [by left|done].
  - destruct Hbatches as (_ & Hin & Hlatest).
    destruct (decide (now (process w) - BatchTimes.createdAt times (BlockBatch.id batch)
                      > ONE_DAY_IN_MILLIS)%Z) as [Hold|Hrecent].
    + destruct Hcase as [-> ->]. split; [done|]. rewrite Hp. split; [done|].
      split; [done|]. split; [right; by exists batch|done].
    + destruct Hcase as [-> ->]. split; [done|]. split; [done|].
      exists batch. split; [done|]. split; [done|lia].
Qed.

Lemma findAndUpdateBlocks_decision_witness :
  (findAndUpdateBlocks atTimeZero threeUsers).2 = Updating 0 ∧
  requests (process (findAndUpdateBlocks atTimeZero threeUsers).1) = [(0, "-1")].
Proof.
  assert (Hfind : BtUser_find (now (process threeUsers)) (BtUsersTable threeUsers)
                  = Some (BtUsers.mk user8 None None)) by (vm_compute; reflexivity).
  assert (Hout : (findAndUpdateBlocks atTimeZero threeUsers).2 = Updating 0)
    by (vm_compute; reflexivity).
  split; [exact Hout|].
  destruct (findAndUpdateBlocks_decision atTimeZero threeUsers _ Hfind) as [_ Hcase].
  rewrite Hout in Hcase. by destruct Hcase as (_ & _ & _ & Hreq).
Defined.

(** X21.  A selected user rests for a day: after a call of [findAndUpdateBlocks]
    has selected a user, no later call selects a user with that uid until
    more than a day has passed, whatever happens in between (timer firings,
    answers, errors, other calls), also if the call started no fetch or the
    fetch failed. *)
Theorem selected_user_rests_for_a_day (times : BatchTimes.t) (w : worker)
    (r : BtUsers.row) (es : list workerEvent) :
  BtUser_find (now (process w)) (BtUsersTable w) = Some r →
  (now (process (workerRun (findAndUpdateBlocks times w).1 es))
   ≤ now (process w) + 86400 * 1000)%Z →
  ∀ r', BtUser_find (now (process (workerRun (findAndUpdateBlocks times w).1 es)))
          (BtUsersTable (workerRun (findAndUpdateBlocks times w).1 es)) = Some r' →
        uid (BtUsers.user r') ≠ uid (BtUsers.user r).
Proof.
  intros Hfind Hnow r' Hfind' Huid.
  destruct (findAndUpdateBlocks_selected times w r Hfind) as [Htable _].
  pose proof (findAndUpdateBlocks_now times w) as Hnow1.
  set (w1 := (findAndUpdateBlocks times w).1) in *.
  assert (Hmarked : ∀ r1, r1 ∈ BtUsersTable w1 →
            uid (BtUsers.user r1) = uid (BtUsers.user r) →
            ∃ t, BtUsers.updatedAt r1 = Some t ∧ (now (process w) ≤ t)%Z).
  { intros r1 Hr1 Hu. rewrite Htable in Hr1.
    apply elem_of_BtUser_save in Hr1 as [[-> _]|[_ Hne]]; [|done].
    eexists. split; [done|]. simpl. lia. }
  assert (Hle : (now (process w) ≤ now (process w1))%Z) by lia.
  pose proof (workerRun_marked es _ _ w1 Hle Hmarked) as Hmarked'.
  pose proof (BtUser_find_spec (now (process (workerRun w1 es)))
                (BtUsersTable (workerRun w1 es))) as Hspec.
  rewrite Hfind' in Hspec. destruct Hspec as (Hr' & [Hstale _] & _).
  destruct (Hmarked' r' Hr' Huid) as (t & Ht & Hge).
  rewrite Ht in Hstale. lia.
Qed.

Lemma selected_user_rests_for_a_day_witness :
  BtUser_find
    (now (process (workerRun (findAndUpdateBlocks atTimeZero threeUsers).1
                     [Process (Tick 1000)])))
    (BtUsersTable (workerRun (findAndUpdateBlocks atTimeZero threeUsers).1
                     [Process (Tick 1000)]))
    = Some (BtUsers.mk user7 (Some 0%Z) None) ∧
  uid (BtUsers.user (BtUsers.mk user7 (Some 0%Z) None))
    ≠ uid (BtUsers.user (BtUsers.mk user8 None None)).
Proof.
  assert (Hfind : BtUser_find (now (process threeUsers)) (BtUsersTable threeUsers)
                  = Some (BtUsers.mk user8 None None)) by (vm_compute; reflexivity).
  assert (Hnow : (now (process (workerRun (findAndUpdateBlocks atTimeZero threeUsers).1
                                  [Process (Tick 1000)]))
                  ≤ now (process threeUsers) + 86400 * 1000)%Z)
    by (vm_compute; discriminate).
  assert (Hfind' :
    BtUser_find
      (now (process (workerRun (findAndUpdateBlocks atTimeZero threeUsers).1
                       [Process (Tick 1000)])))
      (BtUsersTable (workerRun (findAndUpdateBlocks atTimeZero threeUsers).1
                       [Process (Tick 1000)]))
    = Some (BtUsers.mk user7 (Some 0%Z) None)) by (vm_compute; reflexivity).
  split; [exact Hfind'|].
  exact (selected_user_rests_for_a_day atTimeZero threeUsers _ [Process (Tick 1000)]
           Hfind Hnow _ Hfind').
Defined.

(* ================================================================== *)
(** * Fetches of different users, and snapshots that were given up *)

Section Isolation.
Implicit Types (d : DB) (s : state) (b r : BlockBatch.row) (user : BtUser).

Lemma elem_of_save_inv b' d r :
  r ∈ BlockBatches (BlockBatch_save b' d) → r = b' ∨ r ∈ BlockBatches d.
Proof.
  simpl. rewrite list_elem_of_fmap. intros (r0 & -> & Hr0). case_decide; auto.
Qed.

Lemma batchOfPage_id user blockBatch d :
  BlockBatch.id (batchOfPage user blockBatch d).2
  = match blockBatch with
    | Some b => BlockBatch.id b
    | None => nextBlockBatchId d
    end ∧
  BlockBatch.complete (batchOfPage user blockBatch d).2
  = match blockBatch with
    | Some b => BlockBatch.complete b
    | None => false
    end ∧
  ∀ r, r ∈ BlockBatches (batchOfPage user blockBatch d).1 →
       r ∈ BlockBatches d ∨ BlockBatch.id r = BlockBatch.id (batchOfPage user blockBatch d).2.
Proof.
  destruct blockBatch as [b|]; cbn [batchOfPage fst snd]; [by auto|].
  split; [done|]. split; [done|]. intros r Hr. simpl in Hr.
  apply elem_of_app in Hr as [Hr|Hr]; [by left|].
  apply list_elem_of_singleton in Hr as ->. by right.
Qed.

(** Where the rows of the table come from after a page. *)
Lemma page_rows p results s user blockBatch c r :
  promises s !! p = Some (AwaitBlocksIds user blockBatch c) →
  r ∈ BlockBatches (db (onBlocksIds p (IdsOk results) s)) →
  r ∈ BlockBatches (db s) ∨
  BlockBatch.id r = BlockBatch.id (batchOfPage user blockBatch (db s)).2.
Proof.
  intros Hp Hr.
  destruct (onBlocksIds_ok p results s user blockBatch c Hp) as (_ & _ & Hcase).
  destruct (batchOfPage_id user blockBatch (db s)) as (_ & _ & Hstart).
  set (start := batchOfPage user blockBatch (db s)) in *.
  destruct (handleIds_tables start.2 c results start.1) as (Ht2 & _).
  destruct (handleIds_fields start.2 c results start.1) as (_ & Hid2 & _).
  set (stored := handleIds start.2 c results start.1) in *.
  assert (Hstored : ∀ r, r ∈ BlockBatches stored.1.1 →
            r ∈ BlockBatches (db s) ∨ BlockBatch.id r = BlockBatch.id start.2).
  { intros r0 Hr0. rewrite Ht2 in Hr0.
    apply elem_of_save_inv in Hr0 as [->|Hr0]; [by right|by apply Hstart]. }
  destruct (decide (next_cursor_str results = "0")); destruct Hcase as (Hdb & _);
    rewrite Hdb in Hr; [|by apply Hstored].
  rewrite (snapshotStore_BlockBatches _ _ (startedBySealing_store _ _ _)) in Hr.
  apply destroyOldBlocks_others in Hr.
  apply elem_of_save_inv in Hr as [->|Hr]; [right; simpl; congruence|by apply Hstored].
Qed.

(** The entries of the page go to the batch of the page, and the pruning
    takes the entries of the rows it deletes. *)
Lemma page_entries p results s user blockBatch c r :
  promises s !! p = Some (AwaitBlocksIds user blockBatch c) →
  r ∈ BlockBatches (db (onBlocksIds p (IdsOk results) s)) →
  BlockBatch.id r ≠ BlockBatch.id (batchOfPage user blockBatch (db s)).2 →
  snapshotIds r (db (onBlocksIds p (IdsOk results) s)) = snapshotIds r (db s).
Proof.
  intros Hp Hr Hne.
  destruct (onBlocksIds_ok p results s user blockBatch c Hp) as (_ & _ & Hcase).
  assert (Hblocks1 : Blocks (batchOfPage user blockBatch (db s)).1 = Blocks (db s))
    by (by destruct blockBatch).
  set (start := batchOfPage user blockBatch (db s)) in *.
  destruct (handleIds_tables start.2 c results start.1) as (_ & Hblocks2 & _).
  set (stored := handleIds start.2 c results start.1) in *.
  rewrite Hblocks1 in Hblocks2.
  destruct (decide (next_cursor_str results = "0")); destruct Hcase as (Hdb & _);
    rewrite Hdb in Hr |- *; [|by apply (snapshotIds_other r (db s) _ _ _ Hblocks2)].
  rewrite <- (snapshotIds_other r (db s) stored.1.1 _ _ Hblocks2 Hne).
  pose proof (startedBySealing_store s stored.1.2 stored.1.1) as Hstore.
  rewrite (snapshotStore_BlockBatches _ _ Hstore) in Hr.
  rewrite (snapshotIds_store r _ _ Hstore).
  rewrite destroyOldBlocks_destroy in Hr |- *.
  unfold snapshotIds, getBlocks. simpl in Hr |- *.
  apply list_elem_of_filter in Hr as [Hkept _].
  rewrite list_filter_filter. f_equal. apply list_filter_iff. intros x. simpl.
  split; [tauto|]. intros Heq. split; [done|]. by rewrite Heq.
Qed.

Lemma step_carriedIncomplete s e : carriedIncomplete s → carriedIncomplete (step s e).
Proof.
  intros Hinc. destruct e as [user|p r|p|k r|ms|point]; cbn [step].
  - destruct (updateBlocks_fields user s) as (_ & _ & _ & _ & _ & Hcase).
    intros q v userq bq Hq Hfl.
    destruct (activeFetches s !! uid user); destruct Hcase as (_ & Hprom & _);
      rewrite Hprom in Hq;
      (destruct (decide (nextPromise s = q)) as [<-|Hne];
       [rewrite lookup_insert_eq in Hq; by injection Hq as <-
       |rewrite lookup_insert_ne in Hq by done; by eapply Hinc]).
  - pose proof (onBlocksIds_cases p r s) as Hcases.
    destruct (promises s !! p) as [[user blockBatch c| |]|] eqn:Hp;
      try (by rewrite Hcases).
    intros q v userq bq Hq Hfl. destruct r as [results|statusCode].
    + destruct (onBlocksIds_ok p results s user blockBatch c Hp) as (_ & _ & Hok).
      destruct (batchOfPage_id user blockBatch (db s)) as (_ & Hc1 & _).
      destruct (handleIds_fields (batchOfPage user blockBatch (db s)).2 c results
                  (batchOfPage user blockBatch (db s)).1) as (_ & _ & _ & Hc2).
      assert (Hc : BlockBatch.complete
                     (handleIds (batchOfPage user blockBatch (db s)).2 c results
                        (batchOfPage user blockBatch (db s)).1).1.2 = false).
      { rewrite Hc2, Hc1. destruct blockBatch as [b|]; [|done]. by eapply Hinc. }
      destruct (decide (next_cursor_str results = "0"));
        destruct Hok as (_ & _ & Hprom & _); rewrite Hprom in Hq;
        (destruct (decide (p = q)) as [<-|Hne];
         [rewrite lookup_insert_eq in Hq; injection Hq as <-
         |rewrite lookup_insert_ne in Hq by done; by eapply Hinc]).
      * done.
      * simpl in Hfl. by injection Hfl as <- <-.
    + destruct Hcases as (_ & _ & Hprom). rewrite Hprom in Hq.
      destruct (decide (p = q)) as [<-|Hne];
        [|rewrite lookup_insert_ne in Hq by done; by eapply Hinc].
      rewrite lookup_insert_eq in Hq. injection Hq as <-.
      destruct blockBatch as [b0|]; [|done].
      destruct (decide (statusCode = 429%Z)); [|done].
      simpl in Hfl. injection Hfl as <- <-. by eapply Hinc.
  - pose proof (onDelayElapsed_cases p s) as Hcases.
    destruct (promises s !! p) as [[| user b c wake |]|] eqn:Hp; try (by rewrite Hcases).
    destruct (decide (wake ≤ now s)%Z); [|by rewrite Hcases].
    rewrite Hcases. intros q v userq bq Hq Hfl. cbn [promises] in Hq.
    destruct (decide (p = q)) as [<-|Hne];
      [|rewrite lookup_insert_ne in Hq by done; by eapply Hinc].
    rewrite lookup_insert_eq in Hq. injection Hq as <-. simpl in Hfl.
    injection Hfl as <- <-. by eapply (Hinc p _ user b Hp).
  - unfold onUsersLookup. by destruct (lookups s !! k).
  - done.
  - done.
Qed.

Lemma run_carriedIncomplete es : ∀ s, carriedIncomplete s → carriedIncomplete (run s es).
Proof.
  induction es as [|e es IH]; intros s Hs; [done|].
  cbn [run foldl]. by apply IH, step_carriedIncomplete.
Qed.

Lemma step_frozen b0 s e : frozen b0 s → frozen b0 (step s e).
Proof.
  intros (Hbelow & Hcarried & Hrows). destruct e as [user|p r|p|k r|ms|point]; cbn [step].
  - destruct (updateBlocks_fields user s) as (_ & _ & Hdb & _ & _ & Hcase).
    unfold frozen. rewrite Hdb. split; [done|]. split; [|done].
    intros q v userq bq Hq Hfl.
    destruct (activeFetches s !! uid user); destruct Hcase as (_ & Hprom & _);
      rewrite Hprom in Hq;
      (destruct (decide (nextPromise s = q)) as [<-|Hne];
       [rewrite lookup_insert_eq in Hq; by injection Hq as <-
       |rewrite lookup_insert_ne in Hq by done; by eapply Hcarried]).
  - pose proof (onBlocksIds_cases p r s) as Hcases.
    pose proof (onBlocksIds_counter p r s) as Hcounter.
    destruct (promises s !! p) as [[user blockBatch c| |]|] eqn:Hp;
      try (by rewrite Hcases).
    destruct r as [results|statusCode].
    + destruct (onBlocksIds_ok p results s user blockBatch c Hp) as (_ & _ & Hok).
      destruct (batchOfPage_id user blockBatch (db s)) as (Hid1 & _ & _).
      destruct (handleIds_fields (batchOfPage user blockBatch (db s)).2 c results
                  (batchOfPage user blockBatch (db s)).1) as (_ & Hid2 & _).
      assert (Hne1 : BlockBatch.id (batchOfPage user blockBatch (db s)).2
                     ≠ BlockBatch.id b0).
      { rewrite Hid1. destruct blockBatch as [b|]; [by eapply Hcarried|lia]. }
      split; [|split].
      * rewrite Hcounter. destruct blockBatch; lia.
      * intros q v userq bq Hq Hfl.
        destruct (decide (next_cursor_str results = "0"));
          destruct Hok as (_ & _ & Hprom & _); rewrite Hprom in Hq;
          (destruct (decide (p = q)) as [<-|Hne];
           [rewrite lookup_insert_eq in Hq; injection Hq as <-
           |rewrite lookup_insert_ne in Hq by done; by eapply Hcarried]).
        -- done.
        -- simpl in Hfl. injection Hfl as <- <-. exact Hne1.
      * intros r Hr Hid. apply Hrows; [|done].
        destruct (page_rows p results s user blockBatch c r Hp Hr) as [?|Heq]; [done|].
        congruence.
    + destruct (onBlocksIds_err p statusCode s) as (Hdb & _).
      unfold frozen. rewrite Hdb. split; [done|]. split; [|done].
      destruct Hcases as (_ & _ & Hprom). intros q v userq bq Hq Hfl.
      rewrite Hprom in Hq. destruct (decide (p = q)) as [<-|Hne];
        [|rewrite lookup_insert_ne in Hq by done; by eapply Hcarried].
      rewrite lookup_insert_eq in Hq. injection Hq as <-.
      destruct blockBatch as [b1|]; [|done].
      destruct (decide (statusCode = 429%Z)); [|done].
      simpl in Hfl. injection Hfl as <- <-. by eapply (Hcarried p _ user b1 Hp).
  - pose proof (onDelayElapsed_cases p s) as Hcases.
    destruct (promises s !! p) as [[| user b c wake |]|] eqn:Hp; try (by rewrite Hcases).
    destruct (decide (wake ≤ now s)%Z); [|by rewrite Hcases].
    rewrite Hcases. split; [done|]. split; [|done].
    intros q v userq bq Hq Hfl. cbn [promises] in Hq.
    destruct (decide (p = q)) as [<-|Hne];
      [|rewrite lookup_insert_ne in Hq by done; by eapply Hcarried].
    rewrite lookup_insert_eq in Hq. injection Hq as <-. simpl in Hfl.
    injection Hfl as <- <-. by eapply (Hcarried p _ user b Hp).
  - unfold onUsersLookup. destruct (lookups s !! k) as [pl|]; [|done].
    pose proof (lookupCallback_store pl r (now s) (db s)) as Hstore.
    unfold frozen. cbn [db promises].
    rewrite (snapshotStore_BlockBatches _ _ Hstore).
    unfold snapshotStore in Hstore. injection Hstore as _ _ _ ->. done.
  - done.
  - done.
Qed.

Lemma run_frozen b0 es : ∀ s, frozen b0 s → frozen b0 (run s es).
Proof.
  induction es as [|e es IH]; intros s Hs; [done|].
  cbn [run foldl]. by apply IH, step_frozen.
Qed.

End Isolation.

(** X22.  At any time a user has at most one fetch in flight: in a reachable
    state every fetch that has not settled (waiting for a page or for the
    delay after a rate limit) is the one registered in [activeFetches] for
    its user, the batch it carries is a batch of that user, and no other
    unsettled fetch belongs to a user with the same uid. *)
Theorem one_fetch_in_flight_per_user (s : state) (p : nat) (v : promise)
    (user : BtUser) (blockBatch : option BlockBatch.row) :
  reachable s →
  promises s !! p = Some v → inFlight v = Some (user, blockBatch) →
  activeFetches s !! uid user = Some p ∧
  (∀ b, blockBatch = Some b → BlockBatch.source_uid b = uid user) ∧
  ∀ q v' user' blockBatch',
    promises s !! q = Some v' → inFlight v' = Some (user', blockBatch') →
    uid user' = uid user → q = p.
Proof.
  intros Hreach Hp Hfl. destruct (reachable_invariants s Hreach) as [Hreg _].
  destruct (Hreg p v user blockBatch Hp Hfl) as [Hactive Hsource].
  split; [done|]. split; [done|]. intros q v' user' blockBatch' Hq Hfl' Huid.
  destruct (Hreg q v' user' blockBatch' Hq Hfl') as [Hactive' _].
  rewrite Huid in Hactive'. congruence.
Qed.

Lemma one_fetch_in_flight_per_user_witness :
  activeFetches firstPageStored !! uid user7 = Some 0 ∧
  ∀ b, Some (BlockBatch.mk 1 "7" 2 (Some "-1") false) = Some b →
       BlockBatch.source_uid b = uid user7.
Proof.
  assert (Hreach : reachable firstPageStored) by (by eexists _, _, _).
  assert (Hp : promises firstPageStored !! 0
               = Some (AwaitBlocksIds user7
                         (Some (BlockBatch.mk 1 "7" 2 (Some "-1") false)) "100"))
    by (vm_compute; reflexivity).
  destruct (one_fetch_in_flight_per_user firstPageStored 0 _ user7 _ Hreach Hp eq_refl)
    as (Hactive & Hsource & _).
  split; [exact Hactive|exact Hsource].
Defined.

(** X23.  The fetch of one user leaves the snapshots of the others alone: in a
    process started on a table that satisfies the invariants, an answer to
    the request of a fetch, whether a page (a last page with its diff and
    its pruning included) or an error, deletes no batch of another user and
    leaves the entries of every such batch as they are.  Events other than
    a page (calls, errors, elapsed delays, lookup answers, the clock, the
    point of the destroy)
    change neither the batches, nor the entries, nor the directory. *)
Theorem answer_leaves_other_users_alone (d : DB) (t : Z) (es : list event) (p : nat)
    (user : BtUser) (blockBatch : option BlockBatch.row) (c : string)
    (answer : idsResponse) (r : BlockBatch.row) :
  wfDB d →
  promises (run (initial d t) es) !! p = Some (AwaitBlocksIds user blockBatch c) →
  r ∈ BlockBatches (db (run (initial d t) es)) → BlockBatch.source_uid r ≠ uid user →
  r ∈ BlockBatches (db (step (run (initial d t) es) (BlocksIds p answer))) ∧
  snapshotIds r (db (step (run (initial d t) es) (BlocksIds p answer)))
    = snapshotIds r (db (run (initial d t) es)) ∧
  ∀ e, match e with
       | BlocksIds _ (IdsOk _) => True
       | _ => snapshotStore (db (step (run (initial d t) es) e))
              = snapshotStore (db (run (initial d t) es))
       end.
Proof.
  intros Hwf Hp Hr Hsrc.
  destruct (run_tablesSound es (initial d t) (registered_initial d t)
              (tablesSound_initial d t Hwf)) as [[Hwfs Hstored] _].
  assert (Hreach : reachable (run (initial d t) es)) by (by eexists _, _, _).
  destruct (reachable_invariants _ Hreach) as [Hreg _].
  set (s := run (initial d t) es) in *.
  destruct (Hreg p _ user blockBatch Hp eq_refl) as [_ Hsource].
  assert (Hcarried : ∀ b, blockBatch = Some b →
            b ∈ BlockBatches (db s) ∧ BlockBatch.source_uid b = uid user).
  { intros b ->. split; [by eapply Hstored|by apply Hsource]. }
  split; [|split].
  - cbn [step]. destruct answer as [results|statusCode].
    + by destruct (page_tables p results s user blockBatch c Hp Hwfs Hcarried)
        as (_ & _ & Hkept & _); apply Hkept.
    + by destruct (onBlocksIds_err p statusCode s) as (-> & _).
  - cbn [step]. destruct answer as [results|statusCode].
    + apply (page_entries p results s user blockBatch c r Hp).
      * by destruct (page_tables p results s user blockBatch c Hp Hwfs Hcarried)
          as (_ & _ & Hkept & _); apply Hkept.
      * by destruct (batchOfPage_tables user blockBatch (db s) Hwfs Hcarried)
          as (_ & _ & _ & _ & _ & Hothers); destruct (Hothers r Hr Hsrc).
    + by destruct (onBlocksIds_err p statusCode s) as (-> & _).
  - intros e. destruct e as [user'|q [results|statusCode]|q|k res|ms|point]; cbn [step]; try done.
    + by destruct (updateBlocks_fields user' s) as (_ & _ & -> & _).
    + by destruct (onBlocksIds_err q statusCode s) as (-> & _).
    + unfold onDelayElapsed.
      destruct (promises s !! q) as [[| userq bq cq wake |]|]; try done.
      by destruct (decide (wake ≤ now s)%Z).
    + unfold onUsersLookup. destruct (lookups s !! k) as [pl|]; [|done].
      cbn [db]. apply lookupCallback_store.
Qed.

Lemma answer_leaves_other_users_alone_witness :
  BlockBatch.mk 1 "7" 3 (Some "-1") true
    ∈ BlockBatches (db (step (run (initial emptyDB 0)
                                [UpdateBlocks user7;
                                 BlocksIds 0 (IdsOk (mkIds ["1"; "2"; "3"] "0"));
                                 UpdateBlocks user8])
                             (BlocksIds 1 (IdsOk (mkIds ["5"] "0"))))) ∧
  snapshotIds (BlockBatch.mk 1 "7" 3 (Some "-1") true)
    (db (step (run (initial emptyDB 0)
                 [UpdateBlocks user7; BlocksIds 0 (IdsOk (mkIds ["1"; "2"; "3"] "0"));
                  UpdateBlocks user8])
              (BlocksIds 1 (IdsOk (mkIds ["5"] "0")))))
  = snapshotIds (BlockBatch.mk 1 "7" 3 (Some "-1") true)
      (db (run (initial emptyDB 0)
             [UpdateBlocks user7; BlocksIds 0 (IdsOk (mkIds ["1"; "2"; "3"] "0"));
              UpdateBlocks user8])).
Proof.
  assert (Hwf : wfDB emptyDB) by (repeat split; constructor).
  assert (Hp : promises (run (initial emptyDB 0)
                           [UpdateBlocks user7;
                            BlocksIds 0 (IdsOk (mkIds ["1"; "2"; "3"] "0"));
                            UpdateBlocks user8]) !! 1
               = Some (AwaitBlocksIds user8 None "-1")) by (vm_compute; reflexivity).
  assert (Htable : BlockBatches (db (run (initial emptyDB 0)
                      [UpdateBlocks user7; BlocksIds 0 (IdsOk (mkIds ["1"; "2"; "3"] "0"));
                       UpdateBlocks user8]))
                   = [BlockBatch.mk 1 "7" 3 (Some "-1") true])
    by (vm_compute; reflexivity).
  assert (Hr : BlockBatch.mk 1 "7" 3 (Some "-1") true
               ∈ BlockBatches (db (run (initial emptyDB 0)
                      [UpdateBlocks user7; BlocksIds 0 (IdsOk (mkIds ["1"; "2"; "3"] "0"));
                       UpdateBlocks user8])))
    by (rewrite Htable; by left).
  assert (Hsrc : BlockBatch.source_uid (BlockBatch.mk 1 "7" 3 (Some "-1") true) ≠ uid user8)
    by discriminate.
  destruct (answer_leaves_other_users_alone emptyDB 0 _ 1 user8 None "-1"
              (IdsOk (mkIds ["5"] "0")) _ Hwf Hp Hr Hsrc) as (Hkept & Hentries & _).
  split; [exact Hkept|exact Hentries].
Defined.

(** X24.  A snapshot that was given up is never taken up again: when a fetch
    that carries a batch is aborted by a request failure (a status other
    than 429), the batch is a row of the table that is not complete, and
    from then on no fetch carries a batch with its id and no event changes
    the row; it is never sealed, and stays as it is until the pruning
    deletes it. *)
Theorem aborted_snapshot_is_never_resumed (d : DB) (t : Z) (es es' : list event)
    (p : nat) (user : BtUser) (b : BlockBatch.row) (c : string) (statusCode : Z) :
  wfDB d →
  promises (run (initial d t) es) !! p = Some (AwaitBlocksIds user (Some b) c) →
  statusCode ≠ 429%Z →
  BlockBatch.complete b = false ∧
  b ∈ BlockBatches (db (run (initial d t) es)) ∧
  (∀ r, r ∈ BlockBatches
          (db (run (step (run (initial d t) es) (BlocksIds p (IdsErr statusCode))) es')) →
        BlockBatch.id r = BlockBatch.id b → r = b) ∧
  (∀ q v user' b',
     promises (run (step (run (initial d t) es) (BlocksIds p (IdsErr statusCode))) es') !! q
       = Some v →
     inFlight v = Some (user', Some b') → BlockBatch.id b' ≠ BlockBatch.id b).
Proof.
  intros Hwf Hp Hcode.
  destruct (run_tablesSound es (initial d t) (registered_initial d t)
              (tablesSound_initial d t Hwf)) as [[Hwfs Hstored] _].
  assert (Hreach : reachable (run (initial d t) es)) by (by eexists _, _, _).
  destruct (reachable_invariants _ Hreach) as [Hreg _].
  assert (Hinc : carriedIncomplete (run (initial d t) es)).
  { apply run_carriedIncomplete. intros q v userq bq Hq. simpl in Hq.
    by rewrite lookup_empty in Hq. }
  set (s := run (initial d t) es) in *.
  assert (Hb : b ∈ BlockBatches (db s)) by (by eapply (Hstored p _ user b Hp)).
  destruct (Hreg p _ user (Some b) Hp eq_refl) as [Hactive Hsource].
  split; [by eapply (Hinc p _ user b Hp)|]. split; [done|].
  assert (Hfrozen : frozen b (step s (BlocksIds p (IdsErr statusCode)))).
  { cbn [step]. destruct (onBlocksIds_err p statusCode s) as (Hdb & _).
    pose proof (onBlocksIds_cases p (IdsErr statusCode) s) as Hcases.
    rewrite Hp in Hcases. destruct Hcases as (_ & _ & Hprom).
    rewrite decide_False in Hprom by done.
    pose proof Hwfs as (Hsorted & Hbelow & _).
    unfold frozen. rewrite Hdb. split; [|split].
    - rewrite Forall_forall in Hbelow. by apply Hbelow.
    - intros q v userq bq Hq Hfl Hid. rewrite Hprom in Hq.
      destruct (decide (p = q)) as [<-|Hne].
      + rewrite lookup_insert_eq in Hq. by injection Hq as <-.
      + rewrite lookup_insert_ne in Hq by done.
        destruct (Hreg q v userq (Some bq) Hq Hfl) as [Hactiveq Hsourceq].
        assert (bq = b).
        { apply (unique_id (BlockBatches (db s))); [by apply idAsc_NoDup| |done..].
          by eapply Hstored. }
        subst bq. rewrite <- (Hsourceq b eq_refl), (Hsource b eq_refl) in Hactiveq.
        congruence.
    - intros r Hr Hid.
      by apply (unique_id (BlockBatches (db s))); [apply idAsc_NoDup|..]. }
  destruct (run_frozen b es' _ Hfrozen) as (_ & Hcarried & Hrows).
  split; [exact Hrows|exact Hcarried].
Qed.

Lemma aborted_snapshot_is_never_resumed_witness :
  BlockBatch.complete (BlockBatch.mk 3 "7" 1 (Some "-1") false) = false ∧
  ∀ r, r ∈ BlockBatches
         (db (run (step (run (initial emptyDB 0)
                           [UpdateBlocks user7; BlocksIds 0 (IdsOk (mkIds ["11"] "0"));
                            UpdateBlocks user7; BlocksIds 1 (IdsOk (mkIds ["11"] "0"));
                            UpdateBlocks user7; BlocksIds 2 (IdsOk (mkIds ["11"] "1500"))])
                        (BlocksIds 2 (IdsErr 500)))
                   [UpdateBlocks user7; UpdateBlocks user8;
                    BlocksIds 4 (IdsOk (mkIds ["1"] "0"))])) →
       BlockBatch.id r = BlockBatch.id (BlockBatch.mk 3 "7" 1 (Some "-1") false) →
       r = BlockBatch.mk 3 "7" 1 (Some "-1") false.
Proof.
  assert (Hwf : wfDB emptyDB) by (repeat split; constructor).
  assert (Hp : promises (run (initial emptyDB 0)
                           [UpdateBlocks user7; BlocksIds 0 (IdsOk (mkIds ["11"] "0"));
                            UpdateBlocks user7; BlocksIds 1 (IdsOk (mkIds ["11"] "0"));
                            UpdateBlocks user7; BlocksIds 2 (IdsOk (mkIds ["11"] "1500"))])
                 !! 2
               = Some (AwaitBlocksIds user7
                         (Some (BlockBatch.mk 3 "7" 1 (Some "-1") false)) "1500"))
    by (vm_compute; reflexivity).
  assert (Hcode : (500 ≠ 429)%Z) by discriminate.
  destruct (aborted_snapshot_is_never_resumed emptyDB 0 _
              [UpdateBlocks user7; UpdateBlocks user8;
               BlocksIds 4 (IdsOk (mkIds ["1"] "0"))] 2 user7 _ "1500" 500 Hwf Hp Hcode)
    as (Hinc & _ & Hrows & _).
  split; [exact Hinc|exact Hrows].
Defined.

(* ================================================================== *)
(** * Settled promises, and pruning twice *)

Section Settled.
Implicit Types (s : state) (e : event) (p q : nat).

Lemma step_settled s e p value :
  numbered s → promises s !! p = Some (Resolved value) →
  promises (step s e) !! p = Some (Resolved value).
Proof.
  intros [Hnum _] Hp.
  assert (Hlt : p < nextPromise s) by (apply Hnum; by rewrite Hp).
  destruct e as [user|q r|q|k r|ms|point]; cbn [step].
  - destruct (updateBlocks_fields user s) as (_ & _ & _ & _ & _ & Hcase).
    destruct (activeFetches s !! uid user); destruct Hcase as (_ & -> & _);
      rewrite lookup_insert_ne by lia; done.
  - pose proof (onBlocksIds_cases q r s) as Hcases.
    destruct (decide (q = p)) as [->|Hne]; [rewrite Hp in Hcases; by rewrite Hcases|].
    destruct (promises s !! q) as [[userq blockBatch cq| |]|]; try by rewrite Hcases.
    destruct Hcases as (_ & Hcases). destruct r as [results|statusCode].
    + destruct Hcases as (bq & _ & Hcases).
      destruct (decide (next_cursor_str results = "0")); destruct Hcases as (_ & ->);
        by rewrite lookup_insert_ne.
    + destruct Hcases as (_ & ->). by rewrite lookup_insert_ne.
  - pose proof (onDelayElapsed_cases q s) as Hcases.
    destruct (decide (q = p)) as [->|Hne]; [rewrite Hp in Hcases; by rewrite Hcases|].
    destruct (promises s !! q) as [[| userq bq cq wakeq |]|]; try by rewrite Hcases.
    destruct (decide (wakeq ≤ now s)%Z); rewrite Hcases; [|done].
    simpl. by rewrite lookup_insert_ne.
  - unfold onUsersLookup. by destruct (lookups s !! k).
  - done.
  - done.
Qed.

Lemma run_settled es : ∀ s p value,
  numbered s → promises s !! p = Some (Resolved value) →
  promises (run s es) !! p = Some (Resolved value).
Proof.
  induction es as [|e es IH]; intros s p value Hnum Hp; [done|].
  cbn [run foldl]. apply IH; [by apply step_numbered|by apply step_settled].
Qed.

(** A promise resolves to a batch only when the batch has been sealed. *)
Lemma step_resolved_complete s e :
  (∀ p b, promises s !! p = Some (Resolved (Some b)) → BlockBatch.complete b = true) →
  ∀ p b, promises (step s e) !! p = Some (Resolved (Some b)) →
         BlockBatch.complete b = true.
Proof.
  intros Hinv. destruct e as [user|q r|q|k r|ms|point]; cbn [step].
  - destruct (updateBlocks_fields user s) as (_ & _ & _ & _ & _ & Hcase).
    intros p b Hp.
    destruct (activeFetches s !! uid user); destruct Hcase as (_ & Hprom & _);
      rewrite Hprom in Hp;
      (destruct (decide (nextPromise s = p)) as [<-|Hne];
       [by rewrite lookup_insert_eq in Hp
       |rewrite lookup_insert_ne in Hp by done; by eapply Hinv]).
  - pose proof (onBlocksIds_cases q r s) as Hcases.
    destruct (promises s !! q) as [[userq blockBatch cq| |]|] eqn:Hq;
      try (by rewrite Hcases).
    intros p b Hp. destruct r as [results|statusCode].
    + destruct (onBlocksIds_ok q results s userq blockBatch cq Hq) as (_ & _ & Hok).
      destruct (decide (next_cursor_str results = "0"));
        destruct Hok as (_ & _ & Hprom & _); rewrite Hprom in Hp;
        (destruct (decide (q = p)) as [<-|Hne];
         [rewrite lookup_insert_eq in Hp
         |rewrite lookup_insert_ne in Hp by done; by eapply Hinv]).
      * by injection Hp as <-.
      * done.
    + destruct Hcases as (_ & _ & Hprom). rewrite Hprom in Hp.
      destruct (decide (q = p)) as [<-|Hne];
        [|rewrite lookup_insert_ne in Hp by done; by eapply Hinv].
      rewrite lookup_insert_eq in Hp. destruct blockBatch as [b0|]; [|done].
      by destruct (decide (statusCode = 429%Z)).
  - pose proof (onDelayElapsed_cases q s) as Hcases.
    destruct (promises s !! q) as [[| userq bq cq wakeq |]|] eqn:Hq; try (by rewrite Hcases).
    destruct (decide (wakeq ≤ now s)%Z); [|by rewrite Hcases].
    rewrite Hcases. intros p b Hp. cbn [promises] in Hp.
    destruct (decide (q = p)) as [<-|Hne];
      [by rewrite lookup_insert_eq in Hp
      |rewrite lookup_insert_ne in Hp by done; by eapply Hinv].
  - unfold onUsersLookup. by destruct (lookups s !! k).
  - done.
  - done.
Qed.

Lemma reachable_resolved_complete s :
  reachable s →
  ∀ p b, promises s !! p = Some (Resolved (Some b)) → BlockBatch.complete b = true.
Proof.
  intros (d & t & es & ->).
  assert (Hgen : ∀ s0,
            (∀ p b, promises s0 !! p = Some (Resolved (Some b)) →
                    BlockBatch.complete b = true) →
            ∀ p b, promises (run s0 es) !! p = Some (Resolved (Some b)) →
                   BlockBatch.complete b = true).
  { induction es as [|e es IH]; intros s0 Hs0; [done|].
    cbn [run foldl]. by apply IH, step_resolved_complete. }
  apply Hgen. intros p b Hp. simpl in Hp. by rewrite lookup_empty in Hp.
Qed.

End Settled.

(** X25.  The promise that [updateBlocks] returns settles once: in a reachable
    state, a promise that is resolved keeps its value whatever events
    follow (answers addressed to it are ignored), and when it is resolved
    with a batch rather than with [null], that batch is complete. *)
Theorem settled_promise_never_changes (s : state) (p : nat)
    (value : option BlockBatch.row) (es : list event) :
  reachable s → promises s !! p = Some (Resolved value) →
  promises (run s es) !! p = Some (Resolved value) ∧
  ∀ b, value = Some b → BlockBatch.complete b = true.
Proof.
  intros Hreach Hp. destruct (reachable_invariants s Hreach) as [_ Hnum].
  split; [by apply run_settled|]. intros b ->.
  by apply (reachable_resolved_complete s Hreach p).
Qed.

Lemma settled_promise_never_changes_witness :
  promises (run oneSealedSync
              [BlocksIds 0 (IdsOk (mkIds ["9"] "0")); BlocksIds 0 (IdsErr 500);
               DelayElapsed 0; UpdateBlocks user7]) !! 0
    = Some (Resolved (Some (BlockBatch.mk 1 "7" 3 (Some "-1") true))) ∧
  ∀ b, Some (BlockBatch.mk 1 "7" 3 (Some "-1") true) = Some b →
       BlockBatch.complete b = true.
Proof.
  assert (Hreach : reachable oneSealedSync) by (by eexists _, _, _).
  assert (Hp : promises oneSealedSync !! 0
               = Some (Resolved (Some (BlockBatch.mk 1 "7" 3 (Some "-1") true))))
    by (vm_compute; reflexivity).
  exact (settled_promise_never_changes oneSealedSync 0 _
           [BlocksIds 0 (IdsOk (mkIds ["9"] "0")); BlocksIds 0 (IdsErr 500);
            DelayElapsed 0; UpdateBlocks user7] Hreach Hp).
Defined.

Section PruneTwice.
Implicit Types (d : DB) (u v : string).

(** Pruning one user leaves the batches of every other user in place. *)
Lemma userBatches_destroyOldBlocks_other u v d :
  wfDB d → u ≠ v → userBatches v (destroyOldBlocks u d) = userBatches v d.
Proof.
  intros Hwf Hne. pose proof Hwf as (Hsorted & _ & _).
  rewrite destroyOldBlocks_destroy. unfold userBatches, BlockBatch_destroy. simpl.
  rewrite list_filter_filter. apply filter_ext_elem. intros b Hb.
  split; [tauto|]. intros Hsrc. split; [done|].
  unfold pluck. rewrite list_elem_of_fmap. intros (o & Hid & Ho).
  apply elem_of_oldBlockBatches in Ho as [Ho _]; [|by apply idAsc_NoDup].
  apply list_elem_of_filter in Ho as [Hou Ho].
  assert (b = o); [|congruence].
  by apply (unique_id (BlockBatches d)); [apply idAsc_NoDup|..].
Qed.

Lemma oldBlockBatches_destroyOldBlocks_other u v d :
  wfDB d → u ≠ v → oldBlockBatches v (destroyOldBlocks u d) = oldBlockBatches v d.
Proof.
  intros Hwf Hne. unfold oldBlockBatches.
  fold (userBatches v (destroyOldBlocks u d)). fold (userBatches v d).
  by rewrite userBatches_destroyOldBlocks_other.
Qed.

Lemma BlockBatch_destroy_comm (ids1 ids2 : list nat) d :
  BlockBatch_destroy ids1 (BlockBatch_destroy ids2 d)
  = BlockBatch_destroy ids2 (BlockBatch_destroy ids1 d).
Proof.
  unfold BlockBatch_destroy, set_Blocks, set_BlockBatches. simpl.
  f_equal; rewrite !list_filter_filter; apply list_filter_iff; intros x; tauto.
Qed.

End PruneTwice.

(** X26.  Pruning is safe to repeat and to reorder: on a table that satisfies the
    invariants, pruning a user leaves at most four batches of that user,
    pruning the same user again changes nothing, and pruning two users
    gives the same database in either order. *)
Theorem destroyOldBlocks_idempotent (u v : string) (d : DB) :
  wfDB d →
  length (userBatches u (destroyOldBlocks u d)) ≤ 4 ∧
  destroyOldBlocks u (destroyOldBlocks u d) = destroyOldBlocks u d ∧
  destroyOldBlocks v (destroyOldBlocks u d) = destroyOldBlocks u (destroyOldBlocks v d).
Proof.
  intros Hwf.
  assert (Hlen : length (userBatches u (destroyOldBlocks u d)) ≤ 4).
  { rewrite userBatches_destroyOldBlocks by done. unfold lastN. rewrite length_drop. lia. }
  assert (Hidem : destroyOldBlocks u (destroyOldBlocks u d) = destroyOldBlocks u d).
  { unfold destroyOldBlocks at 1.
    assert (Hnone : oldBlockBatches u (destroyOldBlocks u d) = []).
    { unfold oldBlockBatches. fold (userBatches u (destroyOldBlocks u d)).
      apply drop_ge. by rewrite merge_sort_Permutation. }
    by rewrite Hnone. }
  split; [done|]. split; [done|].
  destruct (decide (u = v)) as [->|Hne]; [done|].
  rewrite (destroyOldBlocks_destroy v (destroyOldBlocks u d)).
  rewrite (destroyOldBlocks_destroy u (destroyOldBlocks v d)).
  rewrite (oldBlockBatches_destroyOldBlocks_other u v d Hwf Hne).
  rewrite (oldBlockBatches_destroyOldBlocks_other v u d Hwf (not_eq_sym Hne)).
  rewrite (destroyOldBlocks_destroy u d), (destroyOldBlocks_destroy v d).
  apply BlockBatch_destroy_comm.
Qed.

Lemma destroyOldBlocks_idempotent_witness :
  length (userBatches "7" (destroyOldBlocks "7" (db thirdFetchAborted))) ≤ 4 ∧
  destroyOldBlocks "7" (destroyOldBlocks "7" (db thirdFetchAborted))
    = destroyOldBlocks "7" (db thirdFetchAborted).
Proof.
  assert (Hwf0 : wfDB emptyDB) by (repeat split; constructor).
  assert (Hwf : wfDB (db thirdFetchAborted)).
  { by destruct (run_tablesSound
                   [UpdateBlocks user7; BlocksIds 0 (IdsOk (mkIds ["11"] "0"));
                    UpdateBlocks user7; BlocksIds 1 (IdsOk (mkIds ["11"] "0"));
                    UpdateBlocks user7; BlocksIds 2 (IdsOk (mkIds ["11"] "1500"));
                    BlocksIds 2 (IdsErr 500)]
                   (initial emptyDB 0) (registered_initial emptyDB 0)
                   (tablesSound_initial emptyDB 0 Hwf0)) as [[? _] _]. }
  destruct (destroyOldBlocks_idempotent "7" "8" (db thirdFetchAborted) Hwf)
    as (Hlen & Hidem & _).
  split; [exact Hlen|exact Hidem].
Defined.
